(** * Schema-driven validation, sanitisation and migration engine

    A shallow embedding of [src/utils/validator.js] (validateData,
    validateObjectAgainstSchema, sanitizeData), [src/schemas/index.js]
    (the schema registry) and [src/utils/migrations.js] (applyDefaults,
    migrateDocument, migrateCollection, getMigrationStatus), together with
    the character, dialogue and environment schema tables.

    Modelling conventions, used throughout:
    - a JavaScript value that can occur in a JSON request body or in a stored
      document is a [JS.Value]; [undefined] is the absence of a value and is
      rendered by [None] wherever the code reads a property;
    - a number is an integer that a JavaScript number holds exactly (of
      magnitude below 2^53), so that [String(n)] is its decimal rendering; a
      string is a sequence of UTF-16 code units below 256, one character of
      the Rocq string per code unit, so that [value.length] is
      [String.length];
    - a JavaScript object is an association list in insertion order;
      reading a property of a payload or of a stored document is an
      own-property read. The members that every object inherits from
      [Object.prototype] are written out where the code can reach them
      through a key taken from the data: the call [data.hasOwnProperty(..)]
      of the validator and the [versions] object of [getMigrationStatus].
      The registry is looked up by own key, which is what [schemas[type]]
      gives for every type that is not the name of such a member
      ([JS.inherited]);
    - the document store is a finite map from collection names to finite
      maps from document ids to documents. *)

From stdpp Require Import gmap strings list fin_maps pretty sorting.
From Stdlib Require Import ZArith Lia.

Open Scope string_scope.
Open Scope list_scope.
Set Warnings "-register-all".

(* ===================================================================== *)
(** ** JavaScript values and objects                                      *)
(* ===================================================================== *)

Module JS.

Inductive Value : Type :=
| JNull
| JBool (b : bool)
| JNum (n : Z)
| JStr (s : string)
| JArr (items : list Value)
| JObj (props : list (string * Value)).

(** An object literal: its own enumerable properties, in insertion order. *)
Definition Obj : Type := list (string * Value).

(** Result of an evaluation that may raise a [TypeError]. *)
Inductive Completion (A : Type) : Type :=
| Normal (a : A)
| TypeError.
Arguments Normal {A} a.
Arguments TypeError {A}.

(** [o[k]]: [None] stands for [undefined]. *)
Fixpoint get (o : Obj) (k : string) : option Value :=
  match o with
  | [] => None
  | (k', v) :: o' => if String.eqb k' k then Some v else get o' k
  end.

(** [Object.prototype.hasOwnProperty.call(o, k)]: [o] has an own property
    called [k]. *)
Definition has (o : Obj) (k : string) : bool :=
  existsb (fun e => String.eqb (fst e) k) o.

(** [o[k] = v]: an existing key keeps its position, a new key goes last. *)
Definition set (k : string) (v : Value) (o : Obj) : Obj :=
  if has o k
  then map (fun e => if String.eqb (fst e) k then (k, v) else e) o
  else o ++ [(k, v)].

(** [delete o[k]] *)
Definition remove (k : string) (o : Obj) : Obj :=
  List.filter (fun e => negb (String.eqb (fst e) k)) o.

(** [Object.keys(o)] *)
Definition keys (o : Obj) : list string := map fst o.

(** [{ ...o, ...patch }] on top of [o]: every entry of [patch] is assigned
    in order. *)
Definition assign (o patch : Obj) : Obj :=
  fold_left (fun acc e => set (fst e) (snd e) acc) patch o.

(** Truthiness, as used by [||], [&&] and [if]. *)
Definition truthy (v : Value) : bool :=
  match v with
  | JNull => false
  | JBool b => b
  | JNum n => negb (Z.eqb n 0)
  | JStr s => negb (String.eqb s "")
  | JArr _ | JObj _ => true
  end.

Definition joinWith (sep : string) (l : list string) : string :=
  match l with
  | [] => ""
  | x :: xs => fold_left (fun acc y => acc +:+ sep +:+ y) xs x
  end.

(** [String(v)], the conversion applied by template literals and by
    property keys. A number is an integer of magnitude below 2^53, which
    [String] renders in plain decimal notation (the exponent notation
    starts at 10^21); numbers with a fractional part are outside the
    values modelled. Inside [Array.prototype.join] a [null] element is
    rendered as the empty string. *)
Fixpoint toString (v : Value) : string :=
  match v with
  | JNull => "null"
  | JBool true => "true"
  | JBool false => "false"
  | JNum n => pretty n
  | JStr s => s
  | JArr items =>
      joinWith ","
        (map (fun x => match x with JNull => "" | _ => toString x end) items)
  | JObj _ => "[object Object]"
  end.

(** Element [key] of an array-like list: [key] must be the canonical
    decimal rendering of an index in range. *)
Fixpoint atIndex {A : Type} (i : nat) (l : list A) (key : string) : option A :=
  match l with
  | [] => None
  | x :: l' => if String.eqb (pretty i) key then Some x else atIndex (S i) l' key
  end.

Fixpoint chars (s : string) : list Value :=
  match s with
  | EmptyString => []
  | String c s' => JStr (String c EmptyString) :: chars s'
  end.

(** [v[key]] for an arbitrary value [v]: reading a property of [null]
    raises a TypeError; primitives and arrays expose [length] and their
    indices where they have them. *)
Definition getProp (v : Value) (key : string) : Completion (option Value) :=
  match v with
  | JNull => TypeError
  | JObj props => Normal (get props key)
  | JArr items =>
      if String.eqb key "length" then Normal (Some (JNum (Z.of_nat (length items))))
      else Normal (atIndex 0 items key)
  | JStr s =>
      if String.eqb key "length" then Normal (Some (JNum (Z.of_nat (String.length s))))
      else Normal (atIndex 0 (chars s) key)
  | JNum _ | JBool _ => Normal None
  end.

(** [=== undefined || === null] *)
Definition nullish (v : option Value) : bool :=
  match v with
  | None | Some JNull => true
  | _ => false
  end.

(** [=== undefined || === null || === ''] *)
Definition blank (v : option Value) : bool :=
  match v with
  | None | Some JNull => true
  | Some (JStr s) => String.eqb s ""
  | _ => false
  end.

(** Structural equality. Within [migrateDocument] the operands of [!==]
    are either the very same reference (a key copied by the spread and not
    reassigned) or one of them is [undefined]/[null]; on those operands
    strict identity and structural equality agree. *)
Fixpoint eqb (a b : Value) {struct a} : bool :=
  match a, b with
  | JNull, JNull => true
  | JBool x, JBool y => Bool.eqb x y
  | JNum x, JNum y => Z.eqb x y
  | JStr x, JStr y => String.eqb x y
  | JArr xs, JArr ys =>
      (fix go (l1 l2 : list Value) {struct l1} : bool :=
         match l1, l2 with
         | [], [] => true
         | x :: l1', y :: l2' => eqb x y && go l1' l2'
         | _, _ => false
         end) xs ys
  | JObj xs, JObj ys =>
      (fix go (l1 l2 : list (string * Value)) {struct l1} : bool :=
         match l1, l2 with
         | [], [] => true
         | (k1, x) :: l1', (k2, y) :: l2' => String.eqb k1 k2 && eqb x y && go l1' l2'
         | _, _ => false
         end) xs ys
  | _, _ => false
  end.

(** [a !== b] on property reads. *)
Definition strictNeq (a b : option Value) : bool :=
  match a, b with
  | None, None => false
  | Some x, Some y => negb (eqb x y)
  | _, _ => true
  end.

(** The names of the properties of [Object.prototype], which every plain
    object inherits. All are built-in functions but [__proto__], an
    accessor whose getter returns the prototype and whose setter ignores a
    value that is no object. *)
Definition objectPrototype : list string :=
  [ "constructor"; "__defineGetter__"; "__defineSetter__"; "hasOwnProperty";
    "__lookupGetter__"; "__lookupSetter__"; "isPrototypeOf"; "propertyIsEnumerable";
    "toString"; "valueOf"; "__proto__"; "toLocaleString" ].

(** [key in {}] *)
Definition inherited (key : string) : bool := existsb (String.eqb key) objectPrototype.

(** The name of the built-in function that [{}[key]] is: [Object] for
    [constructor], the key itself for the other functions. *)
Definition builtin (key : string) : option string :=
  if String.eqb key "__proto__" then None
  else if String.eqb key "constructor" then Some "Object"
  else if inherited key then Some key
  else None.

(** [String(f)] for a built-in function [f], as Node.js renders it. *)
Definition nativeText (name : string) : string :=
  "function " +:+ name +:+ "() { [native code] }".

(** [o.hasOwnProperty(k)] as the code writes it, a method call on the
    object itself: when [o] has an own property called [hasOwnProperty] the
    call finds that property instead of the inherited method, and raises,
    since no value of a JSON body can be called. *)
Definition hasOwnProperty (o : Obj) (k : string) : Completion bool :=
  if has o "hasOwnProperty" then TypeError else Normal (has o k).

(** The value of a decimal digit. *)
Definition digit (c : Ascii.ascii) : option N :=
  let n := Ascii.N_of_ascii c in
  if (48 <=? n)%N && (n <=? 57)%N then Some (n - 48)%N else None.

Fixpoint digits (s : string) (acc : N) : option N :=
  match s with
  | EmptyString => Some acc
  | String c s' =>
      match digit c with
      | Some d => digits s' (10 * acc + d)%N
      | None => None
      end
  end.

(** A property key that is an array index: the canonical decimal
    rendering of an integer below 2^32 - 1. *)
Definition arrayIndex (key : string) : option N :=
  match key with
  | EmptyString => None
  | String c _ =>
      match digits key 0 with
      | Some n =>
          if (String.eqb key "0" || negb (N.eqb (Ascii.N_of_ascii c) 48)) && (n <? 4294967295)%N
          then Some n else None
      | None => None
      end
  end.

End JS.

Import JS.

(* ===================================================================== *)
(** ** Schema definitions                                                 *)
(* ===================================================================== *)

(** The [type] tag of a field descriptor. [TOther] stands for any tag the
    engine has no case for. *)
Inductive FieldType : Type :=
| TString | TText | TNumber | TBoolean | TArray | TObject
| TReference | TFile | TTimestamp | TSelect
| TOther (tag : string).

(** The [validation] object of a field. *)
Record Validation : Type := {
  minLength : option Z;
  maxLength : option Z;
  pattern : option string;
  vmin : option Z;
  vmax : option Z;
  minItems : option Z;
  maxItems : option Z
}.

(** An entry of a nested field map ([field.schema]). *)
Record SubField : Type := {
  sf_type : FieldType;
  sf_required : bool;
  sf_min : option Z;
  sf_max : option Z
}.

Definition SubSchema : Type := list (string * SubField).

(** A field descriptor; only the attributes the engine reads are kept.
    [f_editable = Some false] is [editable: false]; [f_default = None] is
    an undeclared default; [f_options] lists the [value]s of the options. *)
Record Field : Type := {
  f_name : string;
  f_type : FieldType;
  f_required : bool;
  f_generated : bool;
  f_editable : option bool;
  f_validation : option Validation;
  f_default : option Value;
  f_options : option (list string);
  f_itemType : option string;
  f_schema : option SubSchema
}.

Record SchemaSection : Type := {
  sec_name : string;
  sec_fields : list Field
}.

(** A schema definition. An absent [sections], [fields] or [listFields]
    is the empty list: the engine only ever concatenates them. *)
Record Schema : Type := {
  s_type : string;
  s_version : string;
  s_collection : string;
  s_sections : list SchemaSection;
  s_fields : list Field;
  s_listFields : list Field
}.

Module Build.

Definition noValidation : Validation :=
  {| minLength := None; maxLength := None; pattern := None;
     vmin := None; vmax := None; minItems := None; maxItems := None |}.

Definition lengths (lo hi : option Z) : Validation :=
  {| minLength := lo; maxLength := hi; pattern := None;
     vmin := None; vmax := None; minItems := None; maxItems := None |}.

Definition lengthsPattern (lo hi : option Z) (p : string) : Validation :=
  {| minLength := lo; maxLength := hi; pattern := Some p;
     vmin := None; vmax := None; minItems := None; maxItems := None |}.

Definition range (lo hi : option Z) : Validation :=
  {| minLength := None; maxLength := None; pattern := None;
     vmin := lo; vmax := hi; minItems := None; maxItems := None |}.

(** [{ name, type, required }] *)
Definition plain (n : string) (t : FieldType) (r : bool) : Field :=
  {| f_name := n; f_type := t; f_required := r; f_generated := false;
     f_editable := None; f_validation := None; f_default := None;
     f_options := None; f_itemType := None; f_schema := None |}.

(** [{ name, type, required, validation }] *)
Definition checked (n : string) (t : FieldType) (r : bool) (v : Validation) : Field :=
  {| f_name := n; f_type := t; f_required := r; f_generated := false;
     f_editable := None; f_validation := Some v; f_default := None;
     f_options := None; f_itemType := None; f_schema := None |}.

(** [{ name, type, required, generated: true, editable: false }] *)
Definition server (n : string) (t : FieldType) (r : bool) : Field :=
  {| f_name := n; f_type := t; f_required := r; f_generated := true;
     f_editable := Some false; f_validation := None; f_default := None;
     f_options := None; f_itemType := None; f_schema := None |}.

(** [{ name, type: 'select', required, default?, options }] *)
Definition select (n : string) (r : bool) (d : option Value) (opts : list string) : Field :=
  {| f_name := n; f_type := TSelect; f_required := r; f_generated := false;
     f_editable := None; f_validation := None; f_default := d;
     f_options := Some opts; f_itemType := None; f_schema := None |}.

(** [{ name, type, required, itemType?, schema? }] *)
Definition nested (n : string) (t : FieldType) (r : bool)
    (it : option string) (sub : option SubSchema) : Field :=
  {| f_name := n; f_type := t; f_required := r; f_generated := false;
     f_editable := None; f_validation := None; f_default := None;
     f_options := None; f_itemType := it; f_schema := sub |}.

Definition sub (t : FieldType) (r : bool) : SubField :=
  {| sf_type := t; sf_required := r; sf_min := None; sf_max := None |}.

(** A slider entry: [{ type: 'number', min: 0, max: 100, default: 50 }];
    [required] is not declared. *)
Definition slider : SubField :=
  {| sf_type := TNumber; sf_required := false; sf_min := Some 0%Z; sf_max := Some 100%Z |}.

End Build.

(* ===================================================================== *)
(** ** The schema tables                                                  *)
(* ===================================================================== *)

Module Tables.
Import Build.

Definition personalitySliders : SubSchema :=
  [ ("introvertExtrovert", slider); ("criticalCompassionate", slider);
    ("spontaneousOrganized", slider); ("sensitiveCalm", slider);
    ("conventionalImaginative", slider) ].

Definition speakingStyleSliders : SubSchema :=
  [ ("bluntEmpathic", slider); ("formalCasual", slider);
    ("elaborateConcise", slider); ("seriousPlayful", slider);
    ("passiveAssertive", slider) ].

(** [character.schema.js] *)
Definition characterSchema : Schema :=
  {| s_type := "character";
     s_version := "1.0";
     s_collection := "characters";
     s_sections :=
       [ {| sec_name := "background";
            sec_fields :=
              [ plain "image" TFile false;
                checked "name" TString true (lengths (Some 1%Z) (Some 200%Z));
                checked "age" TNumber false (range (Some 0%Z) (Some 200%Z));
                checked "occupation" TString false (lengths None (Some 200%Z));
                checked "gender" TString false (lengths None (Some 100%Z));
                checked "background" TText false (lengths None (Some 5000%Z)) ] |};
         {| sec_name := "behaviour";
            sec_fields :=
              [ checked "ambitions" TText false (lengths None (Some 2000%Z));
                checked "generalBehaviour" TText false (lengths None (Some 2000%Z)) ] |};
         {| sec_name := "personality";
            sec_fields :=
              [ select "personalityPreset" false None [];
                nested "personalitySliders" TObject false None (Some personalitySliders);
                checked "personalityTraits" TText false (lengths None (Some 2000%Z)) ] |};
         {| sec_name := "languageAndSpeech";
            sec_fields :=
              [ select "voiceId" true None [];
                select "speakingStylePreset" false None [];
                nested "speakingStyleSliders" TObject false None (Some speakingStyleSliders);
                checked "speakingStyleNotes" TText false (lengths None (Some 2000%Z)) ] |};
         {| sec_name := "characterBuilder"; sec_fields := [] |};
         {| sec_name := "knowledgeBank";
            sec_fields :=
              [ checked "knowledge" TText false (lengths None (Some 10000%Z));
                nested "knowledgeFiles" TArray false (Some "file") None ] |} ];
     s_fields := [];
     s_listFields :=
       [ server "id" TString true;
         plain "name" TString true;
         checked "description" TText false (lengths None (Some 500%Z));
         plain "voiceId" TString true;
         select "status" true (Some (JStr "draft")) ["draft"; "active"; "archived"];
         server "companyId" TString true;
         server "createdBy" TString true;
         server "createdAt" TTimestamp true;
         server "updatedAt" TTimestamp true;
         server "updatedBy" TString false ] |}.

Definition roleSchema : SubSchema :=
  [ ("roleId", sub TString true);
    ("rolePreset", sub TSelect false);
    ("roleDescription", sub TText false) ].

(** [dialogue.schema.js] *)
Definition dialogueSchema : Schema :=
  {| s_type := "dialogue";
     s_version := "1.0";
     s_collection := "dialogues";
     s_sections :=
       [ {| sec_name := "purpose";
            sec_fields :=
              [ checked "name" TString true (lengths (Some 1%Z) (Some 200%Z));
                checked "description" TText false (lengths None (Some 1000%Z));
                select "purposePreset" false None
                  [ "correct_feedback"; "incorrect_feedback"; "descriptive_feedback";
                    "evaluative_feedback"; "suggestive_feedback"; "incomplete_feedback";
                    "right_wrong_feedback"; "percentage_feedback" ];
                checked "dialogueContext" TText false (lengths None (Some 3000%Z));
                checked "dialoguePurpose" TText false (lengths None (Some 3000%Z)) ] |};
         {| sec_name := "characterRoles";
            sec_fields :=
              [ nested "roles" TArray false (Some "object") (Some roleSchema) ] |};
         {| sec_name := "feedback";
            sec_fields :=
              [ checked "feedbackDescription" TText false (lengths None (Some 2000%Z));
                select "feedbackStyle" false None
                  [ "immediate"; "delayed"; "progressive"; "summary" ] ] |} ];
     s_fields := [];
     s_listFields :=
       [ server "id" TString true;
         plain "name" TString true;
         plain "description" TText false;
         server "companyId" TString true;
         server "createdBy" TString true;
         server "createdAt" TTimestamp true;
         server "updatedAt" TTimestamp true;
         server "updatedBy" TString false ] |}.

(** [environment.schema.js] *)
Definition environmentSchema : Schema :=
  {| s_type := "environment";
     s_version := "1.0";
     s_collection := "environments";
     s_sections :=
       [ {| sec_name := "generalInfo";
            sec_fields :=
              [ plain "image" TFile false;
                checked "name" TString true (lengths (Some 1%Z) (Some 200%Z));
                checked "referenceId" TString true
                  (lengthsPattern (Some 1%Z) (Some 100%Z) "^[a-zA-Z0-9_-]+$");
                checked "season" TString false (lengths None (Some 100%Z));
                select "environmentType" false None
                  [ "indoor"; "outdoor"; "virtual"; "mixed"; "urban"; "rural";
                    "natural"; "industrial"; "residential"; "commercial" ];
                checked "description" TText false (lengths None (Some 3000%Z)) ] |} ];
     s_fields := [];
     s_listFields :=
       [ server "id" TString true;
         plain "name" TString true;
         plain "description" TText false;
         server "companyId" TString true;
         server "createdBy" TString true;
         server "createdAt" TTimestamp true;
         server "updatedAt" TTimestamp true;
         server "updatedBy" TString false ] |}.

End Tables.

(* ===================================================================== *)
(** ** The registry ([src/schemas/index.js])                              *)
(* ===================================================================== *)

Module Registry.
Import Tables.

Section WithScenario.

(** [scenario.schema.js] is required by the registry but its table is not
    among the sources; the registry is parameterised by it. *)
Variable scenarioSchema : Schema.

Definition schemas : list (string * Schema) :=
  [ ("scenario", scenarioSchema);
    ("character", characterSchema);
    ("dialogue", dialogueSchema);
    ("environment", environmentSchema) ].

Fixpoint lookup (l : list (string * Schema)) (type : string) : option Schema :=
  match l with
  | [] => None
  | (k, s) :: l' => if String.eqb k type then Some s else lookup l' type
  end.

(** [schemas[type] || null] for a [type] that is not the name of a member
    of [Object.prototype]: the schema registered under that key, or [None]
    for [null]. For [constructor], [toString] and the other names of
    [JS.objectPrototype] the expression finds the inherited member, which
    is no schema; statements about a type without a schema are made for
    [JS.inherited type = false]. *)
Definition getSchema (type : string) : option Schema := lookup schemas type.

Definition getSchemaTypes : list string := map fst schemas.

(** [schemas.hasOwnProperty(type)] *)
Definition isValidType (type : string) : bool :=
  existsb (fun e => String.eqb (fst e) type) schemas.

End WithScenario.

End Registry.

(* ===================================================================== *)
(** ** Validator and sanitizer ([src/utils/validator.js])                 *)
(* ===================================================================== *)

Record ValidationResult : Type := {
  valid : bool;
  errors : list string;
  warnings : list string
}.

Module Validator.
Import Registry.

(** [allFields] before de-duplication: the fields of every section, then
    [schema.fields], then [schema.listFields]. *)
Definition collect (schema : Schema) : list Field :=
  concat (map sec_fields (s_sections schema)) ++ s_fields schema ++ s_listFields schema.

(** [if (!fieldMap.has(field.name)) fieldMap.set(field.name, field)] *)
Definition fieldMapAdd (m : list (string * Field)) (field : Field) : list (string * Field) :=
  if existsb (fun e => String.eqb (fst e) (f_name field)) m
  then m
  else m ++ [(f_name field, field)].

(** [Array.from(fieldMap.values())] *)
Definition flatten (schema : Schema) : list Field :=
  map snd (fold_left fieldMapAdd (collect schema) []).

(** [field.editable === false] *)
Definition editableFalse (field : Field) : bool :=
  match f_editable field with
  | Some false => true
  | _ => false
  end.

(** The test of [sanitizeData]: [field.editable === false || field.generated]. *)
Definition stripped (field : Field) : bool := editableFalse field || f_generated field.

(** The descriptor with [required] switched off. *)
Definition optional (field : Field) : Field :=
  {| f_name := f_name field; f_type := f_type field; f_required := false;
     f_generated := f_generated field; f_editable := f_editable field;
     f_validation := f_validation field; f_default := f_default field;
     f_options := f_options field; f_itemType := f_itemType field;
     f_schema := f_schema field |}.


(** A [forEach] whose callback may raise: the errors pushed by each call,
    in order, unless one of the calls raises. *)
Fixpoint gather {A : Type} (f : A -> Completion (list string)) (l : list A)
  : Completion (list string) :=
  match l with
  | [] => Normal []
  | x :: l' =>
      match f x with
      | TypeError => TypeError
      | Normal e =>
          match gather f l' with
          | TypeError => TypeError
          | Normal es => Normal (e ++ es)
          end
      end
  end.

(** [value.length], the number of UTF-16 code units of the string: each
    character of the Rocq string stands for one code unit, so text outside
    Latin-1 is outside the strings modelled. *)
Definition lenZ (s : string) : Z := Z.of_nat (String.length s).

Definition q (fieldName : string) : string := "Field '" +:+ fieldName +:+ "'".

(** [bound && test]: a bound of [0] is falsy and disables the check. *)
Definition whenTruthy (bound : option Z) (test : Z -> bool) (msg : Z -> string) : list string :=
  match bound with
  | Some b => if negb (Z.eqb b 0) && test b then [msg b] else []
  | None => []
  end.

(** [bound !== undefined && test] *)
Definition whenDefined (bound : option Z) (test : Z -> bool) (msg : Z -> string) : list string :=
  match bound with
  | Some b => if test b then [msg b] else []
  | None => []
  end.

(** The body of the [forEach] of [validateObjectAgainstSchema]. *)
Definition validateEntry (obj : Value) (fieldPrefix : string) (entry : string * SubField)
  : Completion (list string) :=
  let key := fst entry in
  let fieldDef := snd entry in
  match getProp obj key with
  | TypeError => TypeError
  | Normal value =>
      let fullFieldName :=
        if negb (String.eqb fieldPrefix "") then fieldPrefix +:+ "." +:+ key else key in
      if sf_required fieldDef && blank value then
        Normal [q fullFieldName +:+ " is required"]
      else
        match value with
        | None | Some JNull => Normal []
        | Some v =>
            match sf_type fieldDef with
            | TString =>
                match v with
                | JStr _ => Normal []
                | _ => Normal [q fullFieldName +:+ " must be a string"]
                end
            | TNumber =>
                match v with
                | JNum n =>
                    Normal
                      (whenDefined (sf_min fieldDef) (fun b => Z.ltb n b)
                         (fun b => q fullFieldName +:+ " must be at least " +:+ pretty b)
                       ++ whenDefined (sf_max fieldDef) (fun b => Z.gtb n b)
                         (fun b => q fullFieldName +:+ " must be at most " +:+ pretty b))
                | _ => Normal [q fullFieldName +:+ " must be a number"]
                end
            | TBoolean =>
                match v with
                | JBool _ => Normal []
                | _ => Normal [q fullFieldName +:+ " must be a boolean"]
                end
            | TReference =>
                match v with
                | JStr _ => Normal []
                | _ => Normal [q fullFieldName +:+ " must be a string (reference ID)"]
                end
            | _ => Normal []
            end
        end
  end.

Definition validateObjectAgainstSchema (obj : Value) (schema : SubSchema) (fieldPrefix : string)
  : Completion (list string) :=
  gather (validateEntry obj fieldPrefix) schema.

Section WithEnvironment.

Variable scenarioSchema : Schema.

(** [new RegExp(pattern).test(value)], the host's regular expressions. *)
Variable regexTest : string -> string -> bool.

(** The type-specific part of the [forEach] body of [validateData], for a
    value that is neither [undefined] nor [null]. *)
Definition validateValue (field : Field) (v : Value) : Completion (list string) :=
  let fieldName := f_name field in
  match f_type field with
  | TString | TText =>
      match v with
      | JStr s =>
          match f_validation field with
          | Some vd =>
              Normal
                (whenTruthy (minLength vd) (fun b => Z.ltb (lenZ s) b)
                   (fun b => q fieldName +:+ " must be at least " +:+ pretty b +:+ " characters")
                 ++ whenTruthy (maxLength vd) (fun b => Z.gtb (lenZ s) b)
                   (fun b => q fieldName +:+ " must be at most " +:+ pretty b +:+ " characters")
                 ++ match pattern vd with
                    | Some p =>
                        if negb (String.eqb p "") && negb (regexTest p s)
                        then [q fieldName +:+ " does not match required pattern"]
                        else []
                    | None => []
                    end)
          | None => Normal []
          end
      | _ => Normal [q fieldName +:+ " must be a string"]
      end
  | TNumber =>
      match v with
      | JNum n =>
          match f_validation field with
          | Some vd =>
              Normal
                (whenDefined (vmin vd) (fun b => Z.ltb n b)
                   (fun b => q fieldName +:+ " must be at least " +:+ pretty b)
                 ++ whenDefined (vmax vd) (fun b => Z.gtb n b)
                   (fun b => q fieldName +:+ " must be at most " +:+ pretty b))
          | None => Normal []
          end
      | _ => Normal [q fieldName +:+ " must be a number"]
      end
  | TBoolean =>
      match v with
      | JBool _ => Normal []
      | _ => Normal [q fieldName +:+ " must be a boolean"]
      end
  | TArray =>
      let sizeErrors :=
        match v with
        | JArr items =>
            match f_validation field with
            | Some vd =>
                whenTruthy (minItems vd) (fun b => Z.ltb (Z.of_nat (length items)) b)
                  (fun b => q fieldName +:+ " must have at least " +:+ pretty b +:+ " items")
                ++ whenTruthy (maxItems vd) (fun b => Z.gtb (Z.of_nat (length items)) b)
                  (fun b => q fieldName +:+ " must have at most " +:+ pretty b +:+ " items")
            | None => []
            end
        | _ => [q fieldName +:+ " must be an array"]
        end in
      match v, f_itemType field, f_schema field with
      | JArr items, Some itemType, Some sub =>
          if String.eqb itemType "object" then
            match
              gather
                (fun p : nat * Value =>
                   validateObjectAgainstSchema (snd p) sub
                     (fieldName +:+ "[" +:+ pretty (fst p) +:+ "]"))
                (combine (seq 0 (length items)) items)
            with
            | TypeError => TypeError
            | Normal itemErrors => Normal (sizeErrors ++ itemErrors)
            end
          else Normal sizeErrors
      | _, _, _ => Normal sizeErrors
      end
  | TObject =>
      match v with
      | JObj _ =>
          match f_schema field with
          | Some sub => validateObjectAgainstSchema v sub fieldName
          | None => Normal []
          end
      | _ => Normal [q fieldName +:+ " must be an object"]
      end
  | TReference =>
      match v with
      | JStr _ => Normal []
      | _ => Normal [q fieldName +:+ " must be a string (reference ID)"]
      end
  | TFile => Normal []
  | TTimestamp => Normal []
  | TSelect =>
      match f_options field with
      | Some (o :: os) =>
          let validValues := o :: os in
          let included :=
            match v with
            | JStr s => existsb (String.eqb s) validValues
            | _ => false
            end in
          if included then Normal []
          else Normal [q fieldName +:+ " must be one of: " +:+ joinWith ", " validValues]
      | _ => Normal []
      end
  | TOther _ => Normal []
  end.

(** The body of the [forEach] over [allFields] in [validateData]: the
    errors it pushes for one field. *)
Definition validateField (data : Obj) (isUpdate : bool) (field : Field)
  : Completion (list string) :=
  let value := get data (f_name field) in
  let fieldName := f_name field in
  if f_generated field && editableFalse field then Normal []
  else if f_required field && blank value then
    if isUpdate then
      match hasOwnProperty data (f_name field) with
      | TypeError => TypeError
      | Normal true => Normal [q fieldName +:+ " is required and cannot be set to empty"]
      | Normal false => Normal []
      end
    else Normal [q fieldName +:+ " is required"]
  else
    match value with
    | None | Some JNull => Normal []
    | Some v => validateValue field v
    end.

(** The stale-version warning. [existingData] is [None] for [null]. *)
Definition versionWarnings (schema : Schema) (isUpdate : bool) (existingData : option Obj)
  : list string :=
  match existingData with
  | Some existing =>
      match get existing "schemaVersion" with
      | Some sv =>
          let differs :=
            match sv with
            | JStr s => negb (String.eqb s (s_version schema))
            | _ => true
            end in
          if isUpdate && truthy sv && differs then
            ["Document uses schema version " +:+ toString sv
             +:+ " but current version is " +:+ s_version schema
             +:+ ". Consider updating."]
          else []
      | None => []
      end
  | None => []
  end.

Definition validateData (type : string) (data : Obj) (isUpdate : bool)
    (existingData : option Obj) : Completion ValidationResult :=
  match getSchema scenarioSchema type with
  | None =>
      Normal {| valid := false;
                errors := ["Unknown schema type: " +:+ type];
                warnings := [] |}
  | Some schema =>
      let allFields := flatten schema in
      let warnings := versionWarnings schema isUpdate existingData in
      match gather (validateField data isUpdate) allFields with
      | TypeError => TypeError
      | Normal errs =>
          Normal {| valid := Nat.eqb (length errs) 0;
                    errors := errs;
                    warnings := warnings |}
      end
  end.

(** [sanitizeData]: a copy of the payload from which the key of every
    flattened field with [editable === false] or a truthy [generated] has
    been deleted; the payload itself when the type is unknown. *)
Definition sanitizeData (type : string) (data : Obj) : Obj :=
  match getSchema scenarioSchema type with
  | None => data
  | Some schema =>
      fold_left
        (fun sanitized field =>
           if stripped field
           then JS.remove (f_name field) sanitized
           else sanitized)
        (flatten schema) data
  end.

End WithEnvironment.

End Validator.

(* ===================================================================== *)
(** ** The document store                                                 *)
(* ===================================================================== *)

Module Firestore.

(** A query: a collection, an optional equality filter and an optional
    [limit]. *)
Record Query : Type := {
  q_collection : string;
  q_where : option (string * Value);
  q_limit : option nat
}.

(** The requests sent to the store. *)
Inductive Request : Type :=
| DocGet (coll id : string)
| DocUpdate (coll id : string) (patch : Obj)
| QueryGet (query : Query).

(** The store and the requests issued so far, oldest first. *)
Record World : Type := {
  docs : gmap string (gmap string Obj);
  log : list Request
}.

Definition issue (r : Request) (w : World) : World :=
  {| docs := docs w; log := log w ++ [r] |}.

(** [db.collection(coll).doc(id).get()]: [None] when [!doc.exists]. *)
Definition docGet (coll id : string) (w : World) : option Obj * World :=
  (match docs w !! coll with
   | Some c => c !! id
   | None => None
   end,
   issue (DocGet coll id) w).

(** [docRef.update(patch)] for a [patch] whose keys are names of top-level
    fields: its fields are written over the stored document. The store
    reads a key with a dot as a path into a nested field and refuses some
    keys; the keys [migrateDocument] sends are those of the stored
    document and of the schema, taken to be field names. The store rejects
    an update of a document that does not exist; [migrateDocument] only
    updates a document it has just read. *)
Definition docUpdate (coll id : string) (patch : Obj) (w : World) : World :=
  {| docs :=
       match docs w !! coll with
       | Some c =>
           match c !! id with
           | Some d => <[coll := <[id := assign d patch]> c]> (docs w)
           | None => docs w
           end
       | None => docs w
       end;
     log := log w ++ [DocUpdate coll id patch] |}.

Definition satisfies (cond : option (string * Value)) (d : Obj) : bool :=
  match cond with
  | Some (fieldPath, v) =>
      match get d fieldPath with
      | Some x => JS.eqb x v
      | None => false
      end
  | None => true
  end.

(** The store's default order: ascending document id. *)
Definition byId (a b : string * Obj) : Prop := Is_true (String.leb (fst a) (fst b)).

(** All documents of a collection, with their ids. *)
Definition documents (store : gmap string (gmap string Obj)) (coll : string)
  : list (string * Obj) :=
  match store !! coll with
  | Some c => merge_sort byId (map_to_list c)
  | None => []
  end.

(** The documents a query selects. *)
Definition select (query : Query) (store : gmap string (gmap string Obj))
  : list (string * Obj) :=
  let all := documents store (q_collection query) in
  let hits := List.filter (fun e => satisfies (q_where query) (snd e)) all in
  match q_limit query with
  | Some n => take n hits
  | None => hits
  end.

(** [query.get()]: the snapshot's [docs]. *)
Definition queryGet (query : Query) (w : World) : list (string * Obj) * World :=
  (select query (docs w), issue (QueryGet query) w).

(** [db.collection(coll)], then [.where('companyId', '==', companyId)] when
    [companyId] is truthy. No [limit] is set. *)
Definition collectionQuery (coll : string) (companyId : option string) : Query :=
  {| q_collection := coll;
     q_where :=
       match companyId with
       | Some c => if negb (String.eqb c "") then Some ("companyId", JStr c) else None
       | None => None
       end;
     q_limit := None |}.

Definition isQuery (r : Request) : bool :=
  match r with
  | QueryGet _ => true
  | _ => false
  end.

Definition isUpdate (r : Request) : bool :=
  match r with
  | DocUpdate _ _ _ => true
  | _ => false
  end.

End Firestore.

(* ===================================================================== *)
(** ** Migration engine ([src/utils/migrations.js])                       *)
(* ===================================================================== *)

(** The result of [applyDefaults]. *)
Record Defaulted : Type := {
  updated : Obj;
  modified : bool
}.

(** The four shapes of the object returned by [migrateDocument]. *)
Inductive MigrationReport : Type :=
| Failed (error : string)
| AlreadyCurrent (version : Value)
| VersionOnly (from : Value) (to : string) (dryRun : bool)
| Migrated (from : Value) (to : string) (changes : list string) (dryRun : bool).

Definition success (r : MigrationReport) : bool :=
  match r with
  | Failed _ => false
  | _ => true
  end.

(** The report with its [dryRun] property set to [flag]. *)
Definition withDryRun (flag : bool) (r : MigrationReport) : MigrationReport :=
  match r with
  | VersionOnly from to _ => VersionOnly from to flag
  | Migrated from to changes _ => Migrated from to changes flag
  | _ => r
  end.

Definition message (r : MigrationReport) : option string :=
  match r with
  | Failed _ => None
  | AlreadyCurrent _ => Some "Already at latest version"
  | VersionOnly _ _ _ => Some "Version updated (no data changes needed)"
  | Migrated _ _ _ _ => Some "Document migrated successfully"
  end.

(** One element of [results] in [migrateCollection]:
    [{ id: doc.id, name: doc.data().name, ...result }]. *)
Record Row : Type := {
  row_id : string;
  row_name : option Value;
  row_result : MigrationReport
}.

Record CollectionReport : Type := {
  c_success : bool;
  c_total : nat;
  c_successful : nat;
  c_failed : nat;
  c_results : list Row
}.

(** What [getMigrationStatus] holds under a key of [versions]: a number,
    or the string that [+ 1] makes of a member inherited from
    [Object.prototype]. *)
Inductive Count : Type :=
| Num (n : nat)
| Text (s : string).

Record StatusReport : Type := {
  st_collection : string;
  currentSchemaVersion : string;
  totalDocuments : nat;
  versionBreakdown : list (string * Count);
  needsMigration : bool;
  outdatedCount : Count
}.

Module Migration.
Import Registry Validator Firestore.

(** The empty value assigned to a missing required field, by [type]. *)
Definition placeholder (t : FieldType) : option Value :=
  match t with
  | TString | TText => Some (JStr "")
  | TNumber => Some (JNum 0)
  | TBoolean => Some (JBool false)
  | TArray => Some (JArr [])
  | TObject => Some (JObj [])
  | _ => None
  end.

(** The body of the [forEach] of [applyDefaults]. Both tests read [data],
    the document as it was passed in. *)
Definition applyField (data : Obj) (acc : Defaulted) (field : Field) : Defaulted :=
  let missing := nullish (get data (f_name field)) in
  let acc1 :=
    match f_default field with
    | Some d =>
        if missing
        then {| updated := JS.set (f_name field) d (updated acc); modified := true |}
        else acc
    | None => acc
    end in
  if f_required field && missing then
    {| updated :=
         match placeholder (f_type field) with
         | Some v => JS.set (f_name field) v (updated acc1)
         | None => updated acc1
         end;
       modified := true |}
  else acc1.

(** [applyDefaults(data, schema)]; its [allFields] is not de-duplicated. *)
Definition applyDefaults (data : Obj) (schema : Schema) : Defaulted :=
  fold_left (applyField data) (collect schema) {| updated := data; modified := false |}.

(** The assignments one iteration of [applyDefaults] performs on
    [updated], in order. *)
Definition writesOf (data : Obj) (field : Field) : list (string * Value) :=
  let missing := nullish (get data (f_name field)) in
  match f_default field with
  | Some d => if missing then [(f_name field, d)] else []
  | None => []
  end
  ++ (if f_required field && missing then
        match placeholder (f_type field) with
        | Some v => [(f_name field, v)]
        | None => []
        end
      else []).

(** [s.slice(0, -1)] *)
Fixpoint dropLast (s : string) : string :=
  match s with
  | EmptyString => EmptyString
  | String c s' =>
      match s' with
      | EmptyString => EmptyString
      | _ => String c (dropLast s')
      end
  end.

(** [data.schemaVersion || '1.0'] *)
Definition stampedVersion (data : Obj) : Value :=
  match get data "schemaVersion" with
  | Some v => if truthy v then v else JStr "1.0"
  | None => JStr "1.0"
  end.

(** [Object.keys(updated).filter(key => updated[key] !== data[key])] *)
Definition changedKeys (upd data : Obj) : list string :=
  List.filter (fun key => strictNeq (get upd key) (get data key)) (keys upd).

(** The own property [k] of [versions]. *)
Fixpoint own (versions : list (string * Count)) (k : string) : option Count :=
  match versions with
  | [] => None
  | (k', c) :: rest => if String.eqb k' k then Some c else own rest k
  end.

(** What the expression [versions[k]] evaluates to. *)
Inductive Member : Type :=
| Own (c : Count)
| Builtin (name : string)
| Prototype
| Undefined.

(** [versions[k]]: the getter of [__proto__], an own property, a function
    inherited from [Object.prototype], or [undefined]. *)
Definition read (versions : list (string * Count)) (k : string) : Member :=
  if String.eqb k "__proto__" then Prototype
  else
    match own versions k with
    | Some c => Own c
    | None =>
        match builtin k with
        | Some name => Builtin name
        | None => Undefined
        end
    end.

(** [(m || 0) + 1]: a number is incremented; anything else that is truthy
    is turned into a string, to which ["1"] is appended. *)
Definition plusOne (m : Member) : Count :=
  match m with
  | Own (Num n) => Num (n + 1)
  | Own (Text s) => if String.eqb s "" then Num 1 else Text (s +:+ "1")
  | Builtin name => Text (nativeText name +:+ "1")
  | Prototype => Text "[object Object]1"
  | Undefined => Num 1
  end.

(** A new own property [k] whose key is the array index [i]: array indices
    come first in the order of the keys, in ascending order. *)
Fixpoint placeIndex (i : N) (k : string) (c : Count) (versions : list (string * Count))
  : list (string * Count) :=
  match versions with
  | [] => [(k, c)]
  | e :: rest =>
      match arrayIndex (fst e) with
      | Some j => if (j <? i)%N then e :: placeIndex i k c rest else (k, c) :: versions
      | None => (k, c) :: versions
      end
  end.

(** A new own property: after the array indices and the older keys. *)
Definition place (k : string) (c : Count) (versions : list (string * Count))
  : list (string * Count) :=
  match arrayIndex k with
  | Some i => placeIndex i k c versions
  | None => versions ++ [(k, c)]
  end.

(** [versions[k] = c]: the setter of [__proto__] ignores [c], which is no
    object; an own property keeps its place; a new one is created. *)
Definition write (k : string) (c : Count) (versions : list (string * Count))
  : list (string * Count) :=
  if String.eqb k "__proto__" then versions
  else if existsb (fun e => String.eqb (fst e) k) versions
  then map (fun e => if String.eqb (fst e) k then (fst e, c) else e) versions
  else place k c versions.

(** [sum + count] of the [reduce] of [outdatedCount]. *)
Definition plus (sum count : Count) : Count :=
  match sum, count with
  | Num a, Num b => Num (a + b)
  | Num a, Text t => Text (pretty a +:+ t)
  | Text s, Num b => Text (s +:+ pretty b)
  | Text s, Text t => Text (s +:+ t)
  end.

(** [Object.values(versions).reduce((sum, count) => sum + count, 0)] *)
Definition sumOf (versions : list (string * Count)) : Count :=
  fold_left (fun sum e => plus sum (snd e)) versions (Num 0).



Section WithEnvironment.

Variable scenarioSchema : Schema.

(** [new Date().toISOString()] when it is evaluated after [n] requests
    have been sent to the store. *)
Variable clock : nat -> string.

Definition now (w : World) : Value := JStr (clock (length (log w))).

Definition migrateDocument (collectionName docId : string) (dryRun : bool) (w : World)
  : MigrationReport * World :=
  let (doc, w1) := docGet collectionName docId w in
  match doc with
  | None => (Failed "Document not found", w1)
  | Some data =>
      match getSchema scenarioSchema (dropLast collectionName) with
      | None => (Failed "Schema not found", w1)
      | Some schema =>
          let currentVersion := stampedVersion data in
          let targetVersion := s_version schema in
          if JS.eqb currentVersion (JStr targetVersion) then
            (AlreadyCurrent currentVersion, w1)
          else
            let r := applyDefaults data schema in
            if negb (modified r) then
              (VersionOnly currentVersion targetVersion dryRun,
               if negb dryRun then
                 docUpdate collectionName docId
                   [("schemaVersion", JStr targetVersion); ("updatedAt", now w1)] w1
               else w1)
            else
              (Migrated currentVersion targetVersion (changedKeys (updated r) data) dryRun,
               if negb dryRun then
                 docUpdate collectionName docId
                   (assign (updated r)
                      [("schemaVersion", JStr targetVersion); ("updatedAt", now w1)]) w1
               else w1)
      end
  end.

(** The [for ... of snapshot.docs] loop of [migrateCollection]. *)
Fixpoint migrateEach (collectionName : string) (dryRun : bool)
    (snapshot : list (string * Obj)) (w : World) : list Row * World :=
  match snapshot with
  | [] => ([], w)
  | (id, data) :: rest =>
      let (result, w1) := migrateDocument collectionName id dryRun w in
      let (rows, w2) := migrateEach collectionName dryRun rest w1 in
      ({| row_id := id; row_name := get data "name"; row_result := result |} :: rows, w2)
  end.

Definition migrateCollection (collectionName : string) (companyId : option string)
    (dryRun : bool) (w : World) : CollectionReport * World :=
  let (snapshot, w1) := queryGet (collectionQuery collectionName companyId) w in
  let (results, w2) := migrateEach collectionName dryRun snapshot w1 in
  let successful := length (List.filter (fun r => success (row_result r)) results) in
  let failed := length (List.filter (fun r => negb (success (row_result r))) results) in
  ({| c_success := Nat.eqb failed 0;
      c_total := length results;
      c_successful := successful;
      c_failed := failed;
      c_results := results |}, w2).

(** [versions[version] = (versions[version] || 0) + 1] *)
Definition bump (versions : list (string * Count)) (version : string)
  : list (string * Count) :=
  write version (plusOne (read versions version)) versions.

(** The key under which a document is counted. *)
Definition versionKey (data : Obj) : string := toString (stampedVersion data).

(** [schema?.version || '1.0'] *)
Definition currentVersionOf (collectionName : string) : string :=
  match getSchema scenarioSchema (dropLast collectionName) with
  | Some schema => if String.eqb (s_version schema) "" then "1.0" else s_version schema
  | None => "1.0"
  end.

(** The report [getMigrationStatus] builds from a snapshot. *)
Definition statusOf (collectionName : string) (snapshot : list (string * Obj)) : StatusReport :=
  let currentVersion := currentVersionOf collectionName in
  let versions := fold_left (fun vs e => bump vs (versionKey (snd e))) snapshot [] in
  {| st_collection := collectionName;
     currentSchemaVersion := currentVersion;
     totalDocuments := length snapshot;
     versionBreakdown := versions;
     needsMigration :=
       existsb (fun v => negb (String.eqb v currentVersion)) (map fst versions);
     outdatedCount :=
       fold_left (fun sum e => plus sum (snd e))
         (List.filter (fun e => negb (String.eqb (fst e) currentVersion)) versions)
         (Num 0) |}.

Definition getMigrationStatus (collectionName : string) (companyId : option string)
    (w : World) : StatusReport * World :=
  let (snapshot, w1) := queryGet (collectionQuery collectionName companyId) w in
  (statusOf collectionName snapshot, w1).

End WithEnvironment.

End Migration.

(* ===================================================================== *)
(** ** Concrete instances                                                 *)
(* ===================================================================== *)

Module Examples.
Import Firestore Build.

(** An instance of the scenario table with no fields, to run the registry
    on concrete inputs. *)
Definition bareScenario : Schema :=
  {| s_type := "scenario"; s_version := "1.0"; s_collection := "scenarios";
     s_sections := []; s_fields := []; s_listFields := [] |}.

(** A host regular-expression engine that accepts everything. *)
Definition anyMatch (p s : string) : bool := true.

Definition fixedClock (n : nat) : string := "2025-01-01T00:00:00.000Z".

(** "Example 2: Add Required Field with Default" of
    [SCHEMA_EVOLUTION_GUIDE.md]: [{ name: 'status', type: 'string',
    required: true, default: 'draft', options: [...] }], at version 1.1. *)
Definition guideSchema : Schema :=
  {| s_type := "character"; s_version := "1.1"; s_collection := "characters";
     s_sections := []; s_fields := [];
     s_listFields :=
       [ plain "name" TString true;
         {| f_name := "status"; f_type := TString; f_required := true;
            f_generated := false; f_editable := None; f_validation := None;
            f_default := Some (JStr "draft");
            f_options := Some ["draft"; "active"];
            f_itemType := None; f_schema := None |} ] |}.

(** A scenario table with a server field called [hasOwnProperty]. *)
Definition shadowingSchema : Schema :=
  {| s_type := "scenario"; s_version := "1.0"; s_collection := "scenarios";
     s_sections := []; s_fields := [];
     s_listFields := [ server "hasOwnProperty" TString true; plain "name" TString true ] |}.

(** An instance of the scenario table at version 1.1 that declares a
    required [status] select with default ['draft'], as in the first
    concrete scenario of the specification. *)
Definition scenarioV11 : Schema :=
  {| s_type := "scenario"; s_version := "1.1"; s_collection := "scenarios";
     s_sections := []; s_fields := [];
     s_listFields :=
       [ plain "name" TString true;
         select "status" true (Some (JStr "draft")) ["draft"; "active"; "archived"] ] |}.

(** A store with three scenarios: one never stamped, one stamped 1.0 and
    one stamped 1.1. *)
Definition sampleWorld : World :=
  {| docs :=
       <["scenarios" :=
          <["s1" := [("name", JStr "Intro")]]>
          (<["s2" := [("name", JStr "Outro"); ("status", JStr "active");
                      ("schemaVersion", JStr "1.0")]]>
          (<["s3" := [("name", JStr "Coda"); ("status", JStr "draft");
                      ("schemaVersion", JStr "1.1")]]> ∅))]> ∅;
     log := [] |}.

(** A store with one document in a collection no schema is registered
    for. *)
Definition strayWorld : World :=
  {| docs := <["widgets" := <["w1" := [("name", JStr "Cog")]]> ∅]> ∅;
     log := [] |}.

End Examples.

(* ===================================================================== *)
(** ** Document references, at the level of the store                     *)
(* ===================================================================== *)

Module Db.

(** [docRef.get()]: the stored data, [None] when [!doc.exists]. *)
Definition docRead (store : gmap string (gmap string Obj)) (coll id : string) : option Obj :=
  match store !! coll with
  | Some c => c !! id
  | None => None
  end.

(** [docRef.set(data)]: creates the document or replaces it whole. *)
Definition docSet (coll id : string) (data : Obj) (store : gmap string (gmap string Obj))
  : gmap string (gmap string Obj) :=
  <[coll := <[id := data]> (match store !! coll with Some c => c | None => ∅ end)]> store.

(** [docRef.update(patch)] on a document that exists, as
    [Firestore.docUpdate]: for a [patch] whose keys are names of top-level
    fields ([Notions.plainKey]). *)
Definition docMerge (coll id : string) (patch : Obj) (store : gmap string (gmap string Obj))
  : gmap string (gmap string Obj) :=
  match store !! coll with
  | Some c =>
      match c !! id with
      | Some d => <[coll := <[id := assign d patch]> c]> store
      | None => store
      end
  | None => store
  end.

(** [docRef.delete()] *)
Definition docErase (coll id : string) (store : gmap string (gmap string Obj))
  : gmap string (gmap string Obj) :=
  match store !! coll with
  | Some c => <[coll := delete id c]> store
  | None => store
  end.

End Db.

(* ===================================================================== *)
(** ** The CRUD service ([src/services/firestore.js])                     *)
(* ===================================================================== *)

(** The object a service call resolves to: [{ success: true, data }],
    [{ success: true, message }] or [{ success: false, error }]. *)
Inductive ServiceResult : Type :=
| Succeeded (data : Obj)
| Acknowledged (message : string)
| Rejected (error : string).

Definition succeeded (r : ServiceResult) : bool :=
  match r with
  | Rejected _ => false
  | _ => true
  end.

Module Service.
Import Registry Validator Firestore Migration Tables.
Import Db.

(** [data.companyId !== companyId] is false. *)
Definition ownedBy (data : Obj) (companyId : string) : bool :=
  match get data "companyId" with
  | Some (JStr c) => String.eqb c companyId
  | _ => false
  end.

(** [a || 'Unnamed'] on a property read. *)
Definition orUnnamed (name : option Value) : Value :=
  match name with
  | Some v => if truthy v then v else JStr "Unnamed"
  | None => JStr "Unnamed"
  end.

(** The object literal handed to [trackActivity]. *)
Definition activity (type entityType entityId : string) (entityName : Value)
    (userId companyId timestamp : string) : Obj :=
  [ ("type", JStr type); ("entityType", JStr entityType); ("entityId", JStr entityId);
    ("entityName", entityName); ("userId", JStr userId); ("companyId", JStr companyId);
    ("timestamp", JStr timestamp) ].

(** [trackActivity]: [activityId] is the identifier [uuidv4()] returns. *)
Definition trackActivity (activityId : string) (entry : Obj)
    (store : gmap string (gmap string Obj)) : gmap string (gmap string Obj) :=
  docSet "activities" activityId (assign [("id", JStr activityId)] entry) store.

Definition getById (collectionName id companyId : string)
    (store : gmap string (gmap string Obj)) : ServiceResult :=
  match docRead store collectionName id with
  | None => Rejected "Document not found"
  | Some data =>
      if negb (ownedBy data companyId)
      then Rejected "Unauthorized: Document belongs to another company"
      else Succeeded (assign [("id", JStr id)] data)
  end.

Section WithRegistry.

Variable scenarioSchema : Schema.

(** [create]: [id] and [activityId] are the identifiers the two calls of
    [uuidv4()] return, [now] is [new Date().toISOString()]. *)
Definition create (collectionName : string) (data : Obj) (userId companyId : string)
    (id activityId now : string) (store : gmap string (gmap string Obj))
  : ServiceResult * gmap string (gmap string Obj) :=
  let schemaVersion := currentVersionOf scenarioSchema collectionName in
  let documentData :=
    assign data
      [ ("id", JStr id); ("companyId", JStr companyId); ("createdBy", JStr userId);
        ("createdAt", JStr now); ("updatedAt", JStr now);
        ("schemaVersion", JStr schemaVersion) ] in
  let store1 := docSet collectionName id documentData store in
  let store2 :=
    trackActivity activityId
      (activity "create" collectionName id (orUnnamed (get data "name")) userId companyId now)
      store1 in
  (Succeeded documentData, store2).

End WithRegistry.

Definition update (collectionName id : string) (data : Obj) (userId companyId : string)
    (activityId now : string) (store : gmap string (gmap string Obj))
  : ServiceResult * gmap string (gmap string Obj) :=
  match docRead store collectionName id with
  | None => (Rejected "Document not found", store)
  | Some existingData =>
      if negb (ownedBy existingData companyId)
      then (Rejected "Unauthorized: Document belongs to another company", store)
      else
        let updateData := assign data [("updatedAt", JStr now); ("updatedBy", JStr userId)] in
        let store1 := docMerge collectionName id updateData store in
        let entityName :=
          match get existingData "name" with
          | Some v => if truthy v then v else orUnnamed (get data "name")
          | None => orUnnamed (get data "name")
          end in
        let store2 :=
          trackActivity activityId
            (activity "update" collectionName id entityName userId companyId now) store1 in
        (Succeeded (assign (assign [("id", JStr id)] existingData) updateData), store2)
  end.

Definition deleteDoc (collectionName id userId companyId : string)
    (activityId now : string) (store : gmap string (gmap string Obj))
  : ServiceResult * gmap string (gmap string Obj) :=
  match docRead store collectionName id with
  | None => (Rejected "Document not found", store)
  | Some data =>
      if negb (ownedBy data companyId)
      then (Rejected "Unauthorized: Document belongs to another company", store)
      else
        let store1 := docErase collectionName id store in
        let store2 :=
          trackActivity activityId
            (activity "delete" collectionName id (orUnnamed (get data "name"))
               userId companyId now) store1 in
        (Acknowledged "Document deleted successfully", store2)
  end.

(** [`${originalData.name} (Copy)`] *)
Definition copyName (original : Obj) : string :=
  match get original "name" with
  | Some v => toString v +:+ " (Copy)"
  | None => "undefined (Copy)"
  end.

(** The rest pattern
    [{ id, createdAt, createdBy, updatedAt, updatedBy, playCount, ...rest }]. *)
Definition dataToDuplicate (original : Obj) : Obj :=
  fold_left (fun o k => JS.remove k o)
    ["id"; "createdAt"; "createdBy"; "updatedAt"; "updatedBy"; "playCount"] original.

Definition duplicate (collectionName id userId companyId : string)
    (newId activityId now : string) (store : gmap string (gmap string Obj))
  : ServiceResult * gmap string (gmap string Obj) :=
  match getById collectionName id companyId store with
  | Succeeded originalData =>
      let duplicateData :=
        assign (dataToDuplicate originalData)
          ([ ("id", JStr newId); ("name", JStr (copyName originalData));
             ("companyId", JStr companyId); ("createdBy", JStr userId);
             ("createdAt", JStr now); ("updatedAt", JStr now) ]
           ++ (if has originalData "playCount" then [("playCount", JNum 0)] else [])) in
      let store1 := docSet collectionName newId duplicateData store in
      let store2 :=
        trackActivity activityId
          (activity "duplicate" collectionName newId (JStr (copyName originalData))
             userId companyId now) store1 in
      (Succeeded duplicateData, store2)
  | result => (result, store)
  end.

End Service.

(* ===================================================================== *)
(** ** The entity routes ([src/routes/*.js])                              *)
(* ===================================================================== *)

(** The JSON body of a response. *)
Inductive Body : Type :=
| ValidationFailed (details : list string)
| Result (result : ServiceResult)
| Failure (error : string).

Record Response : Type := {
  status : nat;
  body : Body
}.

Module Routes.
Import Registry Validator Firestore Migration Tables.
Import Db Service.

Section WithEnvironment.

Variable scenarioSchema : Schema.
Variable regexTest : string -> string -> bool.

(** The entity module: its [TYPE] and [COLLECTION] constants and the noun
    of its error messages. *)
Variables (TYPE COLLECTION noun : string).

(** [router.post('/')], after the authentication middleware: [data] is
    [req.body], [userId] and [companyId] what the middleware resolved. *)
Definition postHandler (data : Obj) (userId companyId : string)
    (id activityId now : string) (store : gmap string (gmap string Obj))
  : Response * gmap string (gmap string Obj) :=
  match validateData scenarioSchema regexTest TYPE data false None with
  | TypeError => ({| status := 500; body := Failure ("Failed to create " +:+ noun) |}, store)
  | Normal validation =>
      if negb (valid validation) then
        ({| status := 400; body := ValidationFailed (errors validation) |}, store)
      else
        let sanitized := sanitizeData scenarioSchema TYPE data in
        let (result, store') :=
          create scenarioSchema COLLECTION sanitized userId companyId id activityId now store in
        ({| status := 201; body := Result result |}, store')
  end.

(** [router.put('/:id')] *)
Definition putHandler (id : string) (data : Obj) (userId companyId : string)
    (activityId now : string) (store : gmap string (gmap string Obj))
  : Response * gmap string (gmap string Obj) :=
  match validateData scenarioSchema regexTest TYPE data true None with
  | TypeError => ({| status := 500; body := Failure ("Failed to update " +:+ noun) |}, store)
  | Normal validation =>
      if negb (valid validation) then
        ({| status := 400; body := ValidationFailed (errors validation) |}, store)
      else
        let sanitized := sanitizeData scenarioSchema TYPE data in
        let (result, store') :=
          update COLLECTION id sanitized userId companyId activityId now store in
        if negb (succeeded result)
        then ({| status := 404; body := Result result |}, store')
        else ({| status := 200; body := Result result |}, store')
  end.

End WithEnvironment.

End Routes.

(* ===================================================================== *)
(** ** The migration command line ([scripts/migrate.js])                  *)
(* ===================================================================== *)

Module Cli.
Import Registry Validator Firestore Migration Tables.

Definition COLLECTIONS : list string :=
  ["scenarios"; "characters"; "dialogues"; "environments"].

Section WithEnvironment.

Variable scenarioSchema : Schema.
Variable clock : nat -> string.

(** [runMigration(collection, dryRun)]: [false] stands for
    [process.exit(1)] on an unknown collection. *)
Definition runMigration (collection : string) (dryRun : bool) (w : World) : bool * World :=
  if String.eqb collection "all" then
    (true,
     fold_left
       (fun acc coll => snd (migrateCollection scenarioSchema clock coll None dryRun acc))
       COLLECTIONS w)
  else if negb (existsb (String.eqb collection) COLLECTIONS) then (false, w)
  else (true, snd (migrateCollection scenarioSchema clock collection None dryRun w)).

(** [showStatus(collection)]: the reports it prints, in order. *)
Definition showStatus (collection : option string) (w : World) : list StatusReport * World :=
  let collections :=
    match collection with
    | Some c => if negb (String.eqb c "") then [c] else COLLECTIONS
    | None => COLLECTIONS
    end in
  fold_left
    (fun acc coll =>
       let (status, w') := getMigrationStatus scenarioSchema coll None (snd acc) in
       (fst acc ++ [status], w'))
    collections ([], w).

End WithEnvironment.

End Cli.

(* ===================================================================== *)
(** ** Notions used to state properties                                   *)
(* ===================================================================== *)

Module Notions.
Import Registry Validator Firestore Migration Tables.

(** The descriptor is called [name]. *)
Definition named (name : string) (f : Field) : bool := String.eqb (f_name f) name.

(** Every entry of a field map is filed under the name of its field. *)
Definition keyed (m : list (string * Field)) : Prop :=
  forall e, In e m -> fst e = f_name (snd e).

(** Some flattened field called [k] is deleted by [sanitizeData]. *)
Definition strippedName (schema : Schema) (k : string) : bool :=
  existsb (fun f => stripped f && String.eqb k (f_name f)) (flatten schema).

(** Validation skips the field: [field.generated && field.editable === false]. *)
Definition skipped (f : Field) : bool := f_generated f && editableFalse f.


(** A field asks [applyDefaults] to act on the document: its value is
    missing and it declares a default or is required. *)
Definition needsDefault (data : Obj) (f : Field) : bool :=
  nullish (get data (f_name f))
  && (match f_default f with Some _ => true | None => false end || f_required f).

(** What a real run of [migrateDocument] passes to [docRef.update]. *)
Definition migrationPatch (data : Obj) (schema : Schema) (now : Value) : Obj :=
  let stamps := [("schemaVersion", JStr (s_version schema)); ("updatedAt", now)] in
  if modified (applyDefaults data schema)
  then assign (updated (applyDefaults data schema)) stamps
  else stamps.

(** A count that [getMigrationStatus] can hold: a number that is at least
    one, or a string that is not empty. *)
Definition positive (c : Count) : Prop :=
  match c with
  | Num n => 1 <= n
  | Text s => s <> ""
  end.

(** What holds of the [versions] object while the snapshot is tallied:
    [__proto__] is no key of it, a number is recorded under a key that is
    no member of [Object.prototype], a string under a key that is one. *)
Definition sane (versions : list (string * Count)) : Prop :=
  forall k c, In (k, c) versions ->
    k <> "__proto__"
    /\ positive c
    /\ (inherited k = false -> exists n, c = Num n)
    /\ (inherited k = true -> exists s, c = Text s).



(** A key that [docRef.update] takes as the name of a top-level field: it
    is not empty, holds none of the characters [. ~ * / [ ]] (a dot makes
    the key a path into a nested field, the store refuses the others) and
    is not of the reserved form [__.*__]. *)
Definition plainKey (k : string) : bool :=
  let cs := String.list_ascii_of_string k in
  let underscore (c : Ascii.ascii) := N.eqb (Ascii.N_of_ascii c) 95 in
  let special (c : Ascii.ascii) :=
    existsb (N.eqb (Ascii.N_of_ascii c)) [46; 126; 42; 47; 91; 93]%N in
  negb (String.eqb k "")
  && forallb (fun c => negb (special c)) cs
  && negb (Nat.leb 4 (length cs)
           && forallb underscore (firstn 2 cs)
           && forallb underscore (firstn 2 (rev cs))).

(** Every key of the payload is a plain field name. *)
Definition plainKeys (data : Obj) : bool := forallb plainKey (keys data).

(** The keys [create] stamps on a new document. *)
Definition serverKeys : list string :=
  ["id"; "companyId"; "createdBy"; "createdAt"; "updatedAt"; "schemaVersion"].


(** Every document of the collection is stamped with the version
    [getMigrationStatus] compares against. *)
Definition currentIn (scenarioSchema : Schema) (coll : string)
    (store : gmap string (gmap string Obj)) : Prop :=
  forall id d, Db.docRead store coll id = Some d ->
               versionKey d = currentVersionOf scenarioSchema coll.

(** The requests of one [migrateDocument] call: the read of the document,
    followed in a real run by at most one update of the same document. *)
Definition oneCall (coll : string) (dryRun : bool) (id : string) (call : list Request)
  : Prop :=
  call = [DocGet coll id]
  \/ (dryRun = false /\ exists patch, call = [DocGet coll id; DocUpdate coll id patch]).

End Notions.

(* ===================================================================== *)
(** ** Facts about objects                                                *)
(* ===================================================================== *)

Import Registry Validator Firestore Migration Tables Examples.

Module ObjFacts.

Lemma eqb_sym_false (a b : string) : a <> b -> String.eqb b a = false.
Proof. intros H. destruct (String.eqb_spec b a); congruence. Qed.

Lemma has_app (o1 o2 : Obj) (k : string) : has (o1 ++ o2) k = has o1 k || has o2 k.
Proof. unfold has. apply existsb_app. Qed.

Lemma has_map_key (o : Obj) (k k' : string) (v : Value) :
  has (map (fun e => if String.eqb (fst e) k then (k, v) else e) o) k' = has o k'.
Proof.
  unfold has. induction o as [|[a x] o IH]; simpl; [reflexivity|].
  rewrite IH. destruct (String.eqb_spec a k) as [->|Hne]; reflexivity.
Qed.

Lemma has_set (o : Obj) (k k' : string) (v : Value) :
  has (set k v o) k' = String.eqb k k' || has o k'.
Proof.
  unfold set. destruct (has o k) eqn:Hk.
  - rewrite has_map_key. destruct (String.eqb_spec k k') as [<-|Hne]; simpl; [assumption|reflexivity].
  - rewrite has_app. simpl. rewrite orb_false_r. apply orb_comm.
Qed.

Lemma has_set_same (o : Obj) (k : string) (v : Value) : has (set k v o) k = true.
Proof. rewrite has_set, String.eqb_refl. reflexivity. Qed.

Lemma has_false_get (o : Obj) (k : string) : has o k = false -> get o k = None.
Proof.
  unfold has. induction o as [|[a x] o IH]; simpl; [reflexivity|].
  destruct (String.eqb a k); simpl; [discriminate|exact IH].
Qed.

Lemma get_some_has (o : Obj) (k : string) (v : Value) : get o k = Some v -> has o k = true.
Proof.
  intros H. destruct (has o k) eqn:E; [reflexivity|].
  rewrite (has_false_get _ _ E) in H. discriminate.
Qed.

Lemma get_app (o1 o2 : Obj) (k : string) :
  get (o1 ++ o2) k = if has o1 k then get o1 k else get o2 k.
Proof.
  unfold has. induction o1 as [|[a x] o1 IH]; simpl; [reflexivity|].
  destruct (String.eqb a k); simpl; [reflexivity|exact IH].
Qed.

Lemma get_set_same (o : Obj) (k : string) (v : Value) : get (set k v o) k = Some v.
Proof.
  unfold set. destruct (has o k) eqn:Hk.
  - unfold has in Hk. induction o as [|[a x] o IH]; simpl in *; [discriminate|].
    destruct (String.eqb_spec a k) as [->|Hne]; simpl.
    + rewrite String.eqb_refl. reflexivity.
    + destruct (String.eqb_spec a k); [congruence|]. apply IH. exact Hk.
  - rewrite get_app, Hk. simpl. rewrite String.eqb_refl. reflexivity.
Qed.

Lemma get_set_other (o : Obj) (k k' : string) (v : Value) :
  k <> k' -> get (set k v o) k' = get o k'.
Proof.
  intros Hne. unfold set. destruct (has o k) eqn:Hk.
  - clear Hk. induction o as [|[a x] o IH]; simpl; [reflexivity|].
    destruct (String.eqb_spec a k) as [->|Hak]; simpl.
    + rewrite (eqb_sym_false k' k) by congruence. destruct (String.eqb_spec k k'); [congruence|]. exact IH.
    + destruct (String.eqb a k'); [reflexivity|exact IH].
  - rewrite get_app. destruct (has o k') eqn:Hk'; [reflexivity|].
    simpl. rewrite (has_false_get _ _ Hk'). destruct (String.eqb_spec k k'); congruence.
Qed.

Lemma map_key_twice (o : Obj) (k : string) (v v' : Value) :
  map (fun e => if String.eqb (fst e) k then (k, v) else e)
    (map (fun e => if String.eqb (fst e) k then (k, v') else e) o)
  = map (fun e => if String.eqb (fst e) k then (k, v) else e) o.
Proof.
  rewrite map_map. apply map_ext. intros [a x]. simpl.
  destruct (String.eqb_spec a k) as [->|Hne]; simpl.
  - rewrite String.eqb_refl. reflexivity.
  - destruct (String.eqb_spec a k); congruence.
Qed.

Lemma set_set_same (o : Obj) (k : string) (v v' : Value) :
  set k v (set k v' o) = set k v o.
Proof.
  unfold set at 1. rewrite has_set_same.
  unfold set. destruct (has o k) eqn:Hk.
  - apply map_key_twice.
  - rewrite map_app. simpl. rewrite String.eqb_refl. f_equal.
    unfold has in Hk. clear v'. induction o as [|[a x] o IH]; simpl in *; [reflexivity|].
    apply orb_false_elim in Hk as [Ha Ho]. rewrite Ha. f_equal. apply IH. exact Ho.
Qed.

Lemma map_key_absent (o : Obj) (k : string) (v : Value) :
  has o k = false -> map (fun e => if String.eqb (fst e) k then (k, v) else e) o = o.
Proof.
  unfold has. induction o as [|[a x] o IH]; simpl; [reflexivity|].
  intros H. apply orb_false_elim in H as [Ha Ho]. rewrite Ha. f_equal. apply IH. exact Ho.
Qed.

Lemma set_comm (o : Obj) (k1 k2 : string) (v1 v2 : Value) :
  k1 <> k2 -> has o k1 = true ->
  set k1 v1 (set k2 v2 o) = set k2 v2 (set k1 v1 o).
Proof.
  intros Hne H1.
  unfold set at 1. rewrite has_set, H1, orb_true_r.
  unfold set at 2. rewrite has_set. rewrite (eqb_sym_false k2 k1) by congruence. simpl.
  unfold set. rewrite H1. destruct (has o k2) eqn:H2.
  - rewrite !map_map. apply map_ext. intros [a x]. simpl.
    destruct (String.eqb_spec a k2) as [->|Ha2]; simpl.
    + destruct (String.eqb_spec k2 k1); [congruence|]. simpl. rewrite String.eqb_refl. reflexivity.
    + destruct (String.eqb_spec a k1) as [->|Ha1]; simpl.
      * destruct (String.eqb_spec k1 k2); [congruence|]. reflexivity.
      * destruct (String.eqb_spec a k2); congruence.
  - rewrite map_app. simpl. destruct (String.eqb_spec k2 k1); [congruence|]. reflexivity.
Qed.

Lemma has_remove (o : Obj) (k k' : string) :
  has (remove k o) k' = negb (String.eqb k k') && has o k'.
Proof.
  unfold has, remove. induction o as [|[a x] o IH]; simpl.
  - rewrite andb_false_r. reflexivity.
  - destruct (String.eqb_spec a k) as [->|Hak]; simpl.
    + rewrite IH. destruct (String.eqb k k'); reflexivity.
    + rewrite IH. destruct (String.eqb_spec a k') as [->|Hak']; simpl.
      * rewrite (eqb_sym_false k' k) by congruence. reflexivity.
      * reflexivity.
Qed.



End ObjFacts.

Module AssignFacts.
Import ObjFacts.

Lemma assign_app (o : Obj) (a b : list (string * Value)) :
  assign o (a ++ b) = assign (assign o a) b.
Proof. unfold assign. apply fold_left_app. Qed.

Lemma assign_cons (o : Obj) (e : string * Value) (r : list (string * Value)) :
  assign o (e :: r) = assign (set (fst e) (snd e) o) r.
Proof. reflexivity. Qed.

Lemma has_assign_keep (W : list (string * Value)) (o : Obj) (k : string) :
  has o k = true -> has (assign o W) k = true.
Proof.
  revert o. induction W as [|[a x] W IH]; intros o H; [exact H|].
  rewrite assign_cons. apply IH. rewrite has_set, H. apply orb_true_r.
Qed.

Lemma has_assign_written (W : list (string * Value)) (o : Obj) (e : string * Value) :
  In e W -> has (assign o W) (fst e) = true.
Proof.
  revert o. induction W as [|[a x] W IH]; intros o Hin; [destruct Hin|].
  rewrite assign_cons. destruct Hin as [<-|Hin].
  - apply has_assign_keep. apply has_set_same.
  - apply IH. exact Hin.
Qed.

Lemma get_assign_other (W : list (string * Value)) (o : Obj) (k : string) :
  (forall e, In e W -> fst e <> k) -> get (assign o W) k = get o k.
Proof.
  revert o. induction W as [|[a x] W IH]; intros o H; [reflexivity|].
  rewrite assign_cons, IH.
  - apply get_set_other. apply (H (a, x)). left. reflexivity.
  - intros e He. apply H. right. exact He.
Qed.

(** Assignments to keys that are all present commute with an assignment
    to a key they do not touch. *)
Lemma assign_set_comm (R : list (string * Value)) (w : Obj) (k : string) (v : Value) :
  (forall e, In e R -> has w (fst e) = true) ->
  (forall e, In e R -> fst e <> k) ->
  assign (set k v w) R = set k v (assign w R).
Proof.
  revert w. induction R as [|[a x] R IH]; intros w Hp Hk; [reflexivity|].
  rewrite !assign_cons. simpl.
  rewrite set_comm.
  - apply IH.
    + intros e He. rewrite has_set. rewrite (Hp e) by (right; exact He). apply orb_true_r.
    + intros e He. apply Hk. right. exact He.
  - apply (Hk (a, x)). left. reflexivity.
  - apply (Hp (a, x)). left. reflexivity.
Qed.

(** A final assignment to [k] hides an earlier one. *)
Lemma set_assign_absorb (R : list (string * Value)) (w : Obj) (k : string) (v v' : Value) :
  (forall e, In e R -> has w (fst e) = true) ->
  set k v (assign (set k v' w) R) = set k v (assign w R).
Proof.
  revert w v'. induction R as [|[a x] R IH]; intros w v' Hp.
  - simpl. apply set_set_same.
  - rewrite !assign_cons. simpl.
    assert (Hrest : forall e u, In e R -> has (set a u w) (fst e) = true).
    { intros e u He. rewrite has_set. rewrite (Hp e) by (right; exact He). apply orb_true_r. }
    destruct (String.eqb_spec a k) as [->|Hne].
    + rewrite set_set_same. reflexivity.
    + rewrite set_comm.
      * apply IH. intros e He. apply Hrest. exact He.
      * exact Hne.
      * apply (Hp (a, x)). left. reflexivity.
Qed.

(** Replaying any key-selected part of a list of assignments on their
    result changes nothing. *)
Lemma assign_replay (P : string -> bool) (W : list (string * Value)) (o : Obj) :
  assign (assign o W) (List.filter (fun e => P (fst e)) W) = assign o W.
Proof.
  induction W as [|[k v] W IH] using rev_ind; [reflexivity|].
  rewrite assign_app. simpl. set (u0 := assign o W) in *.
  rewrite List.filter_app. simpl.
  assert (Hpres : forall e, In e (List.filter (fun e => P (fst e)) W) -> has u0 (fst e) = true).
  { intros e He. apply List.filter_In in He as [He _]. apply has_assign_written. exact He. }
  destruct (P k) eqn:HP.
  - rewrite assign_app. simpl. rewrite set_assign_absorb by exact Hpres.
    rewrite IH. reflexivity.
  - rewrite app_nil_r. rewrite assign_set_comm.
    + rewrite IH. reflexivity.
    + exact Hpres.
    + intros e He. apply List.filter_In in He as [_ He]. intros Hk. rewrite Hk in He. congruence.
Qed.

End AssignFacts.

Module DefaultsFacts.
Import ObjFacts AssignFacts.

Lemma updated_applyField (data : Obj) (acc : Defaulted) (field : Field) :
  updated (applyField data acc field) = assign (updated acc) (writesOf data field).
Proof.
  unfold applyField, writesOf.
  destruct (f_default field) as [d|], (nullish (get data (f_name field))),
    (f_required field), (placeholder (f_type field)); reflexivity.
Qed.

Lemma updated_fold (data : Obj) (fs : list Field) (acc : Defaulted) :
  updated (fold_left (applyField data) fs acc)
  = assign (updated acc) (flat_map (writesOf data) fs).
Proof.
  revert acc. induction fs as [|f fs IH]; intros acc; [reflexivity|].
  simpl. rewrite IH, updated_applyField, assign_app. reflexivity.
Qed.

Lemma updated_applyDefaults (data : Obj) (schema : Schema) :
  updated (applyDefaults data schema) = assign data (flat_map (writesOf data) (collect schema)).
Proof. unfold applyDefaults. rewrite updated_fold. reflexivity. Qed.

Lemma writesOf_key (data : Obj) (field : Field) (e : string * Value) :
  In e (writesOf data field) -> fst e = f_name field /\ nullish (get data (f_name field)) = true.
Proof.
  unfold writesOf. intros H. apply in_app_or in H.
  destruct (nullish (get data (f_name field))).
  - split; [|reflexivity].
    destruct H as [H|H].
    + destruct (f_default field); [destruct H as [<-|[]]; reflexivity|destruct H].
    + rewrite andb_true_r in H. destruct (f_required field); [|destruct H].
      destruct (placeholder (f_type field)); [destruct H as [<-|[]]; reflexivity|destruct H].
  - rewrite andb_false_r in H. destruct H as [H|H]; [|destruct H].
    destruct (f_default field); destruct H.
Qed.

Lemma writesOf_same_missing (d1 d2 : Obj) (field : Field) :
  nullish (get d1 (f_name field)) = nullish (get d2 (f_name field)) ->
  writesOf d1 field = writesOf d2 field.
Proof. unfold writesOf. intros ->. reflexivity. Qed.

Lemma writesOf_present (data : Obj) (field : Field) :
  nullish (get data (f_name field)) = false -> writesOf data field = [].
Proof.
  unfold writesOf. intros ->. rewrite andb_false_r.
  destruct (f_default field); reflexivity.
Qed.

Lemma filter_all {A : Type} (p : A -> bool) (l : list A) :
  (forall x, In x l -> p x = true) -> List.filter p l = l.
Proof.
  induction l as [|x l IH]; intros H; [reflexivity|]. simpl.
  rewrite (H x) by (left; reflexivity). f_equal. apply IH. intros y Hy. apply H. right. exact Hy.
Qed.

Lemma filter_none {A : Type} (p : A -> bool) (l : list A) :
  (forall x, In x l -> p x = false) -> List.filter p l = [].
Proof.
  induction l as [|x l IH]; intros H; [reflexivity|]. simpl.
  rewrite (H x) by (left; reflexivity). apply IH. intros y Hy. apply H. right. exact Hy.
Qed.

(** A second pass only repeats assignments of the first pass. *)
Lemma writes_second_pass (data : Obj) (all fs : list Field) :
  let u := assign data (flat_map (writesOf data) all) in
  flat_map (writesOf u) fs
  = List.filter (fun e => nullish (get u (fst e))) (flat_map (writesOf data) fs).
Proof.
  intros u. induction fs as [|f fs IH]; [reflexivity|].
  simpl. rewrite List.filter_app, <- IH. f_equal.
  destruct (nullish (get u (f_name f))) eqn:Hu.
  - assert (Hd : nullish (get data (f_name f)) = true).
    { destruct (nullish (get data (f_name f))) eqn:Hd; [reflexivity|].
      assert (Hsame : get u (f_name f) = get data (f_name f)).
      { apply get_assign_other. intros e He Hk.
        apply in_flat_map in He as [g [_ Hg]]. apply writesOf_key in Hg as [Hname Hmiss].
        rewrite <- Hname, Hk in Hmiss. congruence. }
      rewrite Hsame in Hu. congruence. }
    rewrite filter_all.
    + apply writesOf_same_missing. congruence.
    + intros e He. apply writesOf_key in He as [-> _]. exact Hu.
  - rewrite filter_none.
    + apply writesOf_present. exact Hu.
    + intros e He. apply writesOf_key in He as [-> _]. exact Hu.
Qed.

(** Claim C9. [applyDefaults] is idempotent on the document it produces:
    for every schema and every document, running it on the [updated]
    document of a first run returns that same document. *)
Theorem applyDefaults_idempotent (data : Obj) (schema : Schema) :
  updated (applyDefaults (updated (applyDefaults data schema)) schema)
  = updated (applyDefaults data schema).
Proof.
  rewrite (updated_applyDefaults (updated _)), (updated_applyDefaults data).
  rewrite writes_second_pass. apply (assign_replay (fun k => nullish (get _ k))).
Qed.

End DefaultsFacts.

Module DefaultsSpec.
Import ObjFacts.

Lemma applyField_required_placeholder (data : Obj) (acc : Defaulted) (field : Field) (p : Value) :
  f_required field = true ->
  nullish (get data (f_name field)) = true ->
  placeholder (f_type field) = Some p ->
  get (updated (applyField data acc field)) (f_name field) = Some p.
Proof.
  intros Hreq Hmiss Hp. unfold applyField. rewrite Hreq, Hmiss, Hp. simpl.
  apply get_set_same.
Qed.

(** Claim C1, evaluated on the code. The guide's schema declares [status]
    as a required string with default ['draft']; for a stored document
    without [status], [applyDefaults] leaves the empty-string placeholder
    in [status], not the declared default: the placeholder test reads the
    original document, so it fires after the default was assigned. *)
Theorem applyDefaults_placeholder_replaces_default :
  get (updated (applyDefaults [("name", JStr "Bob")] guideSchema)) "status" = Some (JStr "")
  /\ modified (applyDefaults [("name", JStr "Bob")] guideSchema) = true.
Proof. split; reflexivity. Qed.

Example applyDefaults_select_keeps_default :
  get (updated (applyDefaults [("name", JStr "Bob")] characterSchema)) "status"
  = Some (JStr "draft").
Proof. reflexivity. Qed.

End DefaultsSpec.

Module SanitizerSpec.
Import ObjFacts.

Lemma has_sanitize_fold (fs : list Field) (data : Obj) (k : string) :
  has (fold_left
         (fun sanitized field =>
            if stripped field
            then JS.remove (f_name field) sanitized
            else sanitized) fs data) k
  = has data k && negb (existsb (fun f => stripped f && String.eqb (f_name f) k) fs).
Proof.
  revert data. induction fs as [|f fs IH]; intros data; simpl.
  - rewrite andb_true_r. reflexivity.
  - rewrite IH.
    destruct (stripped f); simpl; [|reflexivity].
    rewrite has_remove.
    destruct (String.eqb (f_name f) k), (has data k); reflexivity.
Qed.

Lemma known_types (sc : Schema) (type : string) :
  In type ["character"; "dialogue"; "environment"] ->
  getSchema sc type = Some characterSchema /\ type = "character"
  \/ getSchema sc type = Some dialogueSchema /\ type = "dialogue"
  \/ getSchema sc type = Some environmentSchema /\ type = "environment".
Proof.
  intros [<-|[<-|[<-|[]]]]; [left|right; left|right; right]; split; reflexivity.
Qed.

(** Claim C2 fails as stated: a [schemaVersion] key sent by the caller
    survives [sanitizeData] for the character type. *)
Lemma sanitize_keeps_schemaVersion :
  has (sanitizeData bareScenario "character"
         [("name", JStr "Bob"); ("schemaVersion", JStr "0.1"); ("id", JStr "forged")])
      "schemaVersion" = true.
Proof. reflexivity. Qed.

(** Claim C2, amended. For every registered type and every payload,
    [sanitizeData] returns a payload without the key of any flattened field
    declared [editable: false] or [generated]; for the character, dialogue
    and environment types these include the document id, the tenant id and
    the audit fields. [schemaVersion] is declared by none of these schemas
    and is kept exactly when the caller sent it. *)
Theorem sanitize_strips_declared_server_fields
    (sc : Schema) (type : string) (schema : Schema) (data : Obj) :
  getSchema sc type = Some schema ->
  (forall f, In f (flatten schema) -> editableFalse f || f_generated f = true ->
             has (sanitizeData sc type data) (f_name f) = false)
  /\ (In type ["character"; "dialogue"; "environment"] ->
      (forall k, In k ["id"; "companyId"; "createdBy"; "createdAt"; "updatedAt"; "updatedBy"] ->
                 has (sanitizeData sc type data) k = false)
      /\ has (sanitizeData sc type data) "schemaVersion" = has data "schemaVersion").
Proof.
  intros Hs. unfold sanitizeData. rewrite Hs. split.
  - intros f Hin Hflag. rewrite has_sanitize_fold.
    replace (existsb _ (flatten schema)) with true; [apply andb_false_r|].
    symmetry. apply existsb_exists. exists f. split; [exact Hin|].
    unfold stripped. rewrite Hflag, String.eqb_refl. reflexivity.
  - intros Hty. split.
    + intros k Hk. rewrite has_sanitize_fold.
      replace (existsb _ (flatten schema)) with true; [apply andb_false_r|].
      destruct (known_types sc type Hty) as [[E _]|[[E _]|[E _]]];
        rewrite Hs in E; injection E as ->;
        repeat (destruct Hk as [<-|Hk]; [vm_compute; reflexivity|]); destruct Hk.
    + rewrite has_sanitize_fold.
      replace (existsb _ (flatten schema)) with false; [apply andb_true_r|].
      destruct (known_types sc type Hty) as [[E _]|[[E _]|[E _]]];
        rewrite Hs in E; injection E as ->; vm_compute; reflexivity.
Qed.

Lemma sanitize_strips_declared_server_fields_witness :
  getSchema bareScenario "character" = Some characterSchema
  /\ has (sanitizeData bareScenario "character"
            [("id", JStr "forged"); ("name", JStr "Bob"); ("schemaVersion", JStr "0.1")]) "id" = false
  /\ has (sanitizeData bareScenario "character"
            [("id", JStr "forged"); ("name", JStr "Bob"); ("schemaVersion", JStr "0.1")]) "schemaVersion"
     = true.
Proof.
  split; [reflexivity|].
  destruct (sanitize_strips_declared_server_fields bareScenario "character" characterSchema
              [("id", JStr "forged"); ("name", JStr "Bob"); ("schemaVersion", JStr "0.1")]
              eq_refl) as [_ Hknown].
  destruct Hknown as [Hkeys Hver]; [left; reflexivity|].
  split.
  - apply Hkeys. left. reflexivity.
  - rewrite Hver. reflexivity.
Defined.

(** Claim C5 fails as stated: for a type without a schema [sanitizeData]
    returns the caller's payload, server-owned keys included. *)
Lemma sanitize_unknown_type_returns_payload :
  getSchema bareScenario "widget" = None
  /\ sanitizeData bareScenario "widget" [("id", JStr "forged"); ("name", JStr "Bob")]
     = [("id", JStr "forged"); ("name", JStr "Bob")].
Proof. split; reflexivity. Qed.

(** Claim C5, amended. For a type name the registry holds no schema for,
    [sanitizeData] returns the payload unchanged; and [validateData] returns
    an invalid result whose only error names the unknown type, provided the
    type is not the name of a member of [Object.prototype], which the
    lookup [schemas[type]] would find. *)
Theorem unknown_type_outcomes
    (sc : Schema) (rx : string -> string -> bool) (type : string) (data : Obj)
    (isUpdate : bool) (existing : option Obj) :
  getSchema sc type = None ->
  sanitizeData sc type data = data
  /\ (inherited type = false ->
      validateData sc rx type data isUpdate existing
      = Normal {| valid := false;
                  errors := ["Unknown schema type: " +:+ type];
                  warnings := [] |}).
Proof.
  intros H. unfold validateData, sanitizeData. rewrite H. split; reflexivity.
Qed.

Lemma unknown_type_outcomes_witness :
  getSchema bareScenario "widget" = None
  /\ inherited "widget" = false
  /\ validateData bareScenario anyMatch "widget" [("id", JStr "forged")] false None
     = Normal {| valid := false;
                 errors := ["Unknown schema type: widget"];
                 warnings := [] |}
  /\ sanitizeData bareScenario "widget" [("id", JStr "forged")] = [("id", JStr "forged")].
Proof.
  split; [reflexivity|]. split; [reflexivity|].
  destruct (unknown_type_outcomes bareScenario anyMatch "widget" [("id", JStr "forged")]
              false None eq_refl) as [Hsan Hval].
  split; [exact (Hval eq_refl)|exact Hsan].
Defined.

End SanitizerSpec.

Module GatherFacts.

Section Gather.
Context {A : Type} (f : A -> Completion (list string)).

Lemma gather_normal_in (l : list A) (es : list string) (x : A) :
  gather f l = Normal es -> In x l ->
  exists e, f x = Normal e /\ forall m, In m e -> In m es.
Proof.
  revert es. induction l as [|y l IH]; intros es Hg Hin; [destruct Hin|].
  simpl in Hg. destruct (f y) as [e|] eqn:Hy; [|discriminate].
  destruct (gather f l) as [es'|] eqn:Hl; [|discriminate].
  injection Hg as <-. destruct Hin as [->|Hin].
  - exists e. split; [exact Hy|]. intros m Hm. apply in_or_app. left. exact Hm.
  - destruct (IH es' eq_refl Hin) as [e' [He' Hsub]].
    exists e'. split; [exact He'|]. intros m Hm. apply in_or_app. right. apply Hsub. exact Hm.
Qed.


Lemma gather_silent (l : list A) :
  (forall x, In x l -> f x = Normal []) -> gather f l = Normal [].
Proof.
  induction l as [|y l IH]; intros H; [reflexivity|].
  simpl. rewrite (H y) by (left; reflexivity).
  rewrite IH; [reflexivity|]. intros x Hx. apply H. right. exact Hx.
Qed.

Lemma gather_origin (l : list A) (es : list string) (m : string) :
  gather f l = Normal es -> In m es ->
  exists x e, In x l /\ f x = Normal e /\ In m e.
Proof.
  revert es. induction l as [|y l IH]; intros es Hg Hm.
  - injection Hg as <-. destruct Hm.
  - simpl in Hg. destruct (f y) as [e|] eqn:Hy; [|discriminate].
    destruct (gather f l) as [es'|] eqn:Hl; [|discriminate].
    injection Hg as <-. apply in_app_or in Hm as [Hm|Hm].
    + exists y, e. split; [left; reflexivity|]. split; [exact Hy|exact Hm].
    + destruct (IH es' eq_refl Hm) as [x [e' [Hx [He' Hin]]]].
      exists x, e'. split; [right; exact Hx|]. split; [exact He'|exact Hin].
Qed.

End Gather.

Lemma in_indexed {A : Type} (l : list A) (s i : nat) (x : A) :
  nth_error l i = Some x -> In ((s + i)%nat, x) (combine (seq s (length l)) l).
Proof.
  revert s i. induction l as [|y l IH]; intros s i H; [destruct i; discriminate|].
  destruct i as [|i]; simpl in *.
  - injection H as ->. left. f_equal. lia.
  - right. replace (s + S i)%nat with (S s + i)%nat by lia. apply IH. exact H.
Qed.

End GatherFacts.

Module ValidatorSpec.
Import ObjFacts GatherFacts.







(** An error pushed for a flattened field is in the report, which is
    then invalid. *)
Lemma field_error_reported (sc : Schema) (rx : string -> string -> bool) (type : string)
    (schema : Schema) (f : Field) (data : Obj) (isUpdate : bool) (existing : option Obj)
    (r : ValidationResult) (e : list string) (m : string) :
  getSchema sc type = Some schema -> In f (flatten schema) ->
  validateField rx data isUpdate f = Normal e -> In m e ->
  validateData sc rx type data isUpdate existing = Normal r ->
  In m (errors r) /\ valid r = false.
Proof.
  intros Hs Hf He Hm Hr. unfold validateData in Hr. rewrite Hs in Hr.
  destruct (gather (validateField rx data isUpdate) (flatten schema)) as [es|] eqn:Hg;
    [|discriminate].
  injection Hr as <-. simpl.
  destruct (gather_normal_in _ _ _ _ Hg Hf) as [e' [He' Hsub]].
  rewrite He in He'. injection He' as <-.
  assert (Hin : In m es) by (apply Hsub; exact Hm).
  split; [exact Hin|]. destruct es; [destruct Hin|reflexivity].
Qed.

Lemma validateValue_optional (rx : string -> string -> bool) (f : Field) (v : Value) :
  validateValue rx (optional f) v = validateValue rx f v.
Proof. reflexivity. Qed.

Lemma empty_update_valid (sc : Schema) (rx : string -> string -> bool) (type : string)
    (schema : Schema) (existing : option Obj) :
  getSchema sc type = Some schema ->
  validateData sc rx type [] true existing
  = Normal {| valid := true; errors := []; warnings := versionWarnings schema true existing |}.
Proof.
  intros Hs. unfold validateData. rewrite Hs.
  rewrite gather_silent; [reflexivity|].
  intros f _. unfold validateField. simpl.
  destruct (f_generated f && editableFalse f), (f_required f); reflexivity.
Qed.

(** Claim C3: the code breaks it. An update payload that omits the
    required [name] of a dialogue has no error to report for [name], and
    a payload such as [{nickname: 'x'}] is validated as the claim says. Yet
    when the payload has an own key [hasOwnProperty], the required check of
    [name] calls [data.hasOwnProperty], finds the payload's own property,
    which is no function, and raises: [validateData] returns no report, and
    the PUT route answers 500 and leaves the store as it was. *)
Lemma update_shadowing_hasOwnProperty_raises :
  let payload := [("hasOwnProperty", JStr "x")] in
  let store :=
    Db.docSet "dialogues" "d-1"
      [("id", JStr "d-1"); ("name", JStr "Intro"); ("companyId", JStr "acme")] ∅ in
  let out :=
    Routes.putHandler bareScenario anyMatch "dialogue" "dialogues" "dialogue" "d-1" payload
      "u-1" "acme" "a-2" "later" store in
  has payload "name" = false
  /\ validateData bareScenario anyMatch "dialogue" payload true None = TypeError
  /\ status (fst out) = 500
  /\ snd out = store
  /\ validateData bareScenario anyMatch "dialogue" [("nickname", JStr "x")] true None
     = Normal {| valid := true; errors := []; warnings := [] |}.
Proof. vm_compute. repeat split. Qed.



(** The path of item [i] of the array field [name]. *)
Lemma item_path_nonempty (name idx : string) :
  String.eqb (name +:+ "[" +:+ idx +:+ "]") "" = false.
Proof. destruct name; reflexivity. Qed.

Lemma validateEntry_required (item : Value) (prefix key : string) (sd : SubField)
    (value : option Value) :
  String.eqb prefix "" = false ->
  sf_required sd = true ->
  getProp item key = Normal value ->
  blank value = true ->
  validateEntry item prefix (key, sd) = Normal [q (prefix +:+ "." +:+ key) +:+ " is required"].
Proof.
  intros Hp Hreq Hget Hb. unfold validateEntry. simpl.
  rewrite Hget, Hp, Hreq, Hb. reflexivity.
Qed.

Lemma whenDefined_tail (bound : option Z) (test : Z -> bool) (head : string)
    (tail : Z -> string) (m : string) :
  In m (whenDefined bound test (fun b => head +:+ tail b)) ->
  exists t, m = head +:+ t.
Proof.
  unfold whenDefined. destruct bound as [b|]; [|intros []].
  destruct (test b); [|intros []]. intros [<-|[]]. exists (tail b). reflexivity.
Qed.

(** Every error a nested check pushes is qualified by [prefix.key]. *)
Lemma validateEntry_paths (item : Value) (prefix : string) (entry : string * SubField)
    (e : list string) (m : string) :
  String.eqb prefix "" = false ->
  validateEntry item prefix entry = Normal e -> In m e ->
  exists tail, m = q (prefix +:+ "." +:+ fst entry) +:+ tail.
Proof.
  intros Hp He Hm. unfold validateEntry in He. rewrite Hp in He. simpl in He.
  destruct (getProp item (fst entry)) as [value|]; [|discriminate].
  destruct (sf_required (snd entry) && blank value).
  { injection He as <-. destruct Hm as [<-|[]]. eexists; reflexivity. }
  destruct value as [v|]; [|injection He as <-; destruct Hm].
  destruct v; try (injection He as <-; destruct Hm; fail);
    destruct (sf_type (snd entry));
    injection He as <-;
    try (destruct Hm; fail);
    try (destruct Hm as [<-|[]]; eexists; reflexivity).
  apply in_app_or in Hm as [Hm|Hm]; eapply whenDefined_tail; exact Hm.
Qed.

(** The array case of [validateValue]: every item is checked against the
    nested field map under the path [name[i]], and what that check pushes
    is part of the field's errors. *)
Lemma array_items_checked (rx : string -> string -> bool) (f : Field) (sub : SubSchema)
    (items : list Value) (errs : list string) (i : nat) (item : Value) :
  f_type f = TArray -> f_itemType f = Some "object" -> f_schema f = Some sub ->
  validateValue rx f (JArr items) = Normal errs ->
  nth_error items i = Some item ->
  exists itemErrs,
    validateObjectAgainstSchema item sub (f_name f +:+ "[" +:+ pretty i +:+ "]")
    = Normal itemErrs
    /\ (forall m, In m itemErrs -> In m errs)
    /\ (forall m, In m itemErrs ->
          exists key tail,
            In key (map fst sub)
            /\ m = q ((f_name f +:+ "[" +:+ pretty i +:+ "]") +:+ "." +:+ key) +:+ tail).
Proof.
  intros Ht Hit Hsub Hv Hnth. unfold validateValue in Hv. rewrite Ht, Hit, Hsub in Hv.
  simpl in Hv.
  match type of Hv with
  | context [gather ?g ?l] => destruct (gather g l) as [es|] eqn:Hg; [|discriminate]
  end.
  injection Hv as <-.
  destruct (gather_normal_in _ _ _ (i, item) Hg) as [e [He Hsubset]].
  - apply (in_indexed items 0 i item Hnth).
  - exists e. split; [exact He|]. split.
    + intros m Hm. apply in_or_app. right. apply Hsubset. exact Hm.
    + intros m Hm. simpl in He. unfold validateObjectAgainstSchema in He.
      destruct (gather_origin _ _ _ m He Hm) as [entry [e' [Hentry [He' Hin]]]].
      destruct (validateEntry_paths item _ entry e' m (item_path_nonempty _ _) He' Hin)
        as [tail Htail].
      exists (fst entry), tail. split; [apply in_map; exact Hentry|exact Htail].
Qed.

Lemma array_item_required (rx : string -> string -> bool) (f : Field) (sub : SubSchema)
    (items : list Value) (errs : list string) (i : nat) (item : Value)
    (key : string) (sd : SubField) (value : option Value) :
  f_type f = TArray -> f_itemType f = Some "object" -> f_schema f = Some sub ->
  validateValue rx f (JArr items) = Normal errs ->
  nth_error items i = Some item ->
  In (key, sd) sub -> sf_required sd = true ->
  getProp item key = Normal value -> blank value = true ->
  In (q ((f_name f +:+ "[" +:+ pretty i +:+ "]") +:+ "." +:+ key) +:+ " is required") errs.
Proof.
  intros Ht Hit Hsub Hv Hnth Hkey Hreq Hget Hb.
  destruct (array_items_checked rx f sub items errs i item Ht Hit Hsub Hv Hnth)
    as [itemErrs [Hitem [Hincl _]]].
  apply Hincl. unfold validateObjectAgainstSchema in Hitem.
  destruct (gather_normal_in _ _ _ (key, sd) Hitem Hkey) as [e [He Hsubset]].
  rewrite (validateEntry_required item _ key sd value (item_path_nonempty _ _) Hreq Hget Hb) in He.
  injection He as <-. apply Hsubset. left. reflexivity.
Qed.

Lemma validateField_array (rx : string -> string -> bool) (data : Obj) (isUpdate : bool)
    (f : Field) (items : list Value) :
  f_generated f && editableFalse f = false ->
  get data (f_name f) = Some (JArr items) ->
  validateField rx data isUpdate f = validateValue rx f (JArr items).
Proof.
  intros Hskip Hget. unfold validateField. rewrite Hskip, Hget. simpl.
  rewrite andb_false_r. reflexivity.
Qed.

(** Claim C8. For an array field whose items are nested objects, each
    item [i] is validated against the nested field map under the path
    [field[i]]: what that validation pushes is in the report, every such
    error is qualified by [field[i].subfield], and a required subfield that
    is blank yields "Field 'field[i].subfield' is required". For the
    dialogue type, a payload whose [roles[0]] lacks [roleId] yields the
    error on [roles[0].roleId]. *)
Theorem nested_array_items_validated :
  (forall (sc : Schema) (rx : string -> string -> bool) (type : string) (schema : Schema)
          (f : Field) (sub : SubSchema) (data : Obj) (isUpdate : bool)
          (existing : option Obj) (items : list Value) (r : ValidationResult),
      getSchema sc type = Some schema -> In f (flatten schema) ->
      f_generated f && editableFalse f = false ->
      f_type f = TArray -> f_itemType f = Some "object" -> f_schema f = Some sub ->
      get data (f_name f) = Some (JArr items) ->
      validateData sc rx type data isUpdate existing = Normal r ->
      forall (i : nat) (item : Value),
        nth_error items i = Some item ->
        (exists itemErrs,
            validateObjectAgainstSchema item sub (f_name f +:+ "[" +:+ pretty i +:+ "]")
            = Normal itemErrs
            /\ (forall m, In m itemErrs -> In m (errors r))
            /\ (forall m, In m itemErrs ->
                  exists key tail,
                    In key (map fst sub)
                    /\ m = q ((f_name f +:+ "[" +:+ pretty i +:+ "]") +:+ "." +:+ key)
                           +:+ tail))
        /\ forall (key : string) (sd : SubField) (value : option Value),
            In (key, sd) sub -> sf_required sd = true ->
            getProp item key = Normal value -> blank value = true ->
            In (q ((f_name f +:+ "[" +:+ pretty i +:+ "]") +:+ "." +:+ key) +:+ " is required")
               (errors r)
            /\ valid r = false)
  /\ (forall (sc : Schema) (rx : string -> string -> bool) (data : Obj) (isUpdate : bool)
             (existing : option Obj) (first : Value) (rest : list Value)
             (value : option Value) (r : ValidationResult),
         get data "roles" = Some (JArr (first :: rest)) ->
         getProp first "roleId" = Normal value -> blank value = true ->
         validateData sc rx "dialogue" data isUpdate existing = Normal r ->
         In "Field 'roles[0].roleId' is required" (errors r) /\ valid r = false).
Proof.
  assert (General :
    forall sc rx type schema f sub data isUpdate existing items r,
      getSchema sc type = Some schema -> In f (flatten schema) ->
      f_generated f && editableFalse f = false ->
      f_type f = TArray -> f_itemType f = Some "object" -> f_schema f = Some sub ->
      get data (f_name f) = Some (JArr items) ->
      validateData sc rx type data isUpdate existing = Normal r ->
      exists errs, validateValue rx f (JArr items) = Normal errs
                   /\ (forall m, In m errs -> In m (errors r))
                   /\ (forall m, In m errs -> valid r = false)).
  { intros sc rx type schema f sub data isUpdate existing items r
      Hs Hf Hskip Ht Hit Hsub Hget Hr.
    pose proof Hr as Hr'. unfold validateData in Hr'. rewrite Hs in Hr'.
    destruct (gather (validateField rx data isUpdate) (flatten schema)) as [es|] eqn:Hg;
      [|discriminate].
    destruct (gather_normal_in _ _ _ f Hg Hf) as [e [He _]].
    rewrite (validateField_array rx data isUpdate f items Hskip Hget) in He.
    exists e. split; [exact He|].
    rewrite <- (validateField_array rx data isUpdate f items Hskip Hget) in He.
    split; intros m Hm;
      apply (field_error_reported sc rx type schema f data isUpdate existing r e m
               Hs Hf He Hm Hr). }
  split.
  - intros sc rx type schema f sub data isUpdate existing items r
      Hs Hf Hskip Ht Hit Hsub Hget Hr i item Hnth.
    destruct (General sc rx type schema f sub data isUpdate existing items r
                Hs Hf Hskip Ht Hit Hsub Hget Hr) as [errs [Hv [Hin Hinv]]].
    split.
    + destruct (array_items_checked rx f sub items errs i item Ht Hit Hsub Hv Hnth)
        as [itemErrs [Hitem [Hincl Hpaths]]].
      exists itemErrs. split; [exact Hitem|]. split; [|exact Hpaths].
      intros m Hm. apply Hin, Hincl, Hm.
    + intros key sd value Hkey Hreq Hp Hb.
      pose proof (array_item_required rx f sub items errs i item key sd value
                    Ht Hit Hsub Hv Hnth Hkey Hreq Hp Hb) as Hmsg.
      split; [apply Hin, Hmsg|exact (Hinv _ Hmsg)].
  - intros sc rx data isUpdate existing first rest value r Hget Hp Hb Hr.
    set (roles := Build.nested "roles" TArray false (Some "object") (Some roleSchema)).
    assert (Hf : In roles (flatten dialogueSchema)).
    { vm_compute. do 5 right. left. reflexivity. }
    destruct (General sc rx "dialogue" dialogueSchema roles roleSchema data isUpdate existing
                (first :: rest) r eq_refl Hf eq_refl eq_refl eq_refl eq_refl Hget Hr)
      as [errs [Hv [Hin Hinv]]].
    pose proof (array_item_required rx roles roleSchema (first :: rest) errs 0 first
                  "roleId" (Build.sub TString true) value
                  eq_refl eq_refl eq_refl Hv eq_refl
                  (or_introl eq_refl) eq_refl Hp Hb) as Hmsg.
    split; [apply Hin, Hmsg|exact (Hinv _ Hmsg)].
Qed.

Lemma nested_array_items_validated_witness :
  get [("name", JStr "Intro"); ("roles", JArr [JObj [("rolePreset", JStr "guide")]])] "roles"
  = Some (JArr [JObj [("rolePreset", JStr "guide")]])
  /\ getProp (JObj [("rolePreset", JStr "guide")]) "roleId" = Normal None
  /\ validateData bareScenario anyMatch "dialogue"
       [("name", JStr "Intro"); ("roles", JArr [JObj [("rolePreset", JStr "guide")]])]
       false None
     = Normal {| valid := false;
                 errors := ["Field 'roles[0].roleId' is required"];
                 warnings := [] |}
  /\ In "Field 'roles[0].roleId' is required"
        (errors {| valid := false;
                   errors := ["Field 'roles[0].roleId' is required"];
                   warnings := [] |}).
Proof.
  split; [reflexivity|]. split; [reflexivity|]. split; [reflexivity|].
  destruct nested_array_items_validated as [_ Hdialogue].
  apply (Hdialogue bareScenario anyMatch
           [("name", JStr "Intro"); ("roles", JArr [JObj [("rolePreset", JStr "guide")]])]
           false None (JObj [("rolePreset", JStr "guide")]) [] None
           {| valid := false;
              errors := ["Field 'roles[0].roleId' is required"];
              warnings := [] |}); reflexivity.
Defined.

(** In the three tables every declared field that is required and not
    generated is still required and not generated after flattening: the
    first occurrence of its name, the one validation uses, agrees with it. *)
Lemma declared_required_fields_survive_flattening :
  forallb
    (fun schema =>
       forallb
         (fun f =>
            implb (f_required f && negb (f_generated f))
              (existsb
                 (fun g => String.eqb (f_name g) (f_name f)
                           && f_required g && negb (f_generated g))
                 (flatten schema)))
         (collect schema))
    [characterSchema; dialogueSchema; environmentSchema] = true.
Proof. vm_compute. reflexivity. Qed.

(** The third and fourth concrete scenarios of the specification. *)
Example scenario_update_omits_voiceId :
  validateData bareScenario anyMatch "character" [("name", JStr "Bob")] true None
  = Normal {| valid := true; errors := []; warnings := [] |}.
Proof. vm_compute. reflexivity. Qed.

Example scenario_create_missing_voiceId :
  validateData bareScenario anyMatch "character" [("name", JStr "Bob")] false None
  = Normal {| valid := false;
              errors := ["Field 'voiceId' is required"; "Field 'status' is required"];
              warnings := [] |}.
Proof. vm_compute. reflexivity. Qed.

(** A [null] element in [roles] makes the nested check read a property of
    [null]: the validator raises and returns no report. *)
Example null_item_raises :
  validateData bareScenario anyMatch "dialogue"
    [("name", JStr "Intro"); ("roles", JArr [JNull])] false None
  = TypeError.
Proof. vm_compute. reflexivity. Qed.

End ValidatorSpec.

Module TallyFacts.
Import Notions.

Lemma keys_present (vs : list (string * Count)) (k : string) :
  existsb (fun e => String.eqb (fst e) k) vs = true <-> In k (map fst vs).
Proof.
  rewrite existsb_exists, in_map_iff. split.
  - intros [e [He Hk]]. exists e. split; [|exact He].
    destruct (String.eqb_spec (fst e) k); [assumption|discriminate].
  - intros [e [Hk He]]. exists e. split; [exact He|]. rewrite Hk. apply String.eqb_refl.
Qed.


Lemma own_in (vs : list (string * Count)) (k : string) (c : Count) :
  own vs k = Some c -> In (k, c) vs.
Proof.
  induction vs as [|[a x] vs IH]; simpl; [discriminate|].
  destruct (String.eqb_spec a k) as [->|_].
  - intros [= ->]. left. reflexivity.
  - intros H. right. apply IH, H.
Qed.



(** *** A new own property *)

Lemma placeIndex_perm (i : N) (k : string) (c : Count) (vs : list (string * Count)) :
  Permutation (placeIndex i k c vs) ((k, c) :: vs).
Proof.
  induction vs as [|e vs IH]; simpl; [reflexivity|].
  destruct (arrayIndex (fst e)) as [j|]; [destruct (j <? i)%N|]; try reflexivity.
  rewrite IH. apply perm_swap.
Qed.

Lemma place_perm (k : string) (c : Count) (vs : list (string * Count)) :
  Permutation (place k c vs) ((k, c) :: vs).
Proof.
  unfold place. destruct (arrayIndex k) as [i|]; [apply placeIndex_perm|].
  symmetry. apply Permutation_cons_append.
Qed.




(** *** An own property that is assigned again *)

Lemma keys_update (vs : list (string * Count)) (k : string) (c : Count) :
  map fst (map (fun e => if String.eqb (fst e) k then (fst e, c) else e) vs) = map fst vs.
Proof.
  rewrite map_map. apply map_ext. intros e. destruct (String.eqb (fst e) k); reflexivity.
Qed.



(** *** Assignments to [versions] *)


Lemma write_entries (k : string) (c : Count) (vs : list (string * Count))
    (e : string * Count) :
  In e (write k c vs) -> (e = (k, c) /\ k <> "__proto__") \/ In e vs.
Proof.
  unfold write. destruct (String.eqb_spec k "__proto__") as [|Hk]; [tauto|].
  destruct (existsb _ vs) eqn:E.
  - intros H. apply in_map_iff in H as [[a x] [He Hin]]. cbn [fst] in He.
    destruct (String.eqb_spec a k) as [->|_]; subst e; [left; split; [reflexivity|exact Hk]|].
    right. exact Hin.
  - intros H. apply (Permutation_in _ (place_perm k c vs)) in H.
    destruct H as [<-|H]; [left; split; [reflexivity|exact Hk]|right; exact H].
Qed.

Lemma write_keys (k : string) (c : Count) (vs : list (string * Count)) (k' : string) :
  In k' (map fst (write k c vs)) <-> In k' (map fst vs) \/ (k' = k /\ k <> "__proto__").
Proof.
  unfold write. destruct (String.eqb_spec k "__proto__") as [|Hk]; [tauto|].
  destruct (existsb _ vs) eqn:E.
  - rewrite keys_update. apply keys_present in E. split; [tauto|].
    intros [H|[-> _]]; assumption.
  - split.
    + intros H. apply (Permutation_in _ (Permutation_map fst (place_perm k c vs))) in H.
      destruct H as [<-|H]; [right; split; [reflexivity|exact Hk]|left; exact H].
    + intros H.
      apply (Permutation_in _ (Permutation_sym (Permutation_map fst (place_perm k c vs)))).
      destruct H as [H|[-> _]]; [right; exact H|left; reflexivity].
Qed.


(** *** One step of the tally *)

Lemma inherited_proto : inherited "__proto__" = true.
Proof. reflexivity. Qed.


Lemma builtin_ordinary (k : string) : inherited k = false -> builtin k = None.
Proof.
  intros H. unfold builtin. rewrite H.
  destruct (String.eqb k "__proto__"); [reflexivity|].
  destruct (String.eqb_spec k "constructor") as [->|_]; [discriminate H|reflexivity].
Qed.

Lemma builtin_inherited (k name : string) : builtin k = Some name -> inherited k = true.
Proof.
  unfold builtin. destruct (String.eqb k "__proto__"); [discriminate|].
  destruct (String.eqb_spec k "constructor") as [->|_]; [reflexivity|].
  destruct (inherited k); [reflexivity|discriminate].
Qed.

Lemma builtin_none (k : string) :
  builtin k = None -> k <> "__proto__" -> inherited k = false.
Proof.
  unfold builtin. destruct (String.eqb_spec k "__proto__"); [congruence|].
  destruct (String.eqb k "constructor"); [discriminate|].
  destruct (inherited k); [discriminate|reflexivity].
Qed.

Lemma append_nonempty (s t : string) : t <> "" -> s +:+ t <> "".
Proof. destruct s; simpl; [tauto|discriminate]. Qed.

Lemma bump_proto (vs : list (string * Count)) : bump vs "__proto__" = vs.
Proof. reflexivity. Qed.

Lemma bump_keys (vs : list (string * Count)) (k k' : string) :
  In k' (map fst (bump vs k)) <-> In k' (map fst vs) \/ (k' = k /\ k <> "__proto__").
Proof. apply write_keys. Qed.


(** What one step records under the stamp. *)
Lemma plusOne_sane (vs : list (string * Count)) (k : string) :
  sane vs -> k <> "__proto__" ->
  positive (plusOne (read vs k))
  /\ (inherited k = false -> exists n, plusOne (read vs k) = Num n)
  /\ (inherited k = true -> exists s, plusOne (read vs k) = Text s).
Proof.
  intros Hs Hk. unfold read. destruct (String.eqb_spec k "__proto__") as [|_]; [congruence|].
  destruct (own vs k) as [c|] eqn:Ho.
  - destruct (Hs k c (own_in _ _ _ Ho)) as (_ & Hpos & Hnum & Htext).
    destruct c as [n|s]; cbn [plusOne].
    + split; [simpl; lia|]. split; [intros _; eexists; reflexivity|].
      intros Hi. destruct (Htext Hi) as [s Hs']. discriminate.
    + simpl in Hpos. destruct (String.eqb_spec s ""); [congruence|].
      split; [simpl; apply append_nonempty; discriminate|]. split.
      * intros Hi. destruct (Hnum Hi) as [m Hm]. discriminate.
      * intros _. eexists; reflexivity.
  - destruct (builtin k) as [name|] eqn:Hb; cbn [plusOne].
    + pose proof (builtin_inherited _ _ Hb) as Hi.
      split; [simpl; apply append_nonempty; discriminate|]. split.
      * intros Hf. congruence.
      * intros _. eexists; reflexivity.
    + pose proof (builtin_none _ Hb Hk) as Hi.
      split; [simpl; lia|]. split; [intros _; eexists; reflexivity|]. intros Ht. congruence.
Qed.

Lemma bump_sane (vs : list (string * Count)) (k : string) :
  sane vs -> sane (bump vs k).
Proof.
  intros Hs k' c' Hin. apply write_entries in Hin as [[[= -> ->] Hk]|Hin]; [|apply Hs, Hin].
  destruct (plusOne_sane vs k Hs Hk) as (Hpos & Hnum & Htext).
  split; [exact Hk|]. split; [exact Hpos|]. split; assumption.
Qed.



(** *** Adding up the numbers *)







(** A sum that takes in a positive count is positive. *)
Lemma plus_positive (l : list (string * Count)) (acc : Count) :
  (forall e, In e l -> positive (snd e)) ->
  (exists a, acc = Num a) \/ positive acc ->
  l <> [] ->
  positive (fold_left (fun sum e => plus sum (snd e)) l acc).
Proof.
  revert acc. induction l as [|e l IH]; intros acc Hall Hacc Hne; [congruence|].
  cbn [fold_left].
  assert (Hstep : positive (plus acc (snd e))).
  { pose proof (Hall e (or_introl eq_refl)) as He.
    destruct acc as [a|s], (snd e) as [n|t]; simpl in *.
    - lia.
    - apply append_nonempty, He.
    - destruct Hacc as [[a Ha]|Hs]; [discriminate|]. destruct s; [congruence|discriminate].
    - apply append_nonempty, He. }
  destruct l as [|e' l]; [exact Hstep|].
  apply IH; [intros x Hx; apply Hall; right; exact Hx|right; exact Hstep|discriminate].
Qed.

(** *** The tally of a snapshot *)

Section Fold.
Context {A : Type} (key : A -> string).

Lemma fold_bump_sane (snap : list A) (vs : list (string * Count)) :
  sane vs -> sane (fold_left (fun acc e => bump acc (key e)) snap vs).
Proof.
  revert vs. induction snap as [|e snap IH]; intros vs H; [exact H|].
  simpl. apply IH, bump_sane, H.
Qed.


Lemma fold_bump_keys (snap : list A) (vs : list (string * Count)) (k : string) :
  In k (map fst (fold_left (fun acc e => bump acc (key e)) snap vs))
  <-> In k (map fst vs) \/ (In k (map key snap) /\ k <> "__proto__").
Proof.
  revert vs. induction snap as [|e snap IH]; intros vs; simpl; [tauto|].
  rewrite IH, bump_keys. split.
  - intros [[H|[-> H]]|[H1 H2]]; tauto.
  - intros [H|[[<-|H1] H2]]; tauto.
Qed.




End Fold.

End TallyFacts.

Module StatusSpec.
Import ObjFacts TallyFacts Notions.




Lemma sane_empty : sane [].
Proof. intros k c []. Qed.

Lemma filter_nonempty (q : string -> bool) (vs : list (string * Count)) :
  existsb q (map fst vs) = true <-> List.filter (fun e => q (fst e)) vs <> [].
Proof.
  induction vs as [|e vs IH]; simpl; [split; [discriminate|congruence]|].
  destruct (q (fst e)); simpl; [split; [discriminate|reflexivity]|exact IH].
Qed.

(** The version [getMigrationStatus] compares the stamps with is the
    version of the registered schema. *)
Lemma currentVersionOf_registered (sc : Schema) (coll : string) (schema : Schema) :
  getSchema sc (dropLast coll) = Some schema -> s_version schema <> "" ->
  currentVersionOf sc coll = s_version schema.
Proof.
  intros Hs Ht. unfold currentVersionOf. rewrite Hs.
  destruct (String.eqb_spec (s_version schema) ""); [congruence|reflexivity].
Qed.


Section Status.
Variable sc : Schema.
Variable coll : string.






(** [needsMigration] is set on account of some document. *)
Lemma statusOf_needs_sound (snap : list (string * Obj)) :
  needsMigration (statusOf sc coll snap) = true ->
  exists e, In e snap /\ versionKey (snd e) <> currentVersionOf sc coll.
Proof.
  cbn [statusOf needsMigration]. rewrite existsb_exists. intros [k [Hk Hne]].
  apply (fold_bump_keys (fun e : string * Obj => versionKey (snd e))) in Hk
    as [[]|[Hk _]].
  apply in_map_iff in Hk as [e [<- He]]. exists e. split; [exact He|].
  destruct (String.eqb_spec (versionKey (snd e)) (currentVersionOf sc coll));
    [discriminate|assumption].
Qed.



(** Nothing to migrate means a count of zero, and conversely, whatever
    the stamps are. *)
Lemma statusOf_clean (snap : list (string * Obj)) :
  needsMigration (statusOf sc coll snap) = false
  <-> outdatedCount (statusOf sc coll snap) = Num 0.
Proof.
  cbn [statusOf needsMigration outdatedCount].
  set (vs := fold_left (fun vs e => bump vs (versionKey (snd e))) snap []).
  set (q := fun v => negb (String.eqb v (currentVersionOf sc coll))).
  change (fun e : string * Count => negb (String.eqb (fst e) (currentVersionOf sc coll)))
    with (fun e : string * Count => q (fst e)).
  pose proof (filter_nonempty q vs) as Hq.
  destruct (List.filter (fun e => q (fst e)) vs) as [|x l] eqn:El.
  - split; [reflexivity|]. intros _.
    destruct (existsb q (map fst vs)); [|reflexivity].
    exfalso. apply (proj1 Hq); reflexivity.
  - assert (Hneed : existsb q (map fst vs) = true) by (apply Hq; discriminate).
    rewrite Hneed. split; [discriminate|]. intros H0. exfalso.
    assert (Hpos : positive (fold_left (fun sum e => plus sum (snd e)) (x :: l) (Num 0))).
    { apply plus_positive; [|left; eexists; reflexivity|discriminate].
      intros e He. rewrite <- El in He. apply List.filter_In in He as [He _].
      assert (Hs : sane vs)
        by (apply (fold_bump_sane (fun e : string * Obj => versionKey (snd e)));
            exact sane_empty).
      destruct e as [k c]. destruct (Hs k c He) as (_ & Hp & _). exact Hp. }
    rewrite H0 in Hpos. simpl in Hpos. lia.
Qed.

End Status.

(** Claim C7: the code breaks it. The tally [versions] is a plain object,
    so a stamp that is the name of a member of [Object.prototype] is not
    counted as the others are. A dialogue that a caller has stamped
    [__proto__] through the PUT route is counted in [totalDocuments] but
    recorded nowhere in [versionBreakdown], whose counts then sum to 0, and
    it neither sets [needsMigration] nor adds to [outdatedCount], although
    its stamp is not the current version. Beside an unstamped document, a
    document stamped [constructor] is recorded with a string for its count
    and makes [outdatedCount] a string. *)
Lemma status_miscounts_inherited_stamps :
  let stored :=
    Db.docSet "dialogues" "d-1"
      [("id", JStr "d-1"); ("name", JStr "Intro"); ("companyId", JStr "acme");
       ("schemaVersion", JStr "1.0")] ∅ in
  let restamped :=
    snd (Routes.putHandler bareScenario anyMatch "dialogue" "dialogues" "dialogue" "d-1"
           [("schemaVersion", JStr "__proto__")] "u-1" "acme" "a-2" "later" stored) in
  let dropped :=
    fst (getMigrationStatus bareScenario "dialogues" None {| docs := restamped; log := [] |}) in
  let mixed :=
    statusOf bareScenario "dialogues"
      [("d-1", [("name", JStr "Intro"); ("schemaVersion", JStr "constructor")]);
       ("d-2", [("name", JStr "Outro")])] in
  (Db.docRead restamped "dialogues" "d-1"
   = Some [("id", JStr "d-1"); ("name", JStr "Intro"); ("companyId", JStr "acme");
           ("schemaVersion", JStr "__proto__"); ("updatedAt", JStr "later");
           ("updatedBy", JStr "u-1")]
   /\ totalDocuments dropped = 1
   /\ currentSchemaVersion dropped = "1.0"
   /\ versionBreakdown dropped = []
   /\ sumOf (versionBreakdown dropped) = Num 0
   /\ needsMigration dropped = false
   /\ outdatedCount dropped = Num 0)
  /\ (totalDocuments mixed = 2
      /\ versionBreakdown mixed
         = [("constructor", Text "function Object() { [native code] }1"); ("1.0", Num 1)]
      /\ outdatedCount mixed = Text "0function Object() { [native code] }1").
Proof. vm_compute. repeat split. Qed.



End StatusSpec.

Module MigrationSpec.
Import ObjFacts TallyFacts StatusSpec Notions.

Section Engine.
Variable sc : Schema.
Variable clock : nat -> string.

(** What [migrateDocument] sends to the store: the read, then at most one
    update, and no update at all in a dry run. *)
Lemma migrateDocument_trace (coll id : string) (dryRun : bool) (w : World) :
  exists rest,
    log (snd (migrateDocument sc clock coll id dryRun w)) = log w ++ DocGet coll id :: rest
    /\ forallb (fun r => negb (isQuery r)) rest = true
    /\ (dryRun = true -> rest = [])
    /\ (dryRun = true -> docs (snd (migrateDocument sc clock coll id dryRun w)) = docs w).
Proof.
  unfold migrateDocument. simpl.
  destruct (match docs w !! coll with Some c => c !! id | None => None end) as [data|];
    [|exists []; simpl; auto].
  destruct (getSchema sc (dropLast coll)) as [schema|]; [|exists []; simpl; auto].
  destruct (JS.eqb (stampedVersion data) (JStr (s_version schema))); [exists []; simpl; auto|].
  destruct (modified (applyDefaults data schema)), dryRun; simpl;
    try (exists []; simpl; auto; fail);
    eexists; (split; [rewrite <- app_assoc; reflexivity|]); simpl;
    repeat split; auto; discriminate.
Qed.

Lemma migrateEach_trace (coll : string) (dryRun : bool) (snap : list (string * Obj)) (w : World) :
  exists rest,
    log (snd (migrateEach sc clock coll dryRun snap w)) = log w ++ rest
    /\ forallb (fun r => negb (isQuery r)) rest = true
    /\ map row_id (fst (migrateEach sc clock coll dryRun snap w)) = map fst snap
    /\ (dryRun = true ->
        forallb (fun r => negb (isUpdate r)) rest = true
        /\ docs (snd (migrateEach sc clock coll dryRun snap w)) = docs w).
Proof.
  revert w. induction snap as [|[id data] snap IH]; intros w.
  - exists []. simpl. rewrite app_nil_r. auto.
  - simpl.
    destruct (migrateDocument_trace coll id dryRun w) as [r1 [Hlog1 [Hq1 [Hdry1 Hdocs1]]]].
    destruct (migrateDocument sc clock coll id dryRun w) as [result w1] eqn:Hdoc.
    destruct (IH w1) as [r2 [Hlog2 [Hq2 [Hids Hdry2]]]].
    destruct (migrateEach sc clock coll dryRun snap w1) as [rows w2] eqn:Heach.
    simpl in *. exists (DocGet coll id :: r1 ++ r2). split; [|split; [|split]].
    + rewrite Hlog2, Hlog1, <- app_assoc. reflexivity.
    + simpl. rewrite forallb_app, Hq1, Hq2. reflexivity.
    + rewrite Hids. reflexivity.
    + intros Hd. destruct (Hdry2 Hd) as [Hu2 Hdocs2]. split.
      * rewrite (Hdry1 Hd). simpl. exact Hu2.
      * rewrite Hdocs2. apply Hdocs1. exact Hd.
Qed.

Lemma migrateDocument_calls (coll id : string) (dryRun : bool) (w : World) :
  exists call,
    log (snd (migrateDocument sc clock coll id dryRun w)) = log w ++ call
    /\ oneCall coll dryRun id call.
Proof.
  unfold migrateDocument, oneCall. simpl.
  destruct (match docs w !! coll with Some c => c !! id | None => None end) as [data|];
    [|eexists; split; [reflexivity|left; reflexivity]].
  destruct (getSchema sc (dropLast coll)) as [schema|];
    [|eexists; split; [reflexivity|left; reflexivity]].
  destruct (JS.eqb (stampedVersion data) (JStr (s_version schema)));
    [eexists; split; [reflexivity|left; reflexivity]|].
  destruct (modified (applyDefaults data schema)), dryRun; simpl;
    try (eexists; split; [reflexivity|left; reflexivity]);
    (eexists; split; [rewrite <- app_assoc; reflexivity|]);
    right; split; [reflexivity| |reflexivity|]; eexists; reflexivity.
Qed.

Lemma migrateEach_calls (coll : string) (dryRun : bool) (snap : list (string * Obj))
    (w : World) :
  exists calls,
    log (snd (migrateEach sc clock coll dryRun snap w)) = log w ++ concat calls
    /\ Forall2 (fun e call => oneCall coll dryRun (fst e) call) snap calls.
Proof.
  revert w. induction snap as [|[id data] snap IH]; intros w.
  - exists []. simpl. rewrite app_nil_r. split; [reflexivity|constructor].
  - simpl.
    destruct (migrateDocument_calls coll id dryRun w) as [call [Hlog1 Hcall]].
    destruct (migrateDocument sc clock coll id dryRun w) as [result w1] eqn:Hdoc.
    destruct (IH w1) as [calls [Hlog2 Hcalls]].
    destruct (migrateEach sc clock coll dryRun snap w1) as [rows w2] eqn:Heach.
    simpl in *. exists (call :: calls). split.
    + rewrite Hlog2, Hlog1, <- app_assoc. reflexivity.
    + constructor; assumption.
Qed.

End Engine.

(** Claim C4. For every collection, document id and store,
    [migrateDocument] with [dryRun = true] leaves the store as it was: the
    only request it sends is the read of the document, not even the
    version-only update; and its report is the report of the real run with
    the [dryRun] flag set, so it describes the would-be change set. A dry
    run of [migrateCollection] leaves the store as it was too. *)
Theorem dry_run_writes_nothing
    (sc : Schema) (clock : nat -> string) (coll id : string) (w : World) :
  docs (snd (migrateDocument sc clock coll id true w)) = docs w
  /\ log (snd (migrateDocument sc clock coll id true w)) = log w ++ [DocGet coll id]
  /\ fst (migrateDocument sc clock coll id true w)
     = withDryRun true (fst (migrateDocument sc clock coll id false w))
  /\ (forall companyId,
        docs (snd (migrateCollection sc clock coll companyId true w)) = docs w).
Proof.
  split; [|split; [|split]].
  - destruct (migrateDocument_trace sc clock coll id true w) as [rest [_ [_ [_ H]]]].
    apply H. reflexivity.
  - destruct (migrateDocument_trace sc clock coll id true w) as [rest [Hlog [_ [Hrest _]]]].
    rewrite Hlog, (Hrest eq_refl). reflexivity.
  - unfold migrateDocument. simpl.
    destruct (match docs w !! coll with Some c => c !! id | None => None end) as [data|];
      [|reflexivity].
    destruct (getSchema sc (dropLast coll)) as [schema|]; [|reflexivity].
    destruct (JS.eqb (stampedVersion data) (JStr (s_version schema))); [reflexivity|].
    destruct (modified (applyDefaults data schema)); reflexivity.
  - intros companyId. unfold migrateCollection. simpl.
    destruct (migrateEach_trace sc clock coll true
                (select (collectionQuery coll companyId) (docs w))
                (issue (QueryGet (collectionQuery coll companyId)) w))
      as [rest [_ [_ [_ Hdry]]]].
    destruct (migrateEach sc clock coll true _ _) as [rows w2].
    simpl in *. apply Hdry. reflexivity.
Qed.

(** Claim C6 fails as stated: on a store with three scenarios,
    [migrateCollection] sends one query without a limit, receives the whole
    collection and then reads the documents one by one. *)
Lemma migrateCollection_fetches_whole_collection :
  log (snd (migrateCollection scenarioV11 fixedClock "scenarios" None true sampleWorld))
  = [ QueryGet {| q_collection := "scenarios"; q_where := None; q_limit := None |};
      DocGet "scenarios" "s1"; DocGet "scenarios" "s2"; DocGet "scenarios" "s3" ]
  /\ c_total (fst (migrateCollection scenarioV11 fixedClock "scenarios" None true sampleWorld)) = 3.
Proof. vm_compute. split; reflexivity. Qed.

(** Claim C6, amended. [migrateCollection] sends exactly one query, for
    the whole collection (filtered by [companyId] when one is given) and
    without a limit, so the snapshot holds every matching document; it then
    migrates the documents of that snapshot one after the other, in
    snapshot order: the requests after the query are, document by document,
    one read of that document followed by at most one update of it (none in
    a dry run), and the report has one row per document. *)
Theorem migrateCollection_single_query
    (sc : Schema) (clock : nat -> string) (coll : string) (companyId : option string)
    (dryRun : bool) (w : World) :
  let query := collectionQuery coll companyId in
  let out := migrateCollection sc clock coll companyId dryRun w in
  q_limit query = None
  /\ select query (docs w)
     = List.filter (fun e => satisfies (q_where query) (snd e)) (documents (docs w) coll)
  /\ (exists rest,
        log (snd out) = log w ++ QueryGet query :: rest
        /\ forallb (fun r => negb (isQuery r)) rest = true)
  /\ (exists calls,
        log (snd out) = log w ++ QueryGet query :: concat calls
        /\ Forall2
             (fun e call =>
                call = [DocGet coll (fst e)]
                \/ (dryRun = false
                    /\ exists patch,
                         call = [DocGet coll (fst e); DocUpdate coll (fst e) patch]))
             (select query (docs w)) calls)
  /\ map row_id (c_results (fst out)) = map fst (select query (docs w))
  /\ c_total (fst out) = length (select query (docs w)).
Proof.
  intros query out. split; [reflexivity|]. split; [reflexivity|].
  subst out. unfold migrateCollection. simpl.
  destruct (migrateEach_trace sc clock coll dryRun (select query (docs w))
              (issue (QueryGet query) w)) as [rest [Hlog [Hq [Hids _]]]].
  destruct (migrateEach_calls sc clock coll dryRun (select query (docs w))
              (issue (QueryGet query) w)) as [calls [Hlogc Hcalls]].
  fold query.
  destruct (migrateEach sc clock coll dryRun (select query (docs w)) (issue (QueryGet query) w))
    as [rows w2].
  simpl in *. split; [|split; [|split]].
  - exists rest. split; [rewrite Hlog, <- app_assoc; reflexivity|exact Hq].
  - exists calls. split; [rewrite Hlogc, <- app_assoc; reflexivity|exact Hcalls].
  - exact Hids.
  - rewrite <- (length_map row_id), Hids, length_map. reflexivity.
Qed.




(** The first two concrete scenarios of the specification, on the sample
    store: a dry run reports the change and leaves the store alone; the
    real run stores the default and the new version. *)
Example scenario_dry_run :
  fst (migrateDocument scenarioV11 fixedClock "scenarios" "s1" true sampleWorld)
  = Migrated (JStr "1.0") "1.1" ["status"] true
  /\ docs (snd (migrateDocument scenarioV11 fixedClock "scenarios" "s1" true sampleWorld))
     = docs sampleWorld.
Proof. vm_compute. split; reflexivity. Qed.

Example scenario_real_run :
  fst (docGet "scenarios" "s1"
         (snd (migrateDocument scenarioV11 fixedClock "scenarios" "s1" false sampleWorld)))
  = Some [("name", JStr "Intro"); ("status", JStr "draft");
          ("schemaVersion", JStr "1.1"); ("updatedAt", JStr "2025-01-01T00:00:00.000Z")].
Proof. vm_compute. reflexivity. Qed.

Example scenario_status :
  fst (getMigrationStatus scenarioV11 "scenarios" None sampleWorld)
  = {| st_collection := "scenarios";
       currentSchemaVersion := "1.1";
       totalDocuments := 3;
       versionBreakdown := [("1.0", Num 2); ("1.1", Num 1)];
       needsMigration := true;
       outdatedCount := Num 2 |}.
Proof. vm_compute. reflexivity. Qed.

End MigrationSpec.

(* ===================================================================== *)
(** ** Flattening a schema                                                *)
(* ===================================================================== *)

Module FlattenProps.
Import JS Registry Validator Firestore Migration Tables Examples.
Import ObjFacts Notions.

Lemma fieldMapAdd_keyed (m : list (string * Field)) (f : Field) :
  keyed m -> keyed (fieldMapAdd m f).
Proof.
  intros H. unfold fieldMapAdd. destruct (existsb _ m); [exact H|].
  intros e He. apply in_app_or in He as [He|[<-|[]]]; [apply H, He|reflexivity].
Qed.

Lemma fieldMapAdd_nodup (m : list (string * Field)) (f : Field) :
  List.NoDup (map fst m) -> List.NoDup (map fst (fieldMapAdd m f)).
Proof.
  intros H. unfold fieldMapAdd. destruct (existsb _ m) eqn:E; [exact H|].
  rewrite map_app. apply List.NoDup_app; [exact H|constructor; [intros []|constructor]|].
  intros k Hk [<-|[]]. apply in_map_iff in Hk as [e [Hk He]].
  assert (existsb (fun e => String.eqb (fst e) (f_name f)) m = true); [|congruence].
  apply existsb_exists. exists e. split; [exact He|]. rewrite Hk. apply String.eqb_refl.
Qed.

Lemma find_named_app (name : string) (a b : list Field) :
  List.find (named name) (a ++ b)
  = match List.find (named name) a with
    | Some f => Some f
    | None => List.find (named name) b
    end.
Proof.
  induction a as [|x a IH]; simpl; [reflexivity|]. destruct (named name x); [reflexivity|exact IH].
Qed.

Lemma find_named_present (m : list (string * Field)) (name : string) :
  keyed m ->
  existsb (fun e => String.eqb (fst e) name) m = true ->
  exists f, List.find (named name) (map snd m) = Some f.
Proof.
  intros Hk. induction m as [|e m IH]; simpl; [discriminate|].
  intros H. unfold named at 1. rewrite <- (Hk e) by (left; reflexivity).
  destruct (String.eqb (fst e) name); [eexists; reflexivity|].
  apply IH; [intros x Hx; apply Hk; right; exact Hx|exact H].
Qed.

Lemma find_named_absent (m : list (string * Field)) (name : string) :
  keyed m ->
  existsb (fun e => String.eqb (fst e) name) m = false ->
  List.find (named name) (map snd m) = None.
Proof.
  intros Hk. induction m as [|e m IH]; simpl; [reflexivity|].
  intros H. apply orb_false_elim in H as [He Hm].
  unfold named at 1. rewrite <- (Hk e) by (left; reflexivity). rewrite He.
  apply IH; [intros x Hx; apply Hk; right; exact Hx|exact Hm].
Qed.

Lemma find_fieldMapAdd (m : list (string * Field)) (f : Field) (name : string) :
  keyed m ->
  List.find (named name) (map snd (fieldMapAdd m f))
  = match List.find (named name) (map snd m) with
    | Some g => Some g
    | None => if named name f then Some f else None
    end.
Proof.
  intros Hk. unfold fieldMapAdd.
  destruct (existsb (fun e => String.eqb (fst e) (f_name f)) m) eqn:E.
  - destruct (List.find (named name) (map snd m)) eqn:Hf; [reflexivity|].
    unfold named at 1. destruct (String.eqb_spec (f_name f) name) as [Hn|]; [|reflexivity].
    rewrite Hn in E. destruct (find_named_present m name Hk E) as [g Hg]. congruence.
  - rewrite map_app, find_named_app. simpl. reflexivity.
Qed.

Lemma find_fold (l : list Field) (m : list (string * Field)) (name : string) :
  keyed m ->
  List.find (named name) (map snd (fold_left fieldMapAdd l m))
  = match List.find (named name) (map snd m) with
    | Some g => Some g
    | None => List.find (named name) l
    end.
Proof.
  revert m. induction l as [|f l IH]; intros m Hk; simpl.
  - destruct (List.find _ _); reflexivity.
  - rewrite IH by (apply fieldMapAdd_keyed, Hk). rewrite find_fieldMapAdd by exact Hk.
    destruct (List.find (named name) (map snd m)); [reflexivity|].
    destruct (named name f); reflexivity.
Qed.

Lemma fold_keyed (l : list Field) (m : list (string * Field)) :
  keyed m -> keyed (fold_left fieldMapAdd l m).
Proof.
  revert m. induction l as [|f l IH]; intros m H; [exact H|]. simpl. apply IH, fieldMapAdd_keyed, H.
Qed.

Lemma fold_nodup (l : list Field) (m : list (string * Field)) :
  List.NoDup (map fst m) -> List.NoDup (map fst (fold_left fieldMapAdd l m)).
Proof.
  revert m. induction l as [|f l IH]; intros m H; [exact H|]. simpl. apply IH, fieldMapAdd_nodup, H.
Qed.

Lemma flatten_names_nodup (schema : Schema) : List.NoDup (map f_name (flatten schema)).
Proof.
  unfold flatten. rewrite map_map.
  assert (Hk : keyed (fold_left fieldMapAdd (collect schema) [])) by (apply fold_keyed; intros e []).
  rewrite (map_ext_in _ fst).
  - apply fold_nodup. constructor.
  - intros e He. symmetry. apply Hk, He.
Qed.

Lemma flatten_find (schema : Schema) (name : string) :
  List.find (named name) (flatten schema) = List.find (named name) (collect schema).
Proof. unfold flatten. rewrite find_fold by (intros e []). reflexivity. Qed.

(** Property X1. The field list that [validateData] and [sanitizeData] work
    from holds one descriptor per field name: the names of the flattened
    fields are pairwise distinct, the descriptor kept for a name is the
    first one declared under it (sections first, then [fields], then
    [listFields]) so that a later declaration of the same name is ignored,
    every flattened field is a declared one and every declared name is
    represented. *)
Theorem flatten_first_declaration_wins (schema : Schema) :
  List.NoDup (map f_name (flatten schema))
  /\ (forall name,
        List.find (named name) (flatten schema) = List.find (named name) (collect schema))
  /\ (forall f, In f (flatten schema) -> In f (collect schema))
  /\ (forall f, In f (collect schema) ->
                exists g, In g (flatten schema) /\ f_name g = f_name f).
Proof.
  split; [apply flatten_names_nodup|]. split; [apply flatten_find|]. split.
  - intros f Hf.
    assert (H : exists g, List.find (named (f_name f)) (flatten schema) = Some g /\ g = f).
    { pose proof (flatten_names_nodup schema) as Hnd. revert Hf Hnd.
      generalize (flatten schema). intros l. induction l as [|x l IH]; [intros []|].
      simpl. intros [->|Hin] Hnd.
      - exists f. unfold named. rewrite String.eqb_refl. split; reflexivity.
      - apply List.NoDup_cons_iff in Hnd as [Hx Hnd]. unfold named at 1.
        destruct (String.eqb_spec (f_name x) (f_name f)) as [E|_].
        + exfalso. apply Hx. rewrite E. apply in_map. exact Hin.
        + apply IH; assumption. }
    destruct H as [g [Hg ->]]. rewrite flatten_find in Hg.
    apply List.find_some in Hg as [Hg _]. exact Hg.
  - intros f Hf.
    destruct (List.find (named (f_name f)) (collect schema)) as [g|] eqn:Hg.
    + rewrite <- flatten_find in Hg. apply List.find_some in Hg as [Hin Hn].
      exists g. split; [exact Hin|]. unfold named in Hn.
      destruct (String.eqb_spec (f_name g) (f_name f)); [assumption|discriminate].
    + exfalso. pose proof (List.find_none _ _ Hg f Hf) as Hn. unfold named in Hn.
      rewrite String.eqb_refl in Hn. discriminate.
Qed.

End FlattenProps.

(* ===================================================================== *)
(** ** The sanitizer                                                      *)
(* ===================================================================== *)

Module SanitizerProps.
Import JS Registry Validator Firestore Migration Tables Examples.
Import ObjFacts GatherFacts Notions FlattenProps.

Lemma filter_filter {A : Type} (p r : A -> bool) (l : list A) :
  List.filter r (List.filter p l) = List.filter (fun x => p x && r x) l.
Proof.
  induction l as [|x l IH]; simpl; [reflexivity|].
  destruct (p x); simpl; [destruct (r x); rewrite IH; reflexivity|exact IH].
Qed.

Lemma sanitize_fold_filter (fs : list Field) (data : Obj) :
  fold_left
    (fun sanitized field =>
       if stripped field then JS.remove (f_name field) sanitized else sanitized) fs data
  = List.filter
      (fun e => negb (existsb (fun f => stripped f && String.eqb (fst e) (f_name f)) fs)) data.
Proof.
  revert data. induction fs as [|f fs IH]; intros data; simpl.
  - induction data as [|e data IHd]; simpl; [reflexivity|]. rewrite <- IHd. reflexivity.
  - rewrite IH. destruct (stripped f); simpl.
    + unfold JS.remove. rewrite filter_filter. apply List.filter_ext. intros e.
      rewrite negb_orb. reflexivity.
    + reflexivity.
Qed.

Lemma get_filter_key (p : string -> bool) (o : Obj) (k : string) :
  get (List.filter (fun e => p (fst e)) o) k = if p k then get o k else None.
Proof.
  induction o as [|[a x] o IH]; simpl; [destruct (p k); reflexivity|].
  destruct (p a) eqn:Hp; simpl.
  - destruct (String.eqb_spec a k) as [->|Hne]; [rewrite Hp; reflexivity|exact IH].
  - destruct (String.eqb_spec a k) as [->|Hne]; [rewrite IH, Hp; reflexivity|exact IH].
Qed.

Lemma sanitize_filter (sc : Schema) (type : string) (schema : Schema) (data : Obj) :
  getSchema sc type = Some schema ->
  sanitizeData sc type data
  = List.filter (fun e => negb (strippedName schema (fst e))) data.
Proof.
  intros Hs. unfold sanitizeData. rewrite Hs. apply sanitize_fold_filter.
Qed.

Lemma get_sanitize (sc : Schema) (type : string) (schema : Schema) (data : Obj) (k : string) :
  getSchema sc type = Some schema ->
  get (sanitizeData sc type data) k = if strippedName schema k then None else get data k.
Proof.
  intros Hs. rewrite (sanitize_filter sc type schema data Hs).
  rewrite (get_filter_key (fun k => negb (strippedName schema k))).
  destruct (strippedName schema k); reflexivity.
Qed.

Lemma has_filter_key (p : string -> bool) (o : Obj) (k : string) :
  has (List.filter (fun e => p (fst e)) o) k = p k && has o k.
Proof.
  unfold has. induction o as [|[a x] o IH]; simpl; [rewrite andb_false_r; reflexivity|].
  destruct (p a) eqn:Hp; simpl; rewrite IH;
    destruct (String.eqb_spec a k) as [->|Hne]; simpl; try reflexivity.
  - rewrite Hp. reflexivity.
  - rewrite Hp. reflexivity.
Qed.

Lemma has_sanitize (sc : Schema) (type : string) (schema : Schema) (data : Obj) (k : string) :
  getSchema sc type = Some schema ->
  has (sanitizeData sc type data) k = negb (strippedName schema k) && has data k.
Proof.
  intros Hs. rewrite (sanitize_filter sc type schema data Hs).
  apply (has_filter_key (fun k => negb (strippedName schema k))).
Qed.

(** Property X2. For a registered type, [sanitizeData] returns the entries of
    the payload, in their order, whose key is not the name of a flattened
    field with [editable: false] or [generated]: reading a key of the result
    gives [undefined] for such a name and the payload's value for every other
    key, and the result has no key the payload had not. *)
Theorem sanitize_filters_by_key
    (sc : Schema) (type : string) (schema : Schema) (data : Obj) :
  getSchema sc type = Some schema ->
  sanitizeData sc type data
  = List.filter (fun e => negb (strippedName schema (fst e))) data
  /\ (forall k, get (sanitizeData sc type data) k
                = if strippedName schema k then None else get data k)
  /\ (forall k, has (sanitizeData sc type data) k = true -> has data k = true).
Proof.
  intros Hs. split; [apply sanitize_filter, Hs|]. split.
  - intros k. apply get_sanitize, Hs.
  - intros k. rewrite (has_sanitize sc type schema data k Hs).
    intros H. apply andb_prop in H as [_ H]. exact H.
Qed.

Lemma sanitize_filters_by_key_witness :
  getSchema bareScenario "character" = Some characterSchema
  /\ sanitizeData bareScenario "character"
       [("id", JStr "forged"); ("name", JStr "Bob"); ("mood", JStr "calm");
        ("createdAt", JStr "never")]
     = [("name", JStr "Bob"); ("mood", JStr "calm")].
Proof.
  split; [reflexivity|].
  destruct (sanitize_filters_by_key bareScenario "character" characterSchema
              [("id", JStr "forged"); ("name", JStr "Bob"); ("mood", JStr "calm");
               ("createdAt", JStr "never")] eq_refl) as [H _].
  rewrite H. reflexivity.
Defined.

(** Property X3. [sanitizeData] is idempotent: sanitizing a sanitized payload
    returns it unchanged, whether the type is registered or not. *)
Theorem sanitize_idempotent (sc : Schema) (type : string) (data : Obj) :
  sanitizeData sc type (sanitizeData sc type data) = sanitizeData sc type data.
Proof.
  destruct (getSchema sc type) as [schema|] eqn:Hs.
  - rewrite !(sanitize_filter sc type schema _ Hs). rewrite filter_filter.
    apply List.filter_ext. intros e. apply andb_diag.
  - unfold sanitizeData. rewrite Hs. reflexivity.
Qed.

End SanitizerProps.

(* ===================================================================== *)
(** ** The validator and the server fields                                *)
(* ===================================================================== *)

Module ValidatorProps.
Import JS Registry Validator Firestore Migration Tables Examples.
Import ObjFacts GatherFacts ValidatorSpec Notions FlattenProps SanitizerProps.

Lemma gather_ext {A : Type} (g g' : A -> Completion (list string)) (l : list A) :
  (forall x, In x l -> g x = g' x) -> gather g l = gather g' l.
Proof.
  induction l as [|x l IH]; intros H; [reflexivity|]. simpl.
  rewrite (H x) by (left; reflexivity).
  rewrite IH; [reflexivity|]. intros y Hy. apply H. right. exact Hy.
Qed.


(** The check of a field reads the payload at the field's own key and,
    in update mode, at the key [hasOwnProperty]. *)
Lemma validateField_local (rx : string -> string -> bool) (d1 d2 : Obj) (u : bool) (f : Field) :
  get d1 (f_name f) = get d2 (f_name f) ->
  has d1 (f_name f) = has d2 (f_name f) ->
  u = false \/ has d1 "hasOwnProperty" = has d2 "hasOwnProperty" ->
  validateField rx d1 u f = validateField rx d2 u f.
Proof.
  intros Hg Hh Hcall. unfold validateField, hasOwnProperty. rewrite Hg, Hh.
  destruct Hcall as [Hc|Hc]; rewrite Hc; reflexivity.
Qed.

Lemma validateField_skipped (rx : string -> string -> bool) (d : Obj) (u : bool) (f : Field) :
  skipped f = true -> validateField rx d u f = Normal [].
Proof. unfold skipped, validateField. intros ->. reflexivity. Qed.

Lemma name_unique (l : list Field) (x y : Field) :
  List.NoDup (map f_name l) -> In x l -> In y l -> f_name x = f_name y -> x = y.
Proof.
  induction l as [|z l IH]; [intros _ []|]. simpl. intros Hnd Hx Hy E.
  apply List.NoDup_cons_iff in Hnd as [Hz Hnd].
  destruct Hx as [->|Hx], Hy as [->|Hy].
  - reflexivity.
  - exfalso. apply Hz. rewrite E. apply in_map. exact Hy.
  - exfalso. apply Hz. rewrite <- E. apply in_map. exact Hx.
  - apply IH; assumption.
Qed.

Lemma validateData_local (sc : Schema) (rx : string -> string -> bool) (type : string)
    (schema : Schema) (d1 d2 : Obj) (u : bool) (ex : option Obj) :
  getSchema sc type = Some schema ->
  (forall f, In f (flatten schema) -> skipped f = false ->
             get d1 (f_name f) = get d2 (f_name f) /\ has d1 (f_name f) = has d2 (f_name f)) ->
  u = false \/ has d1 "hasOwnProperty" = has d2 "hasOwnProperty" ->
  validateData sc rx type d1 u ex = validateData sc rx type d2 u ex.
Proof.
  intros Hs H Hcall. unfold validateData. rewrite Hs.
  rewrite (gather_ext (validateField rx d1 u) (validateField rx d2 u)); [reflexivity|].
  intros f Hf. destruct (skipped f) eqn:Hsk.
  - rewrite !validateField_skipped by exact Hsk. reflexivity.
  - destruct (H f Hf Hsk) as [Hg Hh]. apply validateField_local; assumption.
Qed.

Lemma get_remove_other (o : Obj) (k k' : string) :
  k <> k' -> get (JS.remove k o) k' = get o k'.
Proof.
  intros Hne. unfold JS.remove.
  rewrite (get_filter_key (fun a => negb (String.eqb a k))).
  destruct (String.eqb_spec k' k); [congruence|reflexivity].
Qed.

(** In update mode a skipped field called [hasOwnProperty] is not
    ignored: its key shadows the method that the required checks of the
    other fields call. *)
Example shadowing_field_is_not_ignored :
  skipped (Build.server "hasOwnProperty" TString true) = true
  /\ validateData shadowingSchema anyMatch "scenario" [] true None
     = Normal {| valid := true; errors := []; warnings := [] |}
  /\ validateData shadowingSchema anyMatch "scenario"
       (JS.set "hasOwnProperty" (JStr "x") []) true None
     = TypeError.
Proof. vm_compute. repeat split. Qed.

(** Property X4. A field that is [generated] and [editable: false] is skipped
    by the validator: whatever value the payload puts under its name, and
    whether the key is there at all, [validateData] returns the same report
    (or raises the same [TypeError]). This holds in creation mode, and in
    update mode for every such field but one called [hasOwnProperty]. *)
Theorem validation_ignores_server_fields
    (sc : Schema) (rx : string -> string -> bool) (type : string) (schema : Schema)
    (f : Field) (data : Obj) (v : Value) (isUpdate : bool) (existing : option Obj) :
  getSchema sc type = Some schema ->
  In f (flatten schema) ->
  skipped f = true ->
  isUpdate = false \/ f_name f <> "hasOwnProperty" ->
  validateData sc rx type (JS.set (f_name f) v data) isUpdate existing
  = validateData sc rx type data isUpdate existing
  /\ validateData sc rx type (JS.remove (f_name f) data) isUpdate existing
     = validateData sc rx type data isUpdate existing.
Proof.
  intros Hs Hf Hsk Hcall.
  assert (Hother : forall g, In g (flatten schema) -> skipped g = false -> f_name f <> f_name g).
  { intros g Hg Hgs E.
    rewrite (name_unique _ f g (flatten_names_nodup schema) Hf Hg E) in Hsk. congruence. }
  split; apply (validateData_local sc rx type schema); try exact Hs;
    try (intros g Hg Hgs; pose proof (Hother g Hg Hgs) as Hne).
  - split; [apply get_set_other, Hne|].
    rewrite has_set. destruct (String.eqb_spec (f_name f) (f_name g)); [congruence|reflexivity].
  - destruct Hcall as [Hc|Hc]; [left; exact Hc|right].
    rewrite has_set. destruct (String.eqb_spec (f_name f) "hasOwnProperty");
      [congruence|reflexivity].
  - split; [apply get_remove_other, Hne|].
    rewrite has_remove. destruct (String.eqb_spec (f_name f) (f_name g)); [congruence|reflexivity].
  - destruct Hcall as [Hc|Hc]; [left; exact Hc|right].
    rewrite has_remove. destruct (String.eqb_spec (f_name f) "hasOwnProperty");
      [congruence|reflexivity].
Qed.

Lemma validation_ignores_server_fields_witness :
  getSchema bareScenario "dialogue" = Some dialogueSchema
  /\ In (Build.server "id" TString true) (flatten dialogueSchema)
  /\ validateData bareScenario anyMatch "dialogue"
       (JS.set "id" (JNum 7) [("name", JStr "Intro")]) true None
     = validateData bareScenario anyMatch "dialogue" [("name", JStr "Intro")] true None.
Proof.
  assert (Hin : In (Build.server "id" TString true) (flatten dialogueSchema)).
  { vm_compute. do 8 right. left. reflexivity. }
  split; [reflexivity|]. split; [exact Hin|].
  apply (validation_ignores_server_fields bareScenario anyMatch "dialogue" dialogueSchema
           (Build.server "id" TString true) [("name", JStr "Intro")] (JNum 7) true None
           eq_refl Hin eq_refl).
  right. discriminate.
Defined.

(** Property X5. When every field that [sanitizeData] deletes is also one the
    validator skips, validating the sanitized payload gives the same outcome
    as validating the payload itself, so a route may sanitize before or
    after it validates. This holds in creation mode, and in update mode
    when [sanitizeData] deletes no key called [hasOwnProperty]. *)
Theorem sanitize_preserves_validation
    (sc : Schema) (rx : string -> string -> bool) (type : string) (schema : Schema)
    (data : Obj) (isUpdate : bool) (existing : option Obj) :
  getSchema sc type = Some schema ->
  (forall f, In f (flatten schema) -> stripped f = true -> skipped f = true) ->
  isUpdate = false \/ strippedName schema "hasOwnProperty" = false ->
  validateData sc rx type (sanitizeData sc type data) isUpdate existing
  = validateData sc rx type data isUpdate existing.
Proof.
  intros Hs Hall Hcall. apply (validateData_local sc rx type schema); [exact Hs| |].
  - intros g Hg Hgs.
    assert (Hk : strippedName schema (f_name g) = false).
    { unfold strippedName. destruct (existsb _ (flatten schema)) eqn:E; [|reflexivity].
      apply existsb_exists in E as [h [Hh Hb]]. apply andb_prop in Hb as [Hst Hn].
      destruct (String.eqb_spec (f_name g) (f_name h)) as [E|]; [|discriminate].
      rewrite (name_unique _ g h (flatten_names_nodup schema) Hg Hh E) in Hgs.
      rewrite (Hall h Hh Hst) in Hgs. discriminate. }
    rewrite (get_sanitize sc type schema data _ Hs), (has_sanitize sc type schema data _ Hs), Hk.
    split; reflexivity.
  - destruct Hcall as [Hc|Hc]; [left; exact Hc|right].
    rewrite (has_sanitize sc type schema data _ Hs), Hc. reflexivity.
Qed.

Lemma sanitize_preserves_validation_witness :
  getSchema bareScenario "character" = Some characterSchema
  /\ forallb (fun f => implb (stripped f) (skipped f)) (flatten characterSchema) = true
  /\ strippedName characterSchema "hasOwnProperty" = false
  /\ validateData bareScenario anyMatch "character"
       (sanitizeData bareScenario "character" [("id", JStr "x"); ("name", JStr "Bob")])
       true None
     = validateData bareScenario anyMatch "character"
         [("id", JStr "x"); ("name", JStr "Bob")] true None.
Proof.
  split; [reflexivity|]. split; [vm_compute; reflexivity|]. split; [vm_compute; reflexivity|].
  apply (sanitize_preserves_validation bareScenario anyMatch "character" characterSchema
           [("id", JStr "x"); ("name", JStr "Bob")] true None eq_refl).
  - intros f Hf Hst.
    assert (H : forallb (fun f => implb (stripped f) (skipped f)) (flatten characterSchema) = true)
      by (vm_compute; reflexivity).
    rewrite forallb_forall in H. specialize (H f Hf). rewrite Hst in H. exact H.
  - right. vm_compute. reflexivity.
Defined.



End ValidatorProps.

(* ===================================================================== *)
(** ** When validation raises, what acceptance means                      *)
(* ===================================================================== *)

Module RaiseProps.
Import JS Registry Validator Firestore Migration Tables Examples.
Import ObjFacts GatherFacts ValidatorSpec Notions FlattenProps SanitizerProps ValidatorProps.






End RaiseProps.

Module AcceptanceProps.
Import JS Registry Validator Firestore Migration Tables Examples.
Import ObjFacts GatherFacts ValidatorSpec Notions FlattenProps SanitizerProps ValidatorProps.

Lemma gather_empty_all {A : Type} (g : A -> Completion (list string)) (l : list A) :
  gather g l = Normal [] -> forall x, In x l -> g x = Normal [].
Proof.
  intros Hg x Hx. destruct (gather_normal_in g l [] x Hg Hx) as [e [He Hsub]].
  destruct e as [|m e]; [exact He|]. destruct (Hsub m (or_introl eq_refl)).
Qed.

Lemma accepted_fields (sc : Schema) (rx : string -> string -> bool) (type : string)
    (schema : Schema) (data : Obj) (u : bool) (existing : option Obj) (r : ValidationResult) :
  getSchema sc type = Some schema ->
  validateData sc rx type data u existing = Normal r ->
  valid r = true ->
  forall f, In f (flatten schema) -> validateField rx data u f = Normal [].
Proof.
  intros Hs Hr Hv. unfold validateData in Hr. rewrite Hs in Hr.
  destruct (gather (validateField rx data u) (flatten schema)) as [es|] eqn:Hg; [|discriminate].
  injection Hr as <-. simpl in Hv. destruct es; [|discriminate].
  apply gather_empty_all. exact Hg.
Qed.

End AcceptanceProps.

(* ===================================================================== *)
(** ** Defaults                                                           *)
(* ===================================================================== *)

Module ValueFacts.
Import JS Registry Validator Firestore Migration Tables Examples.
Import ObjFacts AssignFacts DefaultsFacts GatherFacts Notions.

Lemma eqb_refl : forall v : Value, JS.eqb v v = true.
Proof.
  fix IH 1. intros [|b|n|s|items|props]; simpl.
  - reflexivity.
  - destruct b; reflexivity.
  - apply Z.eqb_refl.
  - apply String.eqb_refl.
  - induction items as [|x xs IHxs]; [reflexivity|]. rewrite (IH x), IHxs. reflexivity.
  - induction props as [|[k x] xs IHxs]; [reflexivity|].
    rewrite String.eqb_refl, (IH x), IHxs. reflexivity.
Qed.

Lemma strictNeq_same (a : option Value) : strictNeq a a = false.
Proof. destruct a as [v|]; simpl; [rewrite eqb_refl|]; reflexivity. Qed.

Lemma eqb_string (v : Value) (s : string) : JS.eqb v (JStr s) = true -> v = JStr s.
Proof.
  destruct v; simpl; try discriminate. intros H. apply String.eqb_eq in H. congruence.
Qed.

End ValueFacts.

Module DefaultsProps.
Import JS Registry Validator Firestore Migration Tables Examples.
Import ObjFacts AssignFacts DefaultsFacts GatherFacts Notions.
Import ValueFacts.

Lemma keys_set (o : Obj) (k : string) (v : Value) :
  keys (JS.set k v o) = if has o k then keys o else keys o ++ [k].
Proof.
  unfold JS.set, keys. destruct (has o k).
  - rewrite map_map. apply map_ext. intros [a x]. simpl.
    destruct (String.eqb_spec a k) as [->|]; reflexivity.
  - rewrite map_app. reflexivity.
Qed.

Lemma keys_assign (W : list (string * Value)) (o : Obj) :
  exists extra, keys (assign o W) = keys o ++ extra.
Proof.
  revert o. induction W as [|[k v] W IH]; intros o.
  - exists []. rewrite app_nil_r. reflexivity.
  - rewrite assign_cons. cbn [fst snd]. destruct (IH (JS.set k v o)) as [extra H].
    rewrite keys_set in H. destruct (has o k).
    + exists extra. exact H.
    + exists ([k] ++ extra). rewrite H, <- app_assoc. reflexivity.
Qed.

Lemma get_updated_present (data : Obj) (schema : Schema) (k : string) :
  nullish (get data k) = false ->
  get (updated (applyDefaults data schema)) k = get data k.
Proof.
  intros Hk. rewrite updated_applyDefaults. apply get_assign_other.
  intros e He Hfst. apply in_flat_map in He as [f [_ Hf]].
  apply writesOf_key in Hf as [Hname Hmiss]. rewrite <- Hname, Hfst in Hmiss. congruence.
Qed.

Lemma get_updated_unwritten (data : Obj) (schema : Schema) (k : string) :
  (forall f, In f (collect schema) -> f_name f <> k) ->
  get (updated (applyDefaults data schema)) k = get data k.
Proof.
  intros Hk. rewrite updated_applyDefaults. apply get_assign_other.
  intros e He Hfst. apply in_flat_map in He as [f [Hf Hw]].
  apply writesOf_key in Hw as [Hname _]. apply (Hk f Hf). congruence.
Qed.

(** Property X8. [applyDefaults] only fills in: a key whose value in the
    document is neither [undefined] nor [null] keeps that value, a key that
    is no field name of the schema is left as it is, and the keys of the
    document stay in place, new keys being added after them. *)
Theorem applyDefaults_keeps_present_values (data : Obj) (schema : Schema) :
  (forall k, nullish (get data k) = false ->
             get (updated (applyDefaults data schema)) k = get data k)
  /\ (forall k, (forall f, In f (collect schema) -> f_name f <> k) ->
                get (updated (applyDefaults data schema)) k = get data k)
  /\ exists extra, keys (updated (applyDefaults data schema)) = keys data ++ extra.
Proof.
  split; [intros k; apply get_updated_present|].
  split; [intros k; apply get_updated_unwritten|].
  rewrite updated_applyDefaults. apply keys_assign.
Qed.

Lemma modified_applyField (data : Obj) (acc : Defaulted) (f : Field) :
  modified (applyField data acc f) = modified acc || needsDefault data f.
Proof.
  unfold applyField, needsDefault.
  destruct (f_default f), (nullish (get data (f_name f))), (f_required f); simpl;
    rewrite ?orb_false_r, ?orb_true_r; reflexivity.
Qed.

Lemma modified_fold (data : Obj) (fs : list Field) (acc : Defaulted) :
  modified (fold_left (applyField data) fs acc)
  = modified acc || existsb (needsDefault data) fs.
Proof.
  revert acc. induction fs as [|f fs IH]; intros acc; simpl; [rewrite orb_false_r; reflexivity|].
  rewrite IH, modified_applyField, orb_assoc. reflexivity.
Qed.

Lemma writesOf_idle (data : Obj) (f : Field) :
  needsDefault data f = false -> writesOf data f = [].
Proof.
  unfold needsDefault, writesOf.
  destruct (nullish (get data (f_name f))), (f_default f), (f_required f);
    simpl; try discriminate; reflexivity.
Qed.

(** Property X9. The [modified] flag of [applyDefaults] is set exactly when
    some declared field is missing from the document and declares a default
    or is required; when the flag is not set the returned document is the
    given one. *)
Theorem unmodified_means_unchanged (data : Obj) (schema : Schema) :
  modified (applyDefaults data schema) = existsb (needsDefault data) (collect schema)
  /\ (modified (applyDefaults data schema) = false ->
      updated (applyDefaults data schema) = data).
Proof.
  split.
  - unfold applyDefaults. rewrite modified_fold. reflexivity.
  - unfold applyDefaults at 1. rewrite modified_fold. simpl. intros H.
    rewrite updated_applyDefaults.
    replace (flat_map (writesOf data) (collect schema)) with (@nil (string * Value));
      [reflexivity|].
    symmetry. induction (collect schema) as [|f fs IH]; [reflexivity|].
    simpl in *. apply orb_false_elim in H as [Hf Hfs].
    rewrite (writesOf_idle data f Hf), (IH Hfs). reflexivity.
Qed.

(** Property X10. Every key that [migrateDocument] lists under [changes]
    (the keys whose value differs between the defaulted document and the
    stored one) was missing from the stored document and is the name of a
    declared field with a default or marked required. *)
Theorem changes_are_defaulted_fields (data : Obj) (schema : Schema) (k : string) :
  In k (changedKeys (updated (applyDefaults data schema)) data) ->
  nullish (get data k) = true
  /\ exists f, In f (collect schema) /\ f_name f = k /\ needsDefault data f = true.
Proof.
  unfold changedKeys. intros H. apply List.filter_In in H as [_ Hneq].
  rewrite updated_applyDefaults in Hneq.
  destruct (existsb (fun e => String.eqb (fst e) k)
              (flat_map (writesOf data) (collect schema))) eqn:Hw.
  - apply existsb_exists in Hw as [e [He Hk]]. apply String.eqb_eq in Hk.
    apply in_flat_map in He as [f [Hf Hwf]].
    pose proof (writesOf_key data f e Hwf) as [Hname Hmiss].
    split; [rewrite <- Hk, Hname; exact Hmiss|].
    exists f. split; [exact Hf|]. split; [congruence|].
    destruct (needsDefault data f) eqn:Hn; [reflexivity|].
    rewrite (writesOf_idle data f Hn) in Hwf. destruct Hwf.
  - rewrite get_assign_other in Hneq.
    + rewrite strictNeq_same in Hneq. discriminate.
    + intros e He Hk.
      assert (existsb (fun e => String.eqb (fst e) k)
                (flat_map (writesOf data) (collect schema)) = true); [|congruence].
      apply existsb_exists. exists e. split; [exact He|]. rewrite Hk. apply String.eqb_refl.
Qed.

Lemma changes_are_defaulted_fields_witness :
  In "status" (changedKeys (updated (applyDefaults [("name", JStr "Intro")] scenarioV11))
                 [("name", JStr "Intro")])
  /\ nullish (get [("name", JStr "Intro")] "status") = true.
Proof.
  assert (Hin : In "status"
                  (changedKeys (updated (applyDefaults [("name", JStr "Intro")] scenarioV11))
                     [("name", JStr "Intro")])).
  { vm_compute. left. reflexivity. }
  split; [exact Hin|].
  apply (changes_are_defaulted_fields [("name", JStr "Intro")] scenarioV11 "status" Hin).
Defined.

End DefaultsProps.

(* ===================================================================== *)
(** ** Documents in the store, migration patches                          *)
(* ===================================================================== *)

Module DbFacts.
Import JS Registry Validator Firestore Migration Tables Examples.
Import ObjFacts AssignFacts DefaultsFacts GatherFacts StatusSpec Notions ValueFacts DefaultsProps.
Import Db.

Lemma read_merge_same (store : gmap string (gmap string Obj)) (coll id : string)
    (patch d : Obj) :
  docRead store coll id = Some d ->
  docRead (docMerge coll id patch store) coll id = Some (assign d patch).
Proof.
  unfold docRead, docMerge. destruct (store !! coll) as [c|] eqn:Hc; [|discriminate].
  intros Hd. rewrite Hd. rewrite lookup_insert_eq. apply lookup_insert_eq.
Qed.

Lemma read_merge_other (store : gmap string (gmap string Obj)) (coll id coll' id' : string)
    (patch : Obj) :
  coll' <> coll \/ id' <> id ->
  docRead (docMerge coll id patch store) coll' id' = docRead store coll' id'.
Proof.
  intros Hne. unfold docRead, docMerge.
  destruct (store !! coll) as [c|] eqn:Hc; [|reflexivity].
  destruct (c !! id) as [d|] eqn:Hd; [|reflexivity].
  destruct (decide (coll' = coll)) as [->|Hcoll].
  - rewrite lookup_insert_eq, Hc. destruct Hne as [Hne|Hne]; [congruence|].
    apply lookup_insert_ne. congruence.
  - rewrite lookup_insert_ne by congruence. reflexivity.
Qed.

Lemma read_merge_missing (store : gmap string (gmap string Obj)) (coll id : string)
    (patch : Obj) :
  docRead store coll id = None -> docMerge coll id patch store = store.
Proof.
  unfold docRead, docMerge. destruct (store !! coll) as [c|]; [|reflexivity].
  intros ->. reflexivity.
Qed.

Lemma read_set_same (store : gmap string (gmap string Obj)) (coll id : string) (data : Obj) :
  docRead (docSet coll id data store) coll id = Some data.
Proof. unfold docRead, docSet. rewrite lookup_insert_eq. apply lookup_insert_eq. Qed.

Lemma read_set_other (store : gmap string (gmap string Obj)) (coll id coll' id' : string)
    (data : Obj) :
  coll' <> coll \/ id' <> id ->
  docRead (docSet coll id data store) coll' id' = docRead store coll' id'.
Proof.
  intros Hne. unfold docRead, docSet. destruct (decide (coll' = coll)) as [->|Hcoll].
  - rewrite lookup_insert_eq. destruct Hne as [Hne|Hne]; [congruence|].
    rewrite lookup_insert_ne by congruence.
    destruct (store !! coll); [reflexivity|apply lookup_empty].
  - rewrite lookup_insert_ne by congruence. reflexivity.
Qed.

Lemma read_erase_same (store : gmap string (gmap string Obj)) (coll id : string) :
  docRead (docErase coll id store) coll id = None.
Proof.
  unfold docRead, docErase. destruct (store !! coll) as [c|] eqn:Hc.
  - rewrite lookup_insert_eq. apply lookup_delete_eq.
  - rewrite Hc. reflexivity.
Qed.

Lemma read_erase_other (store : gmap string (gmap string Obj)) (coll id coll' id' : string) :
  coll' <> coll \/ id' <> id ->
  docRead (docErase coll id store) coll' id' = docRead store coll' id'.
Proof.
  intros Hne. unfold docRead, docErase. destruct (store !! coll) as [c|] eqn:Hc; [|reflexivity].
  destruct (decide (coll' = coll)) as [->|Hcoll].
  - rewrite lookup_insert_eq, Hc. destruct Hne as [Hne|Hne]; [congruence|].
    apply lookup_delete_ne. congruence.
  - rewrite lookup_insert_ne by congruence. reflexivity.
Qed.

End DbFacts.

Module PatchFacts.
Import JS Registry Validator Firestore Migration Tables Examples.
Import ObjFacts AssignFacts DefaultsFacts GatherFacts StatusSpec Notions ValueFacts DefaultsProps.
Import Db.

(** The value an assignment list leaves under [k] when all it writes
    there is [v]. *)
Lemma get_assign_uniform (p : list (string * Value)) (o : Obj) (k : string) (v : Value) :
  has p k = true ->
  (forall e, In e p -> fst e = k -> snd e = v) ->
  get (assign o p) k = Some v.
Proof.
  induction p as [|[a x] p IH] using rev_ind; [discriminate|].
  intros Hhas Hall. rewrite assign_app. simpl.
  destruct (String.eqb_spec a k) as [->|Hne].
  - assert (Hx : x = v).
    { apply (Hall (k, x)); [apply in_or_app; right; left; reflexivity|reflexivity]. }
    rewrite Hx. apply get_set_same.
  - rewrite get_set_other by exact Hne. apply IH.
    + rewrite has_app in Hhas. simpl in Hhas.
      destruct (String.eqb_spec a k); [congruence|]. rewrite orb_false_r in Hhas. exact Hhas.
    + intros e He. apply Hall. apply in_or_app. left. exact He.
Qed.

Lemma set_entries (o : Obj) (k : string) (v : Value) (e : string * Value) :
  In e (JS.set k v o) -> (fst e = k /\ snd e = v) \/ (fst e <> k /\ In e o).
Proof.
  unfold JS.set. destruct (has o k) eqn:Hk.
  - intros H. apply in_map_iff in H as [[a x] [He Hin]]. simpl in He.
    destruct (String.eqb_spec a k) as [->|Hne].
    + left. subst e. split; reflexivity.
    + right. subst e. split; [exact Hne|exact Hin].
  - intros H. apply in_app_or in H as [H|[<-|[]]].
    + right. split; [|exact H]. intros E.
      assert (has o k = true); [|congruence].
      apply existsb_exists. exists e. split; [exact H|]. rewrite E. apply String.eqb_refl.
    + left. split; reflexivity.
Qed.

(** The patch of a real run stamps the target version. *)
Lemma patch_stamps_version (data : Obj) (schema : Schema) (now : Value) (o : Obj) :
  get (assign o (migrationPatch data schema now)) "schemaVersion"
  = Some (JStr (s_version schema)).
Proof.
  apply get_assign_uniform; unfold migrationPatch;
    destruct (modified (applyDefaults data schema)).
  - simpl. rewrite !has_set. reflexivity.
  - reflexivity.
  - intros e He Hk. simpl in He.
    apply set_entries in He as [[He _]|[_ He]]; [congruence|].
    apply set_entries in He as [[_ He]|[He _]]; [exact He|congruence].
  - intros e [<-|[<-|[]]] Hk; [reflexivity|discriminate].
Qed.

Lemma versionKey_of_stamp (d : Obj) (t : string) :
  t <> "" -> get d "schemaVersion" = Some (JStr t) ->
  stampedVersion d = JStr t /\ versionKey d = t.
Proof.
  intros Ht Hget. unfold versionKey, stampedVersion. rewrite Hget. simpl.
  destruct (String.eqb_spec t ""); [congruence|]. split; reflexivity.
Qed.

End PatchFacts.

(* ===================================================================== *)
(** ** Migrating one document                                             *)
(* ===================================================================== *)

Module MigrationProps.
Import JS Registry Validator Firestore Migration Tables Examples.
Import ObjFacts AssignFacts DefaultsFacts GatherFacts StatusSpec Notions ValueFacts DefaultsProps.
Import Db DbFacts PatchFacts.

Section Engine.
Variable sc : Schema.
Variable clock : nat -> string.

(** The store after [migrateDocument]. *)
Lemma migrateDocument_docs (coll id : string) (dryRun : bool) (w : World) :
  docs (snd (migrateDocument sc clock coll id dryRun w))
  = match docRead (docs w) coll id, getSchema sc (dropLast coll) with
    | Some data, Some schema =>
        if dryRun || JS.eqb (stampedVersion data) (JStr (s_version schema))
        then docs w
        else docMerge coll id
               (migrationPatch data schema (now clock (issue (DocGet coll id) w))) (docs w)
    | _, _ => docs w
    end.
Proof.
  unfold migrateDocument, docGet, docRead. cbv beta iota zeta.
  destruct (match docs w !! coll with Some c => c !! id | None => None end) as [data|];
    [|reflexivity].
  destruct (getSchema sc (dropLast coll)) as [schema|]; [|reflexivity].
  destruct (JS.eqb (stampedVersion data) (JStr (s_version schema)));
    [rewrite orb_true_r; reflexivity|].
  rewrite orb_false_r. unfold migrationPatch.
  destruct (modified (applyDefaults data schema)), dryRun; reflexivity.
Qed.

Lemma migrateDocument_success (coll id : string) (dryRun : bool) (w : World) :
  success (fst (migrateDocument sc clock coll id dryRun w))
  = match docRead (docs w) coll id, getSchema sc (dropLast coll) with
    | Some _, Some _ => true
    | _, _ => false
    end.
Proof.
  unfold migrateDocument, docGet, docRead. cbv beta iota zeta.
  destruct (match docs w !! coll with Some c => c !! id | None => None end) as [data|];
    [|reflexivity].
  destruct (getSchema sc (dropLast coll)) as [schema|]; [|reflexivity].
  destruct (JS.eqb (stampedVersion data) (JStr (s_version schema))); [reflexivity|].
  destruct (modified (applyDefaults data schema)); reflexivity.
Qed.

Lemma step_other (coll id coll' id' : string) (dryRun : bool) (w : World) :
  coll' <> coll \/ id' <> id ->
  docRead (docs (snd (migrateDocument sc clock coll id dryRun w))) coll' id'
  = docRead (docs w) coll' id'.
Proof.
  intros Hne. rewrite migrateDocument_docs.
  destruct (docRead (docs w) coll id) as [data|]; [|reflexivity].
  destruct (getSchema sc (dropLast coll)) as [schema|]; [|reflexivity].
  destruct (dryRun || _); [reflexivity|]. apply read_merge_other, Hne.
Qed.

Lemma step_exists (coll id : string) (dryRun : bool) (w : World) :
  docRead (docs (snd (migrateDocument sc clock coll id dryRun w))) coll id = None
  <-> docRead (docs w) coll id = None.
Proof.
  rewrite migrateDocument_docs.
  destruct (docRead (docs w) coll id) as [data|] eqn:Hd; [|rewrite Hd; tauto].
  destruct (getSchema sc (dropLast coll)) as [schema|]; [|rewrite Hd; tauto].
  destruct (dryRun || _); [rewrite Hd; tauto|].
  rewrite (read_merge_same _ _ _ _ data Hd). split; discriminate.
Qed.

Lemma step_current (coll id : string) (w : World) (schema : Schema) (d' : Obj) :
  getSchema sc (dropLast coll) = Some schema ->
  s_version schema <> "" ->
  docRead (docs (snd (migrateDocument sc clock coll id false w))) coll id = Some d' ->
  stampedVersion d' = JStr (s_version schema) /\ versionKey d' = s_version schema.
Proof.
  intros Hs Ht. rewrite migrateDocument_docs, Hs.
  destruct (docRead (docs w) coll id) as [data|] eqn:Hd; [|rewrite Hd; discriminate].
  simpl. destruct (JS.eqb (stampedVersion data) (JStr (s_version schema))) eqn:E.
  - rewrite Hd. intros H. injection H as <-. apply eqb_string in E.
    split; [exact E|]. unfold versionKey. rewrite E. reflexivity.
  - rewrite (read_merge_same _ _ _ _ data Hd). intros H. injection H as <-.
    apply versionKey_of_stamp; [exact Ht|]. apply patch_stamps_version.
Qed.

End Engine.

(** Property X11. For a collection whose type name is not the name of a
    member of [Object.prototype], [migrateDocument] reports a failure
    exactly when the document does not exist or no schema is registered for
    the collection; a failed call leaves the store as it was, a missing
    document gives the error "Document not found" and a document without a
    schema the error "Schema not found". *)
Theorem migrateDocument_fails_only_when_missing
    (sc : Schema) (clock : nat -> string) (coll id : string) (dryRun : bool) (w : World) :
  inherited (dropLast coll) = false ->
  (success (fst (migrateDocument sc clock coll id dryRun w)) = false
   <-> fst (docGet coll id w) = None \/ getSchema sc (dropLast coll) = None)
  /\ (success (fst (migrateDocument sc clock coll id dryRun w)) = false ->
      docs (snd (migrateDocument sc clock coll id dryRun w)) = docs w)
  /\ (fst (docGet coll id w) = None ->
      fst (migrateDocument sc clock coll id dryRun w) = Failed "Document not found")
  /\ (fst (docGet coll id w) <> None -> getSchema sc (dropLast coll) = None ->
      fst (migrateDocument sc clock coll id dryRun w) = Failed "Schema not found").
Proof.
  intros _. rewrite migrateDocument_success, migrateDocument_docs.
  change (fst (docGet coll id w)) with (docRead (docs w) coll id).
  split; [|split; [|split]].
  - destruct (docRead (docs w) coll id), (getSchema sc (dropLast coll)); split;
      try discriminate; try tauto; intros [H|H]; discriminate.
  - destruct (docRead (docs w) coll id), (getSchema sc (dropLast coll));
      try discriminate; reflexivity.
  - intros H. unfold migrateDocument, docGet, docRead in *. cbv beta iota zeta.
    rewrite H. reflexivity.
  - intros Hd Hs. unfold migrateDocument, docGet, docRead in *. cbv beta iota zeta.
    destruct (match docs w !! coll with Some c => c !! id | None => None end);
      [|congruence].
    rewrite Hs. reflexivity.
Qed.

Lemma migrateDocument_fails_only_when_missing_witness :
  inherited (dropLast "widgets") = false
  /\ fst (migrateDocument bareScenario fixedClock "widgets" "w1" false strayWorld)
     = Failed "Schema not found"
  /\ fst (migrateDocument bareScenario fixedClock "widgets" "w2" false strayWorld)
     = Failed "Document not found"
  /\ docs (snd (migrateDocument bareScenario fixedClock "widgets" "w1" false strayWorld))
     = docs strayWorld.
Proof.
  assert (Hi : inherited (dropLast "widgets") = false) by reflexivity.
  split; [exact Hi|].
  destruct (migrateDocument_fails_only_when_missing bareScenario fixedClock "widgets" "w1"
              false strayWorld Hi) as (Hiff & Hdocs & _ & Hschema).
  destruct (migrateDocument_fails_only_when_missing bareScenario fixedClock "widgets" "w2"
              false strayWorld Hi) as (_ & _ & Hmissing & _).
  split; [apply Hschema; [vm_compute; discriminate|reflexivity]|].
  split; [apply Hmissing; vm_compute; reflexivity|].
  apply Hdocs, Hiff. right. reflexivity.
Defined.

(** Property X12. After a real run of [migrateDocument] on an existing
    document of a collection whose schema has a non-empty version, the
    document is still there and is stamped with the schema's version, and
    migrating it again, dry or not, reports "already at current version"
    and writes nothing. *)
Theorem migrated_document_is_current
    (sc : Schema) (clock : nat -> string) (coll id : string) (w : World)
    (data : Obj) (schema : Schema) :
  fst (docGet coll id w) = Some data ->
  getSchema sc (dropLast coll) = Some schema ->
  s_version schema <> "" ->
  let w' := snd (migrateDocument sc clock coll id false w) in
  (exists d', fst (docGet coll id w') = Some d'
              /\ stampedVersion d' = JStr (s_version schema))
  /\ forall dryRun,
       fst (migrateDocument sc clock coll id dryRun w') = AlreadyCurrent (JStr (s_version schema))
       /\ docs (snd (migrateDocument sc clock coll id dryRun w')) = docs w'.
Proof.
  intros Hd Hs Ht w'.
  change (fst (docGet coll id w)) with (docRead (docs w) coll id) in Hd.
  destruct (docRead (docs w') coll id) as [d'|] eqn:Hd'.
  2:{ apply step_exists in Hd'. congruence. }
  destruct (step_current sc clock coll id w schema d' Hs Ht Hd') as [Hstamp _].
  split.
  - exists d'. split; [exact Hd'|exact Hstamp].
  - intros dryRun. split.
    + unfold migrateDocument, docGet. cbv beta iota zeta.
      unfold docRead in Hd'. rewrite Hd', Hs, Hstamp. rewrite eqb_refl. reflexivity.
    + rewrite migrateDocument_docs, Hd', Hs, Hstamp, eqb_refl, orb_true_r. reflexivity.
Qed.

Lemma migrated_document_is_current_witness :
  fst (docGet "scenarios" "s1" sampleWorld) = Some [("name", JStr "Intro")]
  /\ getSchema scenarioV11 (dropLast "scenarios") = Some scenarioV11
  /\ s_version scenarioV11 <> ""
  /\ fst (migrateDocument scenarioV11 fixedClock "scenarios" "s1" false
            (snd (migrateDocument scenarioV11 fixedClock "scenarios" "s1" false sampleWorld)))
     = AlreadyCurrent (JStr "1.1").
Proof.
  assert (Hd : fst (docGet "scenarios" "s1" sampleWorld) = Some [("name", JStr "Intro")])
    by (vm_compute; reflexivity).
  assert (Ht : s_version scenarioV11 <> "") by discriminate.
  split; [exact Hd|]. split; [reflexivity|]. split; [exact Ht|].
  destruct (migrated_document_is_current scenarioV11 fixedClock "scenarios" "s1" sampleWorld
              [("name", JStr "Intro")] scenarioV11 Hd eq_refl Ht) as [_ H].
  apply (H false).
Defined.

(** Property X13. [migrateDocument] touches one document only: every other
    document, of the same or of another collection, reads the same before
    and after, and the call neither creates nor deletes the document it is
    given. *)
Theorem migrateDocument_frame
    (sc : Schema) (clock : nat -> string) (coll id : string) (dryRun : bool) (w : World)
    (coll' id' : string) :
  coll' <> coll \/ id' <> id ->
  fst (docGet coll' id' (snd (migrateDocument sc clock coll id dryRun w)))
  = fst (docGet coll' id' w)
  /\ (fst (docGet coll id (snd (migrateDocument sc clock coll id dryRun w))) = None
      <-> fst (docGet coll id w) = None).
Proof.
  intros Hne. split.
  - apply (step_other sc clock coll id coll' id' dryRun w Hne).
  - apply (step_exists sc clock coll id dryRun w).
Qed.

Lemma migrateDocument_frame_witness :
  ("scenarios" <> "scenarios" \/ "s2" <> "s1")
  /\ fst (docGet "scenarios" "s2"
            (snd (migrateDocument scenarioV11 fixedClock "scenarios" "s1" false sampleWorld)))
     = fst (docGet "scenarios" "s2" sampleWorld).
Proof.
  assert (Hne : "scenarios" <> "scenarios" \/ "s2" <> "s1") by (right; discriminate).
  split; [exact Hne|].
  apply (migrateDocument_frame scenarioV11 fixedClock "scenarios" "s1" false sampleWorld
           "scenarios" "s2" Hne).
Defined.

End MigrationProps.

(* ===================================================================== *)
(** ** What a migration keeps                                             *)
(* ===================================================================== *)

Module KeepProps.
Import JS Registry Validator Firestore Migration Tables Examples.
Import ObjFacts AssignFacts DefaultsFacts GatherFacts TallyFacts StatusSpec MigrationSpec.
Import Notions ValueFacts DefaultsProps.
Import Db DbFacts PatchFacts MigrationProps.

Lemma keys_nodup_set (o : Obj) (k : string) (v : Value) :
  List.NoDup (keys o) -> List.NoDup (keys (JS.set k v o)).
Proof.
  intros H. rewrite keys_set. destruct (has o k) eqn:Hk; [exact H|].
  apply List.NoDup_app; [exact H|constructor; [intros []|constructor]|].
  intros a Ha [Hak|[]]. subst a. unfold keys in Ha. apply in_map_iff in Ha as [e [He Hin]].
  assert (has o k = true); [|congruence].
  apply existsb_exists. exists e. split; [exact Hin|]. rewrite He. apply String.eqb_refl.
Qed.

Lemma keys_nodup_assign (W : list (string * Value)) (o : Obj) :
  List.NoDup (keys o) -> List.NoDup (keys (assign o W)).
Proof.
  revert o. induction W as [|[k v] W IH]; intros o H; [exact H|].
  rewrite assign_cons. apply IH, keys_nodup_set, H.
Qed.

(** Merging an object without repeated keys: each of its keys ends up
    with the value the object gives it. *)
Lemma get_assign_nodup (p : list (string * Value)) (o : Obj) (k : string) :
  List.NoDup (keys p) ->
  get (assign o p) k = if has p k then get p k else get o k.
Proof.
  induction p as [|[a x] p IH] using rev_ind; [reflexivity|].
  intros Hnd. unfold keys in Hnd. rewrite map_app in Hnd. simpl in Hnd.
  assert (Hp : List.NoDup (keys p)) by (apply List.NoDup_app_remove_r in Hnd; exact Hnd).
  assert (Ha : has p a = false).
  { destruct (has p a) eqn:E; [|reflexivity]. exfalso.
    apply existsb_exists in E as [e [He Hk]]. apply String.eqb_eq in Hk.
    apply List.NoDup_remove_2 in Hnd. apply Hnd. rewrite app_nil_r.
    rewrite <- Hk. apply in_map. exact He. }
  rewrite assign_app. simpl. rewrite has_app, get_app. simpl.
  destruct (String.eqb_spec a k) as [->|Hne].
  - rewrite get_set_same, Ha. simpl. reflexivity.
  - rewrite get_set_other by exact Hne. rewrite orb_false_r, (IH Hp).
    destruct (has p k); reflexivity.
Qed.

Lemma get_patch (data : Obj) (schema : Schema) (now : Value) (k : string) :
  List.NoDup (keys data) ->
  k <> "schemaVersion" -> k <> "updatedAt" ->
  nullish (get data k) = false ->
  get (assign data (migrationPatch data schema now)) k = get data k.
Proof.
  intros Hnd Hsv Hua Hk. unfold migrationPatch.
  destruct (modified (applyDefaults data schema)).
  - rewrite get_assign_nodup.
    + simpl. rewrite !has_set, !get_set_other by congruence.
      destruct (String.eqb_spec "updatedAt" k); [congruence|].
      destruct (String.eqb_spec "schemaVersion" k); [congruence|]. simpl.
      rewrite get_updated_present by exact Hk.
      destruct (has _ k); reflexivity.
    + simpl. apply keys_nodup_set, keys_nodup_set.
      rewrite updated_applyDefaults. apply keys_nodup_assign, Hnd.
  - simpl. rewrite !get_set_other by congruence. reflexivity.
Qed.

(** Property X14. A migration loses no data: for a stored document without
    repeated keys, every key other than [schemaVersion] and [updatedAt]
    whose value is neither [undefined] nor [null] has the same value after
    [migrateDocument], in a dry run and in a real one. *)
Theorem migration_keeps_present_values
    (sc : Schema) (clock : nat -> string) (coll id : string) (dryRun : bool) (w : World)
    (data : Obj) (k : string) :
  fst (docGet coll id w) = Some data ->
  List.NoDup (keys data) ->
  k <> "schemaVersion" -> k <> "updatedAt" ->
  nullish (get data k) = false ->
  exists d', fst (docGet coll id (snd (migrateDocument sc clock coll id dryRun w))) = Some d'
             /\ get d' k = get data k.
Proof.
  intros Hd Hnd Hsv Hua Hk.
  change (fst (docGet coll id w)) with (docRead (docs w) coll id) in Hd.
  change (fst (docGet coll id ?w')) with (docRead (docs w') coll id).
  rewrite migrateDocument_docs, Hd.
  destruct (getSchema sc (dropLast coll)) as [schema|]; [|exists data; split; [exact Hd|reflexivity]].
  destruct (dryRun || _); [exists data; split; [exact Hd|reflexivity]|].
  rewrite (read_merge_same _ _ _ _ data Hd). eexists. split; [reflexivity|].
  apply get_patch; assumption.
Qed.

Lemma migration_keeps_present_values_witness :
  fst (docGet "scenarios" "s2" sampleWorld)
  = Some [("name", JStr "Outro"); ("status", JStr "active"); ("schemaVersion", JStr "1.0")]
  /\ List.NoDup (keys [("name", JStr "Outro"); ("status", JStr "active");
                       ("schemaVersion", JStr "1.0")])
  /\ exists d',
       fst (docGet "scenarios" "s2"
              (snd (migrateDocument scenarioV11 fixedClock "scenarios" "s2" false sampleWorld)))
       = Some d'
       /\ get d' "status" = Some (JStr "active").
Proof.
  assert (Hd : fst (docGet "scenarios" "s2" sampleWorld)
               = Some [("name", JStr "Outro"); ("status", JStr "active");
                       ("schemaVersion", JStr "1.0")]) by (vm_compute; reflexivity).
  assert (Hnd : List.NoDup (keys [("name", JStr "Outro"); ("status", JStr "active");
                                  ("schemaVersion", JStr "1.0")])).
  { simpl. repeat constructor; simpl; intuition discriminate. }
  split; [exact Hd|]. split; [exact Hnd|].
  apply (migration_keeps_present_values scenarioV11 fixedClock "scenarios" "s2" false
           sampleWorld _ "status" Hd Hnd); [discriminate|discriminate|reflexivity].
Defined.

End KeepProps.

(* ===================================================================== *)
(** ** Migrating a collection                                             *)
(* ===================================================================== *)

Module SnapshotFacts.
Import JS Registry Validator Firestore Migration Tables Examples.
Import ObjFacts AssignFacts DefaultsFacts GatherFacts TallyFacts StatusSpec MigrationSpec.
Import Notions ValueFacts DefaultsProps.
Import Db DbFacts PatchFacts MigrationProps.

Lemma in_documents (store : gmap string (gmap string Obj)) (coll id : string) (d : Obj) :
  In (id, d) (documents store coll) <-> docRead store coll id = Some d.
Proof.
  unfold documents, docRead. destruct (store !! coll) as [c|].
  - rewrite <- list_elem_of_In, merge_sort_Permutation. apply elem_of_map_to_list.
  - split; [intros []|discriminate].
Qed.

Lemma in_select (query : Query) (store : gmap string (gmap string Obj)) (id : string) (d : Obj) :
  In (id, d) (select query store) -> docRead store (q_collection query) id = Some d.
Proof.
  unfold select. intros H. apply in_documents.
  destruct (q_limit query) as [n|].
  - apply list_elem_of_In in H. apply elem_of_take in H as [i [H _]].
    apply list_elem_of_lookup_2, list_elem_of_In in H.
    apply List.filter_In in H as [H _]. exact H.
  - apply List.filter_In in H as [H _]. exact H.
Qed.

Lemma in_select_all (coll : string) (store : gmap string (gmap string Obj)) (id : string) (d : Obj) :
  docRead store coll id = Some d -> In (id, d) (select (collectionQuery coll None) store).
Proof.
  intros H. unfold select. simpl. apply List.filter_In. split; [|reflexivity].
  apply in_documents. exact H.
Qed.

End SnapshotFacts.

Module CollectionProps.
Import JS Registry Validator Firestore Migration Tables Examples.
Import ObjFacts AssignFacts DefaultsFacts GatherFacts TallyFacts StatusSpec MigrationSpec.
Import Notions ValueFacts DefaultsProps.
Import Db DbFacts PatchFacts MigrationProps.
Import SnapshotFacts.

Section Engine.
Variable sc : Schema.
Variable clock : nat -> string.

Lemma migrateEach_cons (coll : string) (dryRun : bool) (id : string) (data : Obj)
    (rest : list (string * Obj)) (w : World) :
  migrateEach sc clock coll dryRun ((id, data) :: rest) w
  = let step := migrateDocument sc clock coll id dryRun w in
    let tail := migrateEach sc clock coll dryRun rest (snd step) in
    ({| row_id := id; row_name := get data "name"; row_result := fst step |} :: fst tail,
     snd tail).
Proof.
  simpl. destruct (migrateDocument sc clock coll id dryRun w) as [result w1].
  simpl. destruct (migrateEach sc clock coll dryRun rest w1) as [rows w2]. reflexivity.
Qed.

Lemma each_other (coll : string) (dryRun : bool) (snap : list (string * Obj)) (w : World)
    (coll' id' : string) :
  coll' <> coll \/ ~ In id' (map fst snap) ->
  docRead (docs (snd (migrateEach sc clock coll dryRun snap w))) coll' id'
  = docRead (docs w) coll' id'.
Proof.
  revert w. induction snap as [|[id data] rest IH]; intros w Hne; [reflexivity|].
  rewrite migrateEach_cons. cbv zeta. cbn [snd]. rewrite IH.
  - apply step_other. destruct Hne as [H|H]; [left; exact H|]. right. intros ->.
    apply H. left. reflexivity.
  - destruct Hne as [H|H]; [left; exact H|]. right. intros Hin. apply H. right. exact Hin.
Qed.

Lemma each_exists (coll : string) (dryRun : bool) (snap : list (string * Obj)) (w : World)
    (id' : string) :
  docRead (docs (snd (migrateEach sc clock coll dryRun snap w))) coll id' = None
  <-> docRead (docs w) coll id' = None.
Proof.
  revert w. induction snap as [|[id data] rest IH]; intros w; [reflexivity|].
  rewrite migrateEach_cons. cbv zeta. cbn [snd]. rewrite IH.
  destruct (String.eqb_spec id' id) as [->|Hne].
  - apply step_exists.
  - rewrite step_other by (right; exact Hne). reflexivity.
Qed.

Lemma each_current (coll : string) (snap : list (string * Obj)) (w : World)
    (schema : Schema) (id' : string) (d' : Obj) :
  getSchema sc (dropLast coll) = Some schema ->
  s_version schema <> "" ->
  In id' (map fst snap) ->
  docRead (docs (snd (migrateEach sc clock coll false snap w))) coll id' = Some d' ->
  versionKey d' = s_version schema.
Proof.
  intros Hs Ht. revert w. induction snap as [|[id data] rest IH]; intros w Hin Hd; [destruct Hin|].
  rewrite migrateEach_cons in Hd. cbv zeta in Hd. cbn [snd] in Hd.
  destruct (in_dec String.string_dec id' (map fst rest)) as [Hrest|Hrest].
  - apply (IH _ Hrest Hd).
  - destruct Hin as [Hid|Hin]; [|contradiction]. simpl in Hid. subst id'.
    rewrite each_other in Hd by (right; exact Hrest).
    apply (step_current sc clock coll id w schema d' Hs Ht Hd).
Qed.

Lemma each_success (coll : string) (dryRun : bool) (snap : list (string * Obj)) (w : World)
    (schema : Schema) :
  getSchema sc (dropLast coll) = Some schema ->
  (forall id, In id (map fst snap) -> docRead (docs w) coll id <> None) ->
  forallb (fun r => success (row_result r))
    (fst (migrateEach sc clock coll dryRun snap w)) = true.
Proof.
  intros Hs. revert w. induction snap as [|[id data] rest IH]; intros w Hall; [reflexivity|].
  rewrite migrateEach_cons. cbv zeta. cbn [fst forallb row_result].
  rewrite migrateDocument_success, Hs.
  destruct (docRead (docs w) coll id) eqn:Hd.
  - simpl. apply IH. intros id' Hin.
    destruct (String.eqb_spec id' id) as [->|Hne].
    + rewrite step_exists. congruence.
    + rewrite step_other by (right; exact Hne). apply Hall. right. exact Hin.
  - exfalso. apply (Hall id); [left; reflexivity|exact Hd].
Qed.

Lemma each_failure (coll : string) (dryRun : bool) (snap : list (string * Obj)) (w : World) :
  getSchema sc (dropLast coll) = None ->
  (forall id, In id (map fst snap) -> docRead (docs w) coll id <> None) ->
  (forall r, In r (fst (migrateEach sc clock coll dryRun snap w)) ->
             row_result r = Failed "Schema not found")
  /\ docs (snd (migrateEach sc clock coll dryRun snap w)) = docs w.
Proof.
  intros Hs. revert w. induction snap as [|[id data] rest IH]; intros w Hall.
  - split; [intros r []|reflexivity].
  - rewrite migrateEach_cons. cbv zeta. cbn [fst snd].
    assert (Hdocs : docs (snd (migrateDocument sc clock coll id dryRun w)) = docs w).
    { rewrite migrateDocument_docs, Hs. destruct (docRead (docs w) coll id); reflexivity. }
    destruct (IH (snd (migrateDocument sc clock coll id dryRun w))) as [Hrows Hd].
    { intros id' Hin. rewrite Hdocs. apply Hall. right. exact Hin. }
    split; [|rewrite Hd; exact Hdocs].
    intros r [<-|Hr]; [|apply Hrows, Hr]. cbn [row_result].
    unfold migrateDocument, docGet. cbv beta iota zeta.
    pose proof (Hall id (or_introl eq_refl)) as Hex. unfold docRead in Hex.
    destruct (match docs w !! coll with Some c => c !! id | None => None end);
      [|congruence].
    rewrite Hs. reflexivity.
Qed.

End Engine.

Lemma filter_split {A : Type} (p : A -> bool) (l : list A) :
  length (List.filter p l) + length (List.filter (fun x => negb (p x)) l) = length l.
Proof.
  induction l as [|x l IH]; [reflexivity|]. simpl. destruct (p x); simpl; lia.
Qed.

Lemma filter_none_length {A : Type} (p : A -> bool) (l : list A) :
  length (List.filter p l) = 0 <-> forallb (fun x => negb (p x)) l = true.
Proof.
  induction l as [|x l IH]; simpl; [tauto|].
  destruct (p x); simpl; [split; [lia|discriminate]|exact IH].
Qed.

Lemma collection_report (sc : Schema) (clock : nat -> string) (coll : string)
    (companyId : option string) (dryRun : bool) (w : World) :
  let query := collectionQuery coll companyId in
  let each := migrateEach sc clock coll dryRun (select query (docs w)) (issue (QueryGet query) w) in
  migrateCollection sc clock coll companyId dryRun w
  = ({| c_success :=
          Nat.eqb (length (List.filter (fun r => negb (success (row_result r))) (fst each))) 0;
        c_total := length (fst each);
        c_successful := length (List.filter (fun r => success (row_result r)) (fst each));
        c_failed := length (List.filter (fun r => negb (success (row_result r))) (fst each));
        c_results := fst each |}, snd each).
Proof.
  intros query each. subst each. unfold migrateCollection, queryGet. fold query.
  destruct (migrateEach sc clock coll dryRun (select query (docs w)) (issue (QueryGet query) w)).
  reflexivity.
Qed.

(** Property X15. In the report of [migrateCollection] the total is the
    number of result rows and the sum of the successful and failed counts,
    and [success] is set exactly when the failed count is zero, that is when
    every row succeeded. *)
Theorem collection_report_tallies
    (sc : Schema) (clock : nat -> string) (coll : string) (companyId : option string)
    (dryRun : bool) (w : World) :
  let report := fst (migrateCollection sc clock coll companyId dryRun w) in
  c_total report = c_successful report + c_failed report
  /\ c_total report = length (c_results report)
  /\ (c_success report = true <-> c_failed report = 0)
  /\ (c_success report = true <->
      forall r, In r (c_results report) -> success (row_result r) = true).
Proof.
  rewrite collection_report. cbv zeta. cbn [fst c_total c_successful c_failed c_success c_results].
  set (rows := fst (migrateEach _ _ _ _ _ _)).
  split; [symmetry; apply filter_split|]. split; [reflexivity|]. split.
  - apply Nat.eqb_eq.
  - rewrite Nat.eqb_eq, filter_none_length, forallb_forall. split.
    + intros H r Hr. specialize (H r Hr). rewrite negb_involutive in H. exact H.
    + intros H r Hr. rewrite negb_involutive. apply H, Hr.
Qed.

(** Property X16. For a collection with a registered schema
    [migrateCollection] reports success: no row fails, and the successful
    count is the total. *)
Theorem registered_collection_never_fails
    (sc : Schema) (clock : nat -> string) (coll : string) (companyId : option string)
    (dryRun : bool) (w : World) (schema : Schema) :
  getSchema sc (dropLast coll) = Some schema ->
  let report := fst (migrateCollection sc clock coll companyId dryRun w) in
  c_success report = true /\ c_failed report = 0 /\ c_successful report = c_total report.
Proof.
  intros Hs. rewrite collection_report. cbv zeta.
  cbn [fst c_total c_successful c_failed c_success].
  set (query := collectionQuery coll companyId).
  assert (Hok : forallb (fun r => success (row_result r))
                  (fst (migrateEach sc clock coll dryRun (select query (docs w))
                          (issue (QueryGet query) w))) = true).
  { apply (each_success sc clock coll dryRun _ _ schema Hs).
    intros id Hin. apply in_map_iff in Hin as [[i d] [Hi Hin]]. simpl in Hi. subst i.
    apply in_select in Hin. simpl in *. unfold query in Hin. simpl in Hin. congruence. }
  set (rows := fst (migrateEach _ _ _ _ _ _)) in *.
  assert (Hnone : length (List.filter (fun r => negb (success (row_result r))) rows) = 0).
  { apply filter_none_length. rewrite forallb_forall in *. intros r Hr.
    rewrite negb_involutive. apply Hok, Hr. }
  rewrite Hnone. split; [reflexivity|]. split; [reflexivity|].
  pose proof (filter_split (fun r => success (row_result r)) rows). lia.
Qed.

Lemma registered_collection_never_fails_witness :
  getSchema scenarioV11 (dropLast "scenarios") = Some scenarioV11
  /\ c_failed (fst (migrateCollection scenarioV11 fixedClock "scenarios" None false sampleWorld))
     = 0.
Proof.
  split; [reflexivity|].
  apply (registered_collection_never_fails scenarioV11 fixedClock "scenarios" None false
           sampleWorld scenarioV11 eq_refl).
Defined.

(** Property X17. For a collection without a registered schema, whose type
    name is not the name of a member of [Object.prototype], every row of
    [migrateCollection] fails with "Schema not found", there is one row per
    document fetched, the successful count is zero, the failed count is the
    total, and the store is left as it was. *)
Theorem unregistered_collection_fails_without_writing
    (sc : Schema) (clock : nat -> string) (coll : string) (companyId : option string)
    (dryRun : bool) (w : World) :
  getSchema sc (dropLast coll) = None ->
  inherited (dropLast coll) = false ->
  let out := migrateCollection sc clock coll companyId dryRun w in
  (forall r, In r (c_results (fst out)) -> row_result r = Failed "Schema not found")
  /\ map row_id (c_results (fst out))
     = map fst (select (collectionQuery coll companyId) (docs w))
  /\ c_successful (fst out) = 0
  /\ c_failed (fst out) = c_total (fst out)
  /\ docs (snd out) = docs w.
Proof.
  intros Hs _. rewrite collection_report. cbv zeta.
  cbn [fst snd c_total c_successful c_failed c_results].
  set (query := collectionQuery coll companyId).
  destruct (each_failure sc clock coll dryRun (select query (docs w))
              (issue (QueryGet query) w) Hs) as [Hrows Hdocs].
  { intros id Hin. apply in_map_iff in Hin as [[i d] [Hi Hin]]. simpl in Hi. subst i.
    apply in_select in Hin. simpl in *. unfold query in Hin. simpl in Hin. congruence. }
  destruct (MigrationSpec.migrateEach_trace sc clock coll dryRun (select query (docs w))
              (issue (QueryGet query) w)) as (_ & _ & _ & Hids & _).
  set (rows := fst (migrateEach _ _ _ _ _ _)) in *.
  assert (Hzero : length (List.filter (fun r => success (row_result r)) rows) = 0).
  { apply filter_none_length. apply forallb_forall. intros r Hr.
    rewrite (Hrows r Hr). reflexivity. }
  split; [exact Hrows|]. split; [exact Hids|]. split; [exact Hzero|]. split; [|exact Hdocs].
  pose proof (filter_split (fun r => success (row_result r)) rows). lia.
Qed.

Lemma unregistered_collection_fails_without_writing_witness :
  getSchema scenarioV11 (dropLast "widgets") = None
  /\ inherited (dropLast "widgets") = false
  /\ c_results (fst (migrateCollection scenarioV11 fixedClock "widgets" None false strayWorld))
     = [ {| row_id := "w1"; row_name := Some (JStr "Cog");
            row_result := Failed "Schema not found" |} ]
  /\ c_failed (fst (migrateCollection scenarioV11 fixedClock "widgets" None false strayWorld))
     = 1
  /\ docs (snd (migrateCollection scenarioV11 fixedClock "widgets" None false strayWorld))
     = docs strayWorld.
Proof.
  split; [reflexivity|]. split; [reflexivity|].
  destruct (unregistered_collection_fails_without_writing scenarioV11 fixedClock "widgets"
              None false strayWorld eq_refl eq_refl) as (Hrows & Hids & _ & Hfailed & Hdocs).
  split; [vm_compute; reflexivity|]. split; [|exact Hdocs].
  rewrite Hfailed. vm_compute. reflexivity.
Defined.

End CollectionProps.

(* ===================================================================== *)
(** ** Status after migration                                             *)
(* ===================================================================== *)

Module StatusProps.
Import JS Registry Validator Firestore Migration Tables Examples.
Import ObjFacts AssignFacts DefaultsFacts GatherFacts TallyFacts StatusSpec MigrationSpec.
Import Notions ValueFacts DefaultsProps.
Import Db DbFacts PatchFacts MigrationProps SnapshotFacts CollectionProps.



Lemma uniform_tally (t : string) (snap : list (string * Obj)) (n : nat) :
  inherited t = false ->
  (forall e, In e snap -> versionKey (snd e) = t) ->
  fold_left (fun vs e => bump vs (versionKey (snd e))) snap [(t, Num n)]
  = [(t, Num (n + length snap))].
Proof.
  intros Ht. revert n. induction snap as [|e snap IH]; intros n Hall; simpl.
  - rewrite Nat.add_0_r. reflexivity.
  - rewrite (Hall e (or_introl eq_refl)).
    assert (Hstep : bump [(t, Num n)] t = [(t, Num (n + 1))]).
    { unfold bump, read, write. cbn [own existsb fst map].
      destruct (String.eqb_spec t "__proto__") as [->|_]; [discriminate Ht|].
      rewrite String.eqb_refl. reflexivity. }
    rewrite Hstep, IH by (intros x Hx; apply Hall; right; exact Hx).
    f_equal. f_equal. f_equal. lia.
Qed.

Lemma first_tally (t : string) : inherited t = false -> bump [] t = [(t, Num 1)].
Proof.
  intros Ht. unfold bump, read, write. cbn [own existsb].
  destruct (String.eqb_spec t "__proto__") as [->|_]; [discriminate Ht|].
  rewrite (builtin_ordinary t Ht). cbn [plusOne]. unfold place.
  destruct (arrayIndex t); reflexivity.
Qed.

Lemma proto_tally (snap : list (string * Obj)) (vs : list (string * Count)) :
  (forall e, In e snap -> versionKey (snd e) = "__proto__") ->
  fold_left (fun vs e => bump vs (versionKey (snd e))) snap vs = vs.
Proof.
  revert vs. induction snap as [|e snap IH]; intros vs Hall; simpl; [reflexivity|].
  rewrite (Hall e (or_introl eq_refl)), bump_proto.
  apply IH. intros x Hx. apply Hall. right. exact Hx.
Qed.

Lemma text_tally (t : string) (snap : list (string * Obj)) (s : string) :
  t <> "__proto__" -> s <> "" ->
  (forall e, In e snap -> versionKey (snd e) = t) ->
  exists s',
    fold_left (fun vs e => bump vs (versionKey (snd e))) snap [(t, Text s)]
    = [(t, Text s')].
Proof.
  intros Ht. revert s. induction snap as [|e snap IH]; intros s Hs Hall; simpl.
  - exists s. reflexivity.
  - rewrite (Hall e (or_introl eq_refl)).
    assert (Hstep : bump [(t, Text s)] t = [(t, Text (s +:+ "1"))]).
    { unfold bump, read, write. cbn [own existsb fst map].
      destruct (String.eqb_spec t "__proto__") as [|_]; [congruence|].
      rewrite String.eqb_refl. cbn [plusOne orb].
      destruct (String.eqb_spec s "") as [|_]; [congruence|]. reflexivity. }
    rewrite Hstep. apply IH; [apply append_nonempty; discriminate|].
    intros x Hx. apply Hall. right. exact Hx.
Qed.

Lemma builtin_first_tally (t : string) :
  inherited t = true -> t <> "__proto__" ->
  exists s, s <> "" /\ bump [] t = [(t, Text s)].
Proof.
  intros Hi Ht. unfold bump, read, write. cbn [own existsb].
  destruct (String.eqb_spec t "__proto__") as [|_]; [congruence|].
  destruct (builtin t) as [name|] eqn:Hb.
  - cbn [plusOne]. exists (nativeText name +:+ "1").
    split; [apply append_nonempty; discriminate|].
    unfold place. destruct (arrayIndex t); reflexivity.
  - rewrite (builtin_none t Hb Ht) in Hi. discriminate.
Qed.

(** Property X19. After a real run of [migrateCollection] over a whole
    collection whose schema has a non-empty version, [getMigrationStatus]
    on the same collection reports that no migration is needed, an outdated
    count of zero, and, unless the collection is empty, a breakdown that
    has the current version as its single entry, with the number of
    documents as its count, when the version is not the name of a member
    of [Object.prototype]. For such a name the breakdown is empty
    ([__proto__]) or its single entry holds a string. *)
Theorem migrated_collection_reports_no_migration
    (sc : Schema) (clock : nat -> string) (coll : string) (w : World) (schema : Schema) :
  getSchema sc (dropLast coll) = Some schema ->
  s_version schema <> "" ->
  let w' := snd (migrateCollection sc clock coll None false w) in
  let rep := fst (getMigrationStatus sc coll None w') in
  needsMigration rep = false
  /\ outdatedCount rep = Num 0
  /\ (totalDocuments rep <> 0 ->
      (inherited (s_version schema) = false ->
       versionBreakdown rep = [(s_version schema, Num (totalDocuments rep))])
      /\ (inherited (s_version schema) = true -> s_version schema <> "__proto__" ->
          exists s, versionBreakdown rep = [(s_version schema, Text s)])
      /\ (s_version schema = "__proto__" -> versionBreakdown rep = [])).
Proof.
  intros Hs Ht w' rep.
  set (query := collectionQuery coll None) in *.
  set (snap' := select query (docs w')).
  assert (Hrep : rep = statusOf sc coll snap') by reflexivity.
  assert (Hw' : w' = snd (migrateEach sc clock coll false (select query (docs w))
                            (issue (QueryGet query) w))).
  { unfold w'. rewrite collection_report. reflexivity. }
  assert (Hcur : forall e, In e snap' -> versionKey (snd e) = s_version schema).
  { intros [id d'] He. simpl. apply in_select in He. simpl in He.
    rewrite Hw' in He.
    assert (Hin : In id (map fst (select query (docs w)))).
    { destruct (docRead (docs w) coll id) as [d|] eqn:Hd.
      - exact (in_map fst _ _ (in_select_all coll (docs w) id d Hd)).
      - apply (each_exists sc clock coll false (select query (docs w))
                 (issue (QueryGet query) w) id) in Hd. congruence. }
    apply (each_current sc clock coll _ _ schema id d' Hs Ht Hin He). }
  assert (Hneed : needsMigration rep = false).
  { destruct (needsMigration rep) eqn:Hn; [|reflexivity]. rewrite Hrep in Hn.
    apply statusOf_needs_sound in Hn as [e [He Hne]].
    rewrite (currentVersionOf_registered sc coll schema Hs Ht) in Hne.
    rewrite (Hcur e He) in Hne. congruence. }
  split; [exact Hneed|]. split; [rewrite Hrep in *; apply statusOf_clean, Hneed|].
  rewrite Hrep. cbn [totalDocuments versionBreakdown statusOf].
  clearbody snap'. destruct snap' as [|e snap']; [intros H; exfalso; apply H; reflexivity|].
  intros _. split; [|split].
  - intros Hord.
    cbn [fold_left]. rewrite (Hcur e (or_introl eq_refl)), (first_tally _ Hord).
    rewrite (uniform_tally (s_version schema) snap' 1 Hord); [reflexivity|].
    intros x Hx. apply Hcur. right. exact Hx.
  - intros Hi Hp.
    cbn [fold_left]. rewrite (Hcur e (or_introl eq_refl)).
    destruct (builtin_first_tally _ Hi Hp) as [s [Hne ->]].
    apply (text_tally _ snap' s Hp Hne).
    intros x Hx. apply Hcur. right. exact Hx.
  - intros Hp. apply proto_tally. intros x Hx. rewrite (Hcur x Hx). exact Hp.
Qed.

Lemma migrated_collection_reports_no_migration_witness :
  getSchema scenarioV11 (dropLast "scenarios") = Some scenarioV11
  /\ s_version scenarioV11 <> ""
  /\ needsMigration
       (fst (getMigrationStatus scenarioV11 "scenarios" None
               (snd (migrateCollection scenarioV11 fixedClock "scenarios" None false
                       sampleWorld)))) = false
  /\ outdatedCount
       (fst (getMigrationStatus scenarioV11 "scenarios" None
               (snd (migrateCollection scenarioV11 fixedClock "scenarios" None false
                       sampleWorld)))) = Num 0
  /\ versionBreakdown
       (fst (getMigrationStatus scenarioV11 "scenarios" None
               (snd (migrateCollection scenarioV11 fixedClock "scenarios" None false
                       sampleWorld)))) = [("1.1", Num 3)].
Proof.
  assert (Ht : s_version scenarioV11 <> "") by discriminate.
  split; [reflexivity|]. split; [exact Ht|].
  destruct (migrated_collection_reports_no_migration scenarioV11 fixedClock "scenarios"
              sampleWorld scenarioV11 eq_refl Ht) as (Hneeds & Hout & Hbreak).
  split; [exact Hneeds|]. split; [exact Hout|].
  destruct (Hbreak ltac:(vm_compute; discriminate)) as (Hnum & _).
  rewrite (Hnum eq_refl). vm_compute. reflexivity.
Defined.

End StatusProps.

(* ===================================================================== *)
(** ** The CRUD service                                                   *)
(* ===================================================================== *)

Module ServiceProps.
Import JS Registry Validator Firestore Migration Tables Examples.
Import ObjFacts AssignFacts Notions.
Import Db DbFacts PatchFacts KeepProps Service.

Lemma absent_key (o : Obj) (k : string) :
  has o k = false -> forall e, In e o -> fst e <> k.
Proof.
  intros H e He E. assert (has o k = true); [|congruence].
  apply existsb_exists. exists e. split; [exact He|]. rewrite E. apply String.eqb_refl.
Qed.

Lemma has_literal (p : Obj) (k : string) :
  ~ In k (keys p) -> has p k = false.
Proof.
  intros H. destruct (has p k) eqn:E; [|reflexivity]. exfalso. apply H.
  apply existsb_exists in E as [e [He Hk]]. apply String.eqb_eq in Hk.
  rewrite <- Hk. apply in_map. exact He.
Qed.

Lemma get_assign_absent (o p : Obj) (k : string) :
  ~ In k (keys p) -> get (assign o p) k = get o k.
Proof.
  intros H. apply get_assign_other. apply absent_key, has_literal, H.
Qed.

Section WithRegistry.
Variable sc : Schema.

(** What [create] returns and stores: the payload under the six keys of
    the server, which win over the payload's own. *)
Lemma create_outcome
    (coll : string) (data : Obj) (userId companyId id activityId now : string)
    (store : gmap string (gmap string Obj)) :
  exists doc,
    fst (create sc coll data userId companyId id activityId now store) = Succeeded doc
    /\ get doc "id" = Some (JStr id)
    /\ get doc "companyId" = Some (JStr companyId)
    /\ get doc "createdBy" = Some (JStr userId)
    /\ get doc "createdAt" = Some (JStr now)
    /\ get doc "updatedAt" = Some (JStr now)
    /\ get doc "schemaVersion" = Some (JStr (currentVersionOf sc coll))
    /\ (forall k, ~ In k serverKeys -> get doc k = get data k)
    /\ (coll <> "activities" ->
        docRead (snd (create sc coll data userId companyId id activityId now store)) coll id
        = Some doc).
Proof.
  unfold create. cbv zeta. cbn [fst snd]. eexists. split; [reflexivity|].
  assert (Hnd : List.NoDup (keys [ ("id", JStr id); ("companyId", JStr companyId);
                                   ("createdBy", JStr userId); ("createdAt", JStr now);
                                   ("updatedAt", JStr now);
                                   ("schemaVersion", JStr (currentVersionOf sc coll)) ])).
  { simpl. repeat constructor; simpl; intuition discriminate. }
  repeat (split; [rewrite (get_assign_nodup _ _ _ Hnd); reflexivity|]).
  split.
  - intros k Hk. apply get_assign_absent. exact Hk.
  - intros Hc. unfold trackActivity. rewrite read_set_other by (left; exact Hc).
    apply read_set_same.
Qed.

End WithRegistry.

Lemma ownedBy_stamped (o : Obj) (companyId : string) :
  get o "companyId" = Some (JStr companyId) -> ownedBy o companyId = true.
Proof. unfold ownedBy. intros ->. apply String.eqb_refl. Qed.

(** Property X20. [create] stores the payload under the values of the
    server: [id], [companyId], [createdBy], [createdAt], [updatedAt] and
    [schemaVersion] are those of the call even when the payload carries
    these keys, and every other key keeps the payload's value. For a
    collection other than the activity log, [getById] by the creating
    company then returns the document, and [getById] by any other company
    is refused. *)
Theorem created_document_is_stamped_and_readable
    (sc : Schema) (coll : string) (data : Obj) (userId companyId id activityId now : string)
    (store : gmap string (gmap string Obj)) (other : string) :
  coll <> "activities" ->
  other <> companyId ->
  let out := create sc coll data userId companyId id activityId now store in
  exists doc,
    fst out = Succeeded doc
    /\ get doc "id" = Some (JStr id)
    /\ get doc "companyId" = Some (JStr companyId)
    /\ get doc "createdBy" = Some (JStr userId)
    /\ get doc "createdAt" = Some (JStr now)
    /\ get doc "updatedAt" = Some (JStr now)
    /\ get doc "schemaVersion" = Some (JStr (currentVersionOf sc coll))
    /\ (forall k, ~ In k serverKeys -> get doc k = get data k)
    /\ getById coll id companyId (snd out) = Succeeded (assign [("id", JStr id)] doc)
    /\ getById coll id other (snd out)
       = Rejected "Unauthorized: Document belongs to another company".
Proof.
  intros Hc Hne out.
  destruct (create_outcome sc coll data userId companyId id activityId now store)
    as (doc & Hres & Hid & Hcomp & Hby & Hat & Hup & Hver & Hrest & Hread).
  specialize (Hread Hc). fold out in Hres, Hread.
  exists doc. repeat (split; [assumption|]). split.
  - unfold getById. rewrite Hread.
    rewrite (ownedBy_stamped doc companyId Hcomp). reflexivity.
  - unfold getById. rewrite Hread. unfold ownedBy. rewrite Hcomp.
    destruct (String.eqb_spec companyId other); [congruence|]. reflexivity.
Qed.

Lemma created_document_is_stamped_and_readable_witness :
  "characters" <> "activities"
  /\ "globex" <> "acme"
  /\ getById "characters" "c-1" "acme"
       (snd (create bareScenario "characters"
               [("name", JStr "Bob"); ("companyId", JStr "globex")] "u-1" "acme"
               "c-1" "a-1" "2025-01-01T00:00:00.000Z" ∅))
     = Succeeded [("id", JStr "c-1"); ("name", JStr "Bob"); ("companyId", JStr "acme");
                  ("createdBy", JStr "u-1"); ("createdAt", JStr "2025-01-01T00:00:00.000Z");
                  ("updatedAt", JStr "2025-01-01T00:00:00.000Z");
                  ("schemaVersion", JStr "1.0")].
Proof.
  assert (Hc : "characters" <> "activities") by discriminate.
  assert (Hne : "globex" <> "acme") by discriminate.
  split; [exact Hc|]. split; [exact Hne|].
  destruct (created_document_is_stamped_and_readable bareScenario "characters"
              [("name", JStr "Bob"); ("companyId", JStr "globex")] "u-1" "acme"
              "c-1" "a-1" "2025-01-01T00:00:00.000Z" ∅ "globex" Hc Hne)
    as (doc & Hres & _ & _ & _ & _ & _ & _ & _ & Hget & _).
  rewrite Hget. injection Hres as <-. reflexivity.
Defined.

(** Property X21. When the document does not exist or its [companyId] is
    not the caller's, [getById], [update], [deleteDoc] and [duplicate] all
    return the refusal ("Document not found", or "Unauthorized: Document
    belongs to another company") and the three writers leave the store,
    activity log included, as it was. *)
Theorem foreign_documents_are_out_of_reach
    (coll id : string) (data : Obj) (userId companyId x y now : string)
    (store : gmap string (gmap string Obj)) :
  match docRead store coll id with
  | Some d => ownedBy d companyId = false
  | None => True
  end ->
  let refusal :=
    match docRead store coll id with
    | Some _ => Rejected "Unauthorized: Document belongs to another company"
    | None => Rejected "Document not found"
    end in
  getById coll id companyId store = refusal
  /\ update coll id data userId companyId x now store = (refusal, store)
  /\ deleteDoc coll id userId companyId x now store = (refusal, store)
  /\ duplicate coll id userId companyId x y now store = (refusal, store).
Proof.
  unfold getById, update, deleteDoc, duplicate, getById.
  destruct (docRead store coll id) as [d|]; [intros ->|intros _]; simpl; repeat split.
Qed.

Lemma foreign_documents_are_out_of_reach_witness :
  ownedBy [("name", JStr "Bob"); ("companyId", JStr "acme")] "globex" = false
  /\ update "characters" "c-1" [("name", JStr "Eve")] "u-9" "globex" "a-2" "later"
       (docSet "characters" "c-1" [("name", JStr "Bob"); ("companyId", JStr "acme")] ∅)
     = (Rejected "Unauthorized: Document belongs to another company",
        docSet "characters" "c-1" [("name", JStr "Bob"); ("companyId", JStr "acme")] ∅).
Proof.
  split; [reflexivity|].
  destruct (foreign_documents_are_out_of_reach "characters" "c-1" [("name", JStr "Eve")]
              "u-9" "globex" "a-2" "a-3" "later"
              (docSet "characters" "c-1" [("name", JStr "Bob"); ("companyId", JStr "acme")] ∅))
    as (_ & Hup & _); [vm_compute; reflexivity|].
  rewrite Hup. vm_compute. reflexivity.
Defined.

Lemma update_owned (coll id : string) (data d : Obj) (userId companyId activityId now : string)
    (store : gmap string (gmap string Obj)) :
  docRead store coll id = Some d -> ownedBy d companyId = true -> coll <> "activities" ->
  docRead (snd (update coll id data userId companyId activityId now store)) coll id
  = Some (assign d (assign data [("updatedAt", JStr now); ("updatedBy", JStr userId)])).
Proof.
  intros Hd Ho Hc. unfold update. rewrite Hd, Ho. cbn [negb snd]. unfold trackActivity.
  rewrite read_set_other by (left; exact Hc). apply read_merge_same, Hd.
Qed.

(** Property X22. [update] by the owning company, on a collection other
    than the activity log and with a payload whose keys are names of
    top-level fields, stamps [updatedAt] and [updatedBy] and leaves every
    key that the payload does not have with its stored value (so
    [schemaVersion] is not advanced by an update that does not send it);
    every other document outside the activity log reads as before. *)
Theorem update_changes_only_what_is_sent
    (coll id : string) (data d : Obj) (userId companyId activityId now : string)
    (store : gmap string (gmap string Obj)) :
  docRead store coll id = Some d ->
  ownedBy d companyId = true ->
  coll <> "activities" ->
  plainKeys data = true ->
  exists d',
    docRead (snd (update coll id data userId companyId activityId now store)) coll id = Some d'
    /\ get d' "updatedAt" = Some (JStr now)
    /\ get d' "updatedBy" = Some (JStr userId)
    /\ (forall k, has data k = false -> k <> "updatedAt" -> k <> "updatedBy" ->
                  get d' k = get d k)
    /\ (forall coll' id', coll' <> "activities" -> coll' <> coll \/ id' <> id ->
          docRead (snd (update coll id data userId companyId activityId now store)) coll' id'
          = docRead store coll' id').
Proof.
  intros Hd Ho Hc _. eexists. split; [apply (update_owned coll id data d); assumption|].
  split; [|split; [|split]].
  - apply get_assign_uniform; [simpl; rewrite !has_set; reflexivity|].
    intros e He Hk. simpl in He.
    apply set_entries in He as [[He _]|[_ He]]; [congruence|].
    apply set_entries in He as [[_ He]|[He _]]; [exact He|congruence].
  - apply get_assign_uniform; [simpl; rewrite !has_set; reflexivity|].
    intros e He Hk. simpl in He.
    apply set_entries in He as [[_ He]|[He _]]; [exact He|congruence].
  - intros k Hk Hua Hub. apply get_assign_other. intros e He. simpl in He.
    apply set_entries in He as [[He _]|[_ He]]; [congruence|].
    apply set_entries in He as [[He _]|[_ He]]; [congruence|].
    apply (absent_key data k Hk e He).
  - intros coll' id' Hact Hne. unfold update. rewrite Hd, Ho. cbn [negb snd].
    unfold trackActivity. rewrite read_set_other by (left; exact Hact).
    apply read_merge_other, Hne.
Qed.

Lemma update_changes_only_what_is_sent_witness :
  let store :=
    docSet "characters" "c-1"
      [("name", JStr "Bob"); ("companyId", JStr "acme"); ("schemaVersion", JStr "1.0")] ∅ in
  docRead store "characters" "c-1"
  = Some [("name", JStr "Bob"); ("companyId", JStr "acme"); ("schemaVersion", JStr "1.0")]
  /\ plainKeys [("name", JStr "Rob")] = true
  /\ exists d',
       docRead (snd (update "characters" "c-1" [("name", JStr "Rob")] "u-1" "acme" "a-2"
                       "later" store)) "characters" "c-1" = Some d'
       /\ get d' "schemaVersion" = Some (JStr "1.0").
Proof.
  intros store.
  assert (Hd : docRead store "characters" "c-1"
               = Some [("name", JStr "Bob"); ("companyId", JStr "acme");
                       ("schemaVersion", JStr "1.0")]) by (vm_compute; reflexivity).
  split; [exact Hd|]. split; [reflexivity|].
  destruct (update_changes_only_what_is_sent "characters" "c-1" [("name", JStr "Rob")] _
              "u-1" "acme" "a-2" "later" store Hd eq_refl ltac:(discriminate) eq_refl)
    as (d' & Hread & _ & _ & Hkeep & _).
  exists d'. split; [exact Hread|].
  rewrite (Hkeep "schemaVersion"); [reflexivity|reflexivity|discriminate|discriminate].
Defined.

(** Property X23. After [deleteDoc] by the owning company, on a collection
    other than the activity log, the call is acknowledged, [getById] on the
    same id answers "Document not found", every other document outside the
    activity log reads as before, and the activity log holds a [delete]
    entry for the id. *)
Theorem delete_then_getById
    (coll id : string) (d : Obj) (userId companyId activityId now : string)
    (store : gmap string (gmap string Obj)) :
  docRead store coll id = Some d ->
  ownedBy d companyId = true ->
  coll <> "activities" ->
  let out := deleteDoc coll id userId companyId activityId now store in
  fst out = Acknowledged "Document deleted successfully"
  /\ getById coll id companyId (snd out) = Rejected "Document not found"
  /\ (forall coll' id', coll' <> "activities" -> coll' <> coll \/ id' <> id ->
        docRead (snd out) coll' id' = docRead store coll' id')
  /\ exists entry,
       docRead (snd out) "activities" activityId = Some entry
       /\ get entry "type" = Some (JStr "delete")
       /\ get entry "entityId" = Some (JStr id).
Proof.
  intros Hd Ho Hc out. subst out. unfold deleteDoc. rewrite Hd, Ho. cbn [negb fst snd].
  unfold trackActivity. split; [reflexivity|]. split; [|split].
  - unfold getById. rewrite read_set_other by (left; exact Hc).
    rewrite read_erase_same. reflexivity.
  - intros coll' id' Hact Hne. rewrite read_set_other by (left; exact Hact).
    apply read_erase_other, Hne.
  - eexists. split; [apply read_set_same|]. split; reflexivity.
Qed.

Lemma delete_then_getById_witness :
  let store :=
    docSet "characters" "c-1" [("name", JStr "Bob"); ("companyId", JStr "acme")] ∅ in
  docRead store "characters" "c-1" = Some [("name", JStr "Bob"); ("companyId", JStr "acme")]
  /\ getById "characters" "c-1" "acme"
       (snd (deleteDoc "characters" "c-1" "u-1" "acme" "a-2" "later" store))
     = Rejected "Document not found".
Proof.
  intros store.
  assert (Hd : docRead store "characters" "c-1"
               = Some [("name", JStr "Bob"); ("companyId", JStr "acme")])
    by (vm_compute; reflexivity).
  split; [exact Hd|].
  destruct (delete_then_getById "characters" "c-1" _ "u-1" "acme" "a-2" "later" store
              Hd eq_refl ltac:(discriminate)) as (_ & Hgone & _).
  exact Hgone.
Defined.

End ServiceProps.

(* ===================================================================== *)
(** ** Duplicating a document                                             *)
(* ===================================================================== *)

Module DuplicateProps.
Import JS Registry Validator Firestore Migration Tables Examples.
Import ObjFacts AssignFacts Notions.
Import Db DbFacts PatchFacts KeepProps Service ValidatorProps ServiceProps.






End DuplicateProps.

(* ===================================================================== *)
(** ** The entity routes                                                  *)
(* ===================================================================== *)

Module RouteProps.
Import JS Registry Validator Firestore Migration Tables Examples.
Import ObjFacts AssignFacts Notions.
Import Db DbFacts PatchFacts KeepProps Service ValidatorProps ServiceProps.
Import SanitizerProps AcceptanceProps Routes.

(** Property X25. The POST handler of an entity route, for a registered
    type and a collection other than the activity log, either answers 201
    and has stored, under the new id, a document that carries the server's
    [id], [companyId], [createdBy] and [schemaVersion], under every other
    key the payload's value unless the key is one [sanitizeData] deletes,
    the payload having a non-blank value for every required field that is
    not skipped; or it answers 400 or 500 and the store is as it was. *)
Theorem post_creates_validated_document_or_nothing
    (sc : Schema) (rx : string -> string -> bool) (TYPE COLLECTION noun : string)
    (schema : Schema) (data : Obj) (userId companyId id activityId now : string)
    (store : gmap string (gmap string Obj)) :
  getSchema sc TYPE = Some schema ->
  COLLECTION <> "activities" ->
  let out := postHandler sc rx TYPE COLLECTION noun data userId companyId id activityId now store in
  (exists doc,
      status (fst out) = 201
      /\ body (fst out) = Result (Succeeded doc)
      /\ docRead (snd out) COLLECTION id = Some doc
      /\ get doc "id" = Some (JStr id)
      /\ get doc "companyId" = Some (JStr companyId)
      /\ get doc "createdBy" = Some (JStr userId)
      /\ get doc "schemaVersion" = Some (JStr (currentVersionOf sc COLLECTION))
      /\ (forall k, ~ In k serverKeys ->
                    get doc k = if strippedName schema k then None else get data k)
      /\ (forall f, In f (flatten schema) -> f_required f = true -> skipped f = false ->
                    blank (get data (f_name f)) = false))
  \/ (snd out = store /\ (status (fst out) = 400 \/ status (fst out) = 500)).
Proof.
  intros Hs Hc out. subst out. unfold postHandler.
  destruct (validateData sc rx TYPE data false None) as [r|] eqn:Hr;
    [|right; split; [reflexivity|right; reflexivity]].
  destruct (valid r) eqn:Hv; cbn [negb];
    [|right; split; [reflexivity|left; reflexivity]].
  left.
  destruct (create_outcome sc COLLECTION (sanitizeData sc TYPE data)
              userId companyId id activityId now store)
    as (doc & Hres & Hid & Hcomp & Hby & _ & _ & Hver & Hrest & Hread).
  destruct (create sc COLLECTION (sanitizeData sc TYPE data) userId companyId id activityId
              now store) as [result store'] eqn:Hcr.
  cbn [fst snd] in *. subst result.
  exists doc. repeat (split; [first [reflexivity | assumption | apply Hread, Hc]|]).
  split.
  - intros k Hk. rewrite (Hrest k Hk). apply get_sanitize, Hs.
  - intros f Hf Hreq Hsk.
    pose proof (accepted_fields sc rx TYPE schema data false None r Hs Hr Hv f Hf) as H.
    unfold validateField in H. unfold skipped in Hsk. rewrite Hsk, Hreq in H. simpl in H.
    destruct (blank (get data (f_name f))); [discriminate|reflexivity].
Qed.

Lemma post_creates_validated_document_or_nothing_witness :
  getSchema bareScenario "dialogue" = Some dialogueSchema
  /\ "dialogues" <> "activities"
  /\ status (fst (postHandler bareScenario anyMatch "dialogue" "dialogues" "dialogue"
                    [("name", JStr "Intro"); ("companyId", JStr "globex")]
                    "u-1" "acme" "d-1" "a-1" "2025-01-01T00:00:00.000Z" ∅)) = 201
  /\ status (fst (postHandler bareScenario anyMatch "dialogue" "dialogues" "dialogue"
                    [("companyId", JStr "globex")]
                    "u-1" "acme" "d-1" "a-1" "2025-01-01T00:00:00.000Z" ∅)) = 400.
Proof.
  assert (Hc : "dialogues" <> "activities") by discriminate.
  split; [reflexivity|]. split; [exact Hc|]. split.
  - destruct (post_creates_validated_document_or_nothing bareScenario anyMatch "dialogue"
                "dialogues" "dialogue" dialogueSchema
                [("name", JStr "Intro"); ("companyId", JStr "globex")]
                "u-1" "acme" "d-1" "a-1" "2025-01-01T00:00:00.000Z" ∅ eq_refl Hc)
      as [(doc & Hst & _)|[_ [H|H]]]; [exact Hst|..]; vm_compute in H; discriminate H.
  - destruct (post_creates_validated_document_or_nothing bareScenario anyMatch "dialogue"
                "dialogues" "dialogue" dialogueSchema [("companyId", JStr "globex")]
                "u-1" "acme" "d-1" "a-1" "2025-01-01T00:00:00.000Z" ∅ eq_refl Hc)
      as [(doc & Hst & _)|[_ [H|H]]]; [vm_compute in Hst; discriminate Hst|exact H|];
      vm_compute in H; discriminate H.
Defined.

(** Property X26. The PUT handler of an entity route does not change a
    protected field through a payload whose keys are names of top-level
    fields: for a registered type and an existing document, a key that
    [sanitizeData] deletes, other than [updatedAt] and [updatedBy], has the
    same stored value after the request whatever such a payload says.
    Moreover the handler answers 200 only for a document of the caller's
    company, and otherwise leaves the store as it was. *)
Theorem put_keeps_protected_fields
    (sc : Schema) (rx : string -> string -> bool) (TYPE COLLECTION noun : string)
    (schema : Schema) (id : string) (data d : Obj) (userId companyId activityId now : string)
    (store : gmap string (gmap string Obj)) (k : string) :
  getSchema sc TYPE = Some schema ->
  docRead store COLLECTION id = Some d ->
  COLLECTION <> "activities" ->
  strippedName schema k = true ->
  k <> "updatedAt" ->
  k <> "updatedBy" ->
  plainKeys data = true ->
  let out := putHandler sc rx TYPE COLLECTION noun id data userId companyId activityId now store in
  (exists d', docRead (snd out) COLLECTION id = Some d' /\ get d' k = get d k)
  /\ ((status (fst out) = 200 /\ ownedBy d companyId = true) \/ snd out = store).
Proof.
  intros Hs Hd Hc Hk Hua Hub _ out. subst out. unfold putHandler.
  destruct (validateData sc rx TYPE data true None) as [r|];
    [|split; [exists d; split; [exact Hd|reflexivity]|right; reflexivity]].
  destruct (valid r); cbn [negb];
    [|split; [exists d; split; [exact Hd|reflexivity]|right; reflexivity]].
  destruct (ownedBy d companyId) eqn:Ho.
  - pose proof (update_owned COLLECTION id (sanitizeData sc TYPE data) d userId companyId
                  activityId now store Hd Ho Hc) as Hread.
    assert (Hres : succeeded (fst (update COLLECTION id (sanitizeData sc TYPE data) userId
                                     companyId activityId now store)) = true).
    { unfold update. rewrite Hd, Ho. reflexivity. }
    destruct (update COLLECTION id (sanitizeData sc TYPE data) userId companyId activityId
                now store) as [result store'].
    cbn [fst snd] in *. rewrite Hres. cbn [negb fst snd]. split; [|left; split; reflexivity].
    eexists. split; [exact Hread|].
    apply get_assign_other. intros e He. simpl in He.
    apply set_entries in He as [[He _]|[_ He]]; [congruence|].
    apply set_entries in He as [[He _]|[_ He]]; [congruence|].
    apply (absent_key (sanitizeData sc TYPE data) k); [|exact He].
    rewrite (has_sanitize sc TYPE schema data k Hs), Hk. reflexivity.
  - unfold update. rewrite Hd, Ho. cbn [negb succeeded fst snd].
    split; [exists d; split; [exact Hd|reflexivity]|right; reflexivity].
Qed.

Lemma put_keeps_protected_fields_witness :
  let store :=
    docSet "dialogues" "d-1"
      [("id", JStr "d-1"); ("name", JStr "Intro"); ("companyId", JStr "acme");
       ("createdBy", JStr "u-1")] ∅ in
  strippedName dialogueSchema "createdBy" = true
  /\ plainKeys [("name", JStr "Outro"); ("createdBy", JStr "mallory")] = true
  /\ exists d',
       docRead (snd (putHandler bareScenario anyMatch "dialogue" "dialogues" "dialogue" "d-1"
                       [("name", JStr "Outro"); ("createdBy", JStr "mallory")]
                       "u-2" "acme" "a-2" "later" store)) "dialogues" "d-1" = Some d'
       /\ get d' "createdBy" = Some (JStr "u-1").
Proof.
  intros store.
  assert (Hk : strippedName dialogueSchema "createdBy" = true) by (vm_compute; reflexivity).
  split; [exact Hk|]. split; [reflexivity|].
  destruct (put_keeps_protected_fields bareScenario anyMatch "dialogue" "dialogues" "dialogue"
              dialogueSchema "d-1" [("name", JStr "Outro"); ("createdBy", JStr "mallory")]
              [("id", JStr "d-1"); ("name", JStr "Intro"); ("companyId", JStr "acme");
               ("createdBy", JStr "u-1")]
              "u-2" "acme" "a-2" "later" store "createdBy")
    as [(d' & Hread & Hget) _];
    [reflexivity|vm_compute; reflexivity|discriminate|exact Hk|discriminate|discriminate
    |reflexivity|].
  exists d'. split; [exact Hread|exact Hget].
Defined.

End RouteProps.

(* ===================================================================== *)
(** ** The migration command line                                         *)
(* ===================================================================== *)

Module CliProps.
Import JS Registry Validator Firestore Migration Tables Examples.
Import ObjFacts AssignFacts TallyFacts StatusSpec Notions.
Import Db DbFacts SnapshotFacts CollectionProps StatusProps Cli.

Section Engine.
Variable sc : Schema.
Variable clock : nat -> string.

Lemma collection_other (coll : string) (companyId : option string) (dryRun : bool) (w : World)
    (coll' id' : string) :
  coll' <> coll ->
  docRead (docs (snd (migrateCollection sc clock coll companyId dryRun w))) coll' id'
  = docRead (docs w) coll' id'.
Proof.
  intros Hne. rewrite collection_report. cbv zeta. cbn [snd].
  rewrite each_other by (left; exact Hne). reflexivity.
Qed.

Lemma collection_current (coll : string) (w : World) (schema : Schema) :
  getSchema sc (dropLast coll) = Some schema ->
  s_version schema <> "" ->
  currentIn sc coll (docs (snd (migrateCollection sc clock coll None false w))).
Proof.
  intros Hs Ht id d' Hd. rewrite (currentVersionOf_registered sc coll schema Hs Ht).
  rewrite collection_report in Hd. cbv zeta in Hd. cbn [snd] in Hd.
  set (query := collectionQuery coll None) in *.
  assert (Hin : In id (map fst (select query (docs w)))).
  { destruct (docRead (docs w) coll id) as [d|] eqn:Hd0.
    - exact (in_map fst _ _ (in_select_all coll (docs w) id d Hd0)).
    - apply (each_exists sc clock coll false (select query (docs w))
               (issue (QueryGet query) w) id) in Hd0. congruence. }
  apply (each_current sc clock coll _ _ schema id d' Hs Ht Hin Hd).
Qed.

Lemma collection_dry_run (coll : string) (companyId : option string) (w : World) :
  docs (snd (migrateCollection sc clock coll companyId true w)) = docs w.
Proof.
  rewrite collection_report. cbv zeta. cbn [snd].
  destruct (MigrationSpec.migrateEach_trace sc clock coll true
              (select (collectionQuery coll companyId) (docs w))
              (issue (QueryGet (collectionQuery coll companyId)) w))
    as [rest [_ [_ [_ Hdry]]]].
  apply Hdry. reflexivity.
Qed.

(** Migrating a list of collections one after the other. *)
Lemma sweep_dry_run (cs : list string) (w : World) :
  docs (fold_left (fun acc coll => snd (migrateCollection sc clock coll None true acc)) cs w)
  = docs w.
Proof.
  revert w. induction cs as [|c cs IH]; intros w; [reflexivity|].
  simpl. rewrite IH. apply collection_dry_run.
Qed.

Lemma sweep_other (cs : list string) (dryRun : bool) (w : World) (coll' id' : string) :
  ~ In coll' cs ->
  docRead (docs (fold_left (fun acc coll => snd (migrateCollection sc clock coll None dryRun acc))
                   cs w)) coll' id'
  = docRead (docs w) coll' id'.
Proof.
  revert w. induction cs as [|c cs IH]; intros w Hn; [reflexivity|].
  simpl. rewrite IH by (intros H; apply Hn; right; exact H).
  apply collection_other. intros ->. apply Hn. left. reflexivity.
Qed.

Lemma sweep_current (cs : list string) (w : World) :
  List.NoDup cs ->
  (forall c, In c cs ->
     exists schema, getSchema sc (dropLast c) = Some schema /\ s_version schema <> "") ->
  forall c, In c cs ->
    currentIn sc c
      (docs (fold_left (fun acc coll => snd (migrateCollection sc clock coll None false acc))
               cs w)).
Proof.
  revert w. induction cs as [|c0 cs IH]; intros w Hnd Hreg c Hc; [destruct Hc|].
  apply List.NoDup_cons_iff in Hnd as [Hfresh Hnd]. simpl.
  destruct (in_dec String.string_dec c cs) as [Hin|Hout].
  - apply IH; [exact Hnd| |exact Hin]. intros c' Hc'. apply Hreg. right. exact Hc'.
  - destruct Hc as [->|Hc]; [|contradiction].
    destruct (Hreg c (or_introl eq_refl)) as [schema [Hs Ht]].
    intros id d Hd. rewrite sweep_other in Hd by exact Hout.
    apply (collection_current c w schema Hs Ht id d Hd).
Qed.

Lemma status_of_current (coll : string) (w : World) :
  currentIn sc coll (docs w) ->
  needsMigration (fst (getMigrationStatus sc coll None w)) = false
  /\ outdatedCount (fst (getMigrationStatus sc coll None w)) = Num 0.
Proof.
  intros Hcur.
  change (fst (getMigrationStatus sc coll None w))
    with (statusOf sc coll (select (collectionQuery coll None) (docs w))).
  assert (Hneed : needsMigration (statusOf sc coll (select (collectionQuery coll None) (docs w)))
                  = false).
  { destruct (needsMigration _) eqn:Hn; [|reflexivity].
    apply statusOf_needs_sound in Hn as [[id d] [He Hne]]. apply in_select in He.
    simpl in He, Hne. elim Hne. apply (Hcur id d He). }
  split; [exact Hneed|]. apply statusOf_clean, Hneed.
Qed.

Lemma showStatus_fold (cs : list string) (acc : list StatusReport) (w : World) :
  let out :=
    fold_left
      (fun acc coll =>
         let (status, w') := getMigrationStatus sc coll None (snd acc) in
         (fst acc ++ [status], w'))
      cs (acc, w) in
  docs (snd out) = docs w
  /\ fst out = acc ++ map (fun c => fst (getMigrationStatus sc c None w)) cs
  /\ exists rest, log (snd out) = log w ++ rest /\ forallb isQuery rest = true.
Proof.
  revert acc w. induction cs as [|c cs IH]; intros acc w; cbv zeta.
  - simpl. rewrite app_nil_r. repeat split. exists []. rewrite app_nil_r. split; reflexivity.
  - destruct (IH (acc ++ [statusOf sc c (select (collectionQuery c None) (docs w))])
                (issue (QueryGet (collectionQuery c None)) w))
      as (Hd & Hf & rest & Hl & Hq).
    cbv zeta in Hd, Hf, Hl. cbn [fold_left].
    change (getMigrationStatus sc c None (snd (acc, w)))
      with (statusOf sc c (select (collectionQuery c None) (docs w)),
            issue (QueryGet (collectionQuery c None)) w).
    cbv beta iota. cbn [fst snd].
    split; [rewrite Hd; reflexivity|]. split.
    + rewrite Hf, <- app_assoc. reflexivity.
    + exists (QueryGet (collectionQuery c None) :: rest). split.
      * rewrite Hl. simpl. rewrite <- app_assoc. reflexivity.
      * simpl. exact Hq.
Qed.

End Engine.

Lemma collections_distinct : List.NoDup COLLECTIONS.
Proof. unfold COLLECTIONS. repeat constructor; simpl; intuition discriminate. Qed.

Lemma collections_registered (sc : Schema) :
  s_version sc <> "" ->
  forall c, In c COLLECTIONS ->
    exists schema, getSchema sc (dropLast c) = Some schema /\ s_version schema <> "".
Proof.
  intros Ht c Hc. unfold COLLECTIONS in Hc. simpl in Hc.
  destruct Hc as [<-|[<-|[<-|[<-|[]]]]].
  - exists sc. split; [reflexivity|exact Ht].
  - exists characterSchema. split; [reflexivity|discriminate].
  - exists dialogueSchema. split; [reflexivity|discriminate].
  - exists environmentSchema. split; [reflexivity|discriminate].
Qed.

(** Property X27. The commands [run <collection> --dry-run] (for one
    collection, for [all], or for an unknown name) and [status] of the
    migration tool leave every document as it was; [status] sends collection
    queries only. *)
Theorem status_and_dry_run_never_write
    (sc : Schema) (clock : nat -> string) (collection : string) (param : option string)
    (w : World) :
  docs (snd (runMigration sc clock collection true w)) = docs w
  /\ docs (snd (showStatus sc param w)) = docs w
  /\ exists queries,
       log (snd (showStatus sc param w)) = log w ++ queries
       /\ forallb isQuery queries = true.
Proof.
  split; [|split].
  - unfold runMigration. destruct (String.eqb collection "all"); [apply sweep_dry_run|].
    destruct (existsb (String.eqb collection) COLLECTIONS); cbn [negb snd];
      [apply collection_dry_run|reflexivity].
  - unfold showStatus. apply showStatus_fold.
  - unfold showStatus. apply showStatus_fold.
Qed.

(** Property X28. After [run all] of the migration tool, when the scenario
    schema has a non-empty version, [status] prints four reports and each
    of them says that no migration is needed, with an outdated count of
    zero. *)
Theorem run_all_then_status_is_clean
    (sc : Schema) (clock : nat -> string) (w : World) :
  s_version sc <> "" ->
  let w' := snd (runMigration sc clock "all" false w) in
  length (fst (showStatus sc None w')) = 4
  /\ forall report, In report (fst (showStatus sc None w')) ->
       needsMigration report = false /\ outdatedCount report = Num 0.
Proof.
  intros Ht w'. unfold showStatus.
  destruct (showStatus_fold sc COLLECTIONS [] w') as (_ & Hf & _). cbv zeta in Hf.
  rewrite Hf. split; [reflexivity|]. intros report Hin. rewrite app_nil_l in Hin.
  apply in_map_iff in Hin as [c [<- Hc]].
  apply status_of_current. subst w'. unfold runMigration. cbn [String.eqb Ascii.eqb snd].
  apply sweep_current; [apply collections_distinct|apply collections_registered, Ht|exact Hc].
Qed.

Lemma run_all_then_status_is_clean_witness :
  s_version scenarioV11 <> ""
  /\ forall report,
       In report (fst (showStatus scenarioV11 None
                         (snd (runMigration scenarioV11 fixedClock "all" false sampleWorld)))) ->
       needsMigration report = false /\ outdatedCount report = Num 0.
Proof.
  assert (Ht : s_version scenarioV11 <> "") by discriminate.
  split; [exact Ht|].
  apply (run_all_then_status_is_clean scenarioV11 fixedClock sampleWorld Ht).
Defined.

End CliProps.
